(** * GeoIP firewall: rule-synchronization engine

    A shallow embedding of [src/proxmox_geoip_firewall/main.py] and the
    properties of its synchronization run.

    The program is a one-shot script.  Its state lives outside the process:
    three files under [/usr/local/geoip-firewall], the kernel's address sets
    (ipset) and the two INPUT chains (iptables, ip6tables).  The embedding
    threads that state, the process-wide [ALL_COUNTRIES] global and a trace of
    every external action through a small state-and-exception monad.  What
    the outside world answers (HTTP responses, downloaded bytes, whether a
    command is rejected or cannot be started) is read from an environment.

    Modelling conventions:
    - a Python [str] is a [string] whose characters are its code points, all
      below 256: [http.client] decodes header values as ISO-8859-1, so the
      two headers are exactly such strings, and digests, command output and
      ISO country codes are ASCII; a text file holding a code point beyond
      U+00FF is outside the model;
    - local file operations (open, read, write, unlink, mkdir) succeed; a
      text file is the text written to it, and reading it in text mode
      translates its line ends ([read_text]);
    - [result.stdout.split("\n")] is modelled as the list of lines;
    - a subprocess outcome is chosen by the environment: [Ok] runs the
      command's nominal kernel effect, [Rejected] is a non-zero exit status
      with empty output and no effect (it stands for every kernel refusal
      outside this model: set in use, duplicate element, capacity, lock
      contention), [Crash] is an [OSError] raised by [subprocess] itself;
    - log output is not modelled. *)

From Stdlib Require Import List String Ascii Arith Bool Lia PeanoNat.
From Stdlib Require Import Decimal DecimalNat DecimalString.
Import ListNotations.
Open Scope list_scope.
Open Scope string_scope.

(* ================================================================= *)
(** ** Python string operations used by the script *)

Module PyStr.

(** [pat in s] *)
Fixpoint contains (pat s : string) : bool :=
  String.prefix pat s ||
  match s with
  | EmptyString => false
  | String _ s' => contains pat s'
  end.

(** [s.startswith(pre)] *)
Definition startswith (pre s : string) : bool := String.prefix pre s.

(** The code points below 256 for which [str.isspace] holds, which are
    the characters [strip()] and [split()] treat as white space: TAB to CR,
    FS to US, the space, NEL (U+0085) and the no-break space (U+00A0). *)
Definition is_space (c : ascii) : bool :=
  let n := nat_of_ascii c in
  ((9 <=? n)%nat && (n <=? 13)%nat) || ((28 <=? n)%nat && (n <=? 32)%nat)
  || (n =? 133)%nat || (n =? 160)%nat.

Fixpoint lstrip (s : string) : string :=
  match s with
  | EmptyString => EmptyString
  | String c s' => if is_space c then lstrip s' else s
  end.

Fixpoint rstrip (s : string) : string :=
  match s with
  | EmptyString => EmptyString
  | String c s' =>
      match rstrip s' with
      | EmptyString => if is_space c then EmptyString else String c EmptyString
      | t => String c t
      end
  end.

(** [s.strip()] *)
Definition strip (s : string) : string := rstrip (lstrip s).

(** [f.read()] of a file opened in text mode that holds the text [s]:
    universal newlines turn CR LF and a CR alone into LF. *)
Fixpoint read_text (s : string) : string :=
  match s with
  | EmptyString => EmptyString
  | String c s' =>
      if (nat_of_ascii c =? 13)%nat then
        match s' with
        | String c' s'' =>
            if (nat_of_ascii c' =? 10)%nat
            then String (ascii_of_nat 10) (read_text s'')
            else String (ascii_of_nat 10) (read_text s')
        | EmptyString => String (ascii_of_nat 10) EmptyString
        end
      else String c (read_text s')
  end.

(** The characters of [s] up to the first white space. *)
Fixpoint take_word (s : string) : string :=
  match s with
  | EmptyString => EmptyString
  | String c s' => if is_space c then EmptyString else String c (take_word s')
  end.

(** [s.split()[0]]; [None] stands for the [IndexError] of an empty split. *)
Definition split_first (s : string) : option string :=
  match lstrip s with
  | EmptyString => None
  | t => Some (take_word t)
  end.

(** [s] holds a carriage return. *)
Definition has_cr (s : string) : bool :=
  existsb (fun c => (nat_of_ascii c =? 13)%nat) (list_ascii_of_string s).

(** The decimal digits 0 to 9. *)
Definition is_digit (c : ascii) : bool :=
  let n := nat_of_ascii c in (48 <=? n)%nat && (n <=? 57)%nat.

Fixpoint all_digits (s : string) : bool :=
  match s with
  | EmptyString => true
  | String c s' => is_digit c && all_digits s'
  end.

(** The code points below 256 that [str.isdigit] accepts: the decimal
    digits and the superscripts two, three (U+00B2, U+00B3) and one
    (U+00B9). *)
Definition is_unicode_digit (c : ascii) : bool :=
  let n := nat_of_ascii c in
  is_digit c || (n =? 178)%nat || (n =? 179)%nat || (n =? 185)%nat.

(** [s.isdigit()] *)
Definition isdigit (s : string) : bool :=
  match s with
  | EmptyString => false
  | _ => forallb is_unicode_digit (list_ascii_of_string s)
  end.

(** [str(n)] *)
Definition str (n : nat) : string := NilEmpty.string_of_uint (Nat.to_uint n).

(** The number a decimal numeral denotes, as the kernel tools read it. *)
Definition int_of (s : string) : option nat :=
  match s with
  | EmptyString => None
  | _ => option_map Nat.of_uint (NilEmpty.uint_of_string s)
  end.

(** [f"{n:02d}"] *)
Definition pad2 (n : nat) : string :=
  if (n <? 10)%nat then "0" ++ str n else str n.

(** [x in l] for a list of strings *)
Definition mem (x : string) (l : list string) : bool :=
  existsb (String.eqb x) l.

End PyStr.

Import PyStr.

(* ================================================================= *)
(** ** Configuration *)

Module CONFIG.
Definition MMDB_FILE := "/usr/local/geoip-firewall/dbip-country-lite.mmdb".
Definition HASH_FILE := "/usr/local/geoip-firewall/dbip-version.hash".
Definition LAST_CHECK_FILE := "/usr/local/geoip-firewall/last-check.txt".
Definition ALLOWED_COUNTRIES : list string := ["KR"].
Definition PRIVATE_NETWORKS_V4 : list string :=
  ["10.0.0.0/8"; "172.16.0.0/12"; "192.168.0.0/16"; "169.254.0.0/16"].
Definition PRIVATE_NETWORKS_V6 : list string := ["fc00::/7"; "fe80::/10"].
End CONFIG.

(* ================================================================= *)
(** ** Data model *)

(** What one record of the database says about its network: the cases
    distinguished by the reader's three tests. *)
Inductive record_data :=
| NoData                      (* [not data] *)
| NoCountry                   (* no ["country"] key *)
| NoIsoCode                   (* no ["iso_code"] key *)
| IsoCode (code : string).

(** The database file: its SHA-256 hex digest and what a reader finds in
    it ([None]: not a readable database). *)
Record mmdb_file := {
  sha256 : string;
  networks : option (list (string * record_data))
}.

(** The persisted files, each absent or present. *)
Record files := {
  mmdb : option mmdb_file;
  hash_file : option string;
  last_check_file : option string
}.

Inductive family := Inet | Inet6.

Inductive target :=
| ACCEPT
| DROP
| LOG (log_prefix : string) (log_level : nat).

(** One entry of an INPUT chain, with the matches the script uses.
    [r_extra] holds the text of matches of rules made by other systems. *)
Record rule := {
  r_iface : option string;      (* -i *)
  r_src : option string;        (* -s *)
  r_set : option string;        (* -m set --match-set NAME src *)
  r_ctstate : option string;    (* -m conntrack --ctstate *)
  r_comment : option string;    (* -m comment --comment *)
  r_extra : string;
  r_target : target             (* -j *)
}.

Record ipset := {
  set_name : string;
  set_family : family;
  set_members : list string
}.

Record kernel := {
  ipsets : list ipset;
  INPUT4 : list rule;
  INPUT6 : list rule
}.

Definition chain (f : family) (k : kernel) : list rule :=
  match f with Inet => INPUT4 k | Inet6 => INPUT6 k end.

Definition set_chain (f : family) (c : list rule) (k : kernel) : kernel :=
  match f with
  | Inet => {| ipsets := ipsets k; INPUT4 := c; INPUT6 := INPUT6 k |}
  | Inet6 => {| ipsets := ipsets k; INPUT4 := INPUT4 k; INPUT6 := c |}
  end.

Definition set_ipsets (s : list ipset) (k : kernel) : kernel :=
  {| ipsets := s; INPUT4 := INPUT4 k; INPUT6 := INPUT6 k |}.

(** The commands the script runs. *)
Inductive cmd :=
| IpsetListNames                                   (* ipset list -n *)
| IpsetListSet (name : string)                     (* ipset list NAME -name *)
| IpsetCreate (name : string) (fam : family) (maxelem : nat)
                                                   (* ipset create ... -exist *)
| IpsetFlush (name : string)                       (* ipset flush NAME *)
| IpsetRestore (adds : list (string * string))     (* ipset restore, add lines *)
| IpsetDestroy (name : string)                     (* ipset destroy NAME *)
| IptList (fam : family)            (* ip[6]tables -L INPUT -n --line-numbers *)
| IptDelete (fam : family) (line_num : string)     (* ip[6]tables -D INPUT N *)
| IptAppend (fam : family) (r : rule).             (* ip[6]tables -A INPUT ... *)

Inductive outcome := Ok | Rejected | Crash.

Inductive head_response :=
| HeadOk (last_modified content_length : option string)
| HeadHTTPError (code : nat)
| HeadFailed.

Inductive download_outcome :=
| Downloaded (f : mmdb_file)
| GunzipFailed (partial : mmdb_file)   (* archive fetched, decompression raised *)
| FetchFailed.

(** What the outside world answers during one run. *)
Record env := {
  now_year : nat;
  now_month : nat;
  maxminddb_installed : bool;
  remote_head : head_response;
  remote_download : download_outcome;
  oracle : nat -> cmd -> outcome       (* by number of earlier actions *)
}.

Inductive event :=
| Exec (c : cmd) (o : outcome)         (* a subprocess and how it ended *)
| HttpHead (url : string)
| HttpDownload (url : string)
| ImportMaxminddb                      (* [import maxminddb] *)
| OpenDatabase.                        (* [maxminddb.open_database] *)

Record world := {
  fs : files;
  kern : kernel;
  ALL_COUNTRIES : list string;
  trace : list event
}.

Definition set_fs (f : files) (w : world) : world :=
  {| fs := f; kern := kern w; ALL_COUNTRIES := ALL_COUNTRIES w; trace := trace w |}.
Definition set_kern (k : kernel) (w : world) : world :=
  {| fs := fs w; kern := k; ALL_COUNTRIES := ALL_COUNTRIES w; trace := trace w |}.
Definition set_ALL_COUNTRIES (l : list string) (w : world) : world :=
  {| fs := fs w; kern := kern w; ALL_COUNTRIES := l; trace := trace w |}.
Definition log_event (e : event) (w : world) : world :=
  {| fs := fs w; kern := kern w; ALL_COUNTRIES := ALL_COUNTRIES w;
     trace := (trace w ++ [e])%list |}.

(** A fresh process on the same host. *)
Definition boot (f : files) (k : kernel) : world :=
  {| fs := f; kern := k; ALL_COUNTRIES := []; trace := [] |}.

(* ================================================================= *)
(** ** The monad: state, exceptions, fuel *)

Inductive exn :=
| OSError
| CalledProcessError
| HTTPError (code : nat)
| URLError
| IndexError.

Inductive res (A : Type) :=
| Ret (a : A)
| Raise (e : exn)
| OutOfFuel.
Arguments Ret {A} a.
Arguments Raise {A} e.
Arguments OutOfFuel {A}.

Definition M (A : Type) : Type := env -> world -> res A * world.

Definition ret {A} (a : A) : M A := fun _ w => (Ret a, w).
Definition raise {A} (x : exn) : M A := fun _ w => (Raise x, w).
Definition out_of_fuel {A} : M A := fun _ w => (OutOfFuel, w).

Definition bind {A B} (m : M A) (k : A -> M B) : M B :=
  fun e w =>
    match m e w with
    | (Ret a, w') => k a e w'
    | (Raise x, w') => (Raise x, w')
    | (OutOfFuel, w') => (OutOfFuel, w')
    end.

Notation "x <- m ;; k" := (bind m (fun x => k))
  (at level 61, m at next level, right associativity).
Notation "m ;;; k" := (bind m (fun _ => k))
  (at level 61, right associativity).

(** [try: m except ...: h]; the handler answers [None] for an exception
    that no [except] clause matches, which is then raised again. *)
Definition try_except {A} (m : M A) (h : exn -> option (M A)) : M A :=
  fun e w =>
    match m e w with
    | (Raise x, w') =>
        match h x with
        | Some k => k e w'
        | None => (Raise x, w')
        end
    | r => r
    end.

(** [except Exception: h] *)
Definition except_Exception {A} (k : M A) (_ : exn) : option (M A) := Some k.

(** [except subprocess.CalledProcessError: h] *)
Definition except_CalledProcessError {A} (k : M A) (x : exn) : option (M A) :=
  match x with CalledProcessError => Some k | _ => None end.

Definition get_fs : M files := fun _ w => (Ret (fs w), w).
Definition put_fs (f : files) : M unit := fun _ w => (Ret tt, set_fs f w).
Definition ask : M env := fun e w => (Ret e, w).
Definition emit (ev : event) : M unit := fun _ w => (Ret tt, log_event ev w).

(** [for x in l: body x] *)
Fixpoint for_each {A} (l : list A) (body : A -> M unit) : M unit :=
  match l with
  | [] => ret tt
  | x :: rest => body x ;;; for_each rest body
  end.

(* ================================================================= *)
(** ** The kernel interface: nominal effect of each command *)

Module Kernel.

Definition has_set (name : string) (k : kernel) : bool :=
  existsb (fun s => set_name s =? name) (ipsets k).

Definition target_text (t : target) : string :=
  match t with
  | ACCEPT => "ACCEPT"
  | DROP => "DROP"
  | LOG _ _ => "LOG"
  end.

Definition opt_text (pre : string) (o : option string) (post : string) : string :=
  match o with
  | Some s => pre ++ s ++ post
  | None => ""
  end.

(** The text of a rule in the numbered listing (after its number). *)
Definition rule_text (r : rule) : string :=
  target_text (r_target r) ++ "  all  --  "
  ++ match r_src r with Some s => s | None => "anywhere" end ++ "  anywhere"
  ++ opt_text " match-set " (r_set r) " src"
  ++ opt_text " ctstate " (r_ctstate r) ""
  ++ r_extra r
  ++ opt_text " /* " (r_comment r) " */"
  ++ match r_target r with
     | LOG p l => " LOG flags 0 level " ++ str l ++ " prefix `" ++ p ++ "'"
     | _ => ""
     end.

Fixpoint numbered (n : nat) (rs : list rule) : list string :=
  match rs with
  | [] => []
  | r :: rest => (str n ++ "    " ++ rule_text r) :: numbered (S n) rest
  end.

(** Lines of [-L INPUT -n --line-numbers]: two header lines, one line per
    rule numbered from 1, and the empty piece after the last newline. *)
Definition list_rules (c : list rule) : list string :=
  (["Chain INPUT (policy ACCEPT)";
    "num  target     prot opt source               destination"]
   ++ numbered 1 c ++ [""])%list.

Fixpoint remove_at {A} (i : nat) (l : list A) : list A :=
  match l, i with
  | [], _ => []
  | _ :: rest, 0 => rest
  | x :: rest, S j => x :: remove_at j rest
  end.

Fixpoint flush_set (name : string) (sets : list ipset) : list ipset :=
  match sets with
  | [] => []
  | s :: rest =>
      if set_name s =? name
      then {| set_name := name; set_family := set_family s; set_members := [] |} :: rest
      else s :: flush_set name rest
  end.

Fixpoint add_member (name ip : string) (sets : list ipset) : list ipset :=
  match sets with
  | [] => []
  | s :: rest =>
      if set_name s =? name
      then {| set_name := name; set_family := set_family s;
              set_members := (set_members s ++ [ip])%list |} :: rest
      else s :: add_member name ip rest
  end.

(** [ipset restore] reads its add lines in order and stops at the first
    one that names a missing set. *)
Fixpoint restore (adds : list (string * string)) (k : kernel) : bool * kernel :=
  match adds with
  | [] => (true, k)
  | (name, ip) :: rest =>
      if has_set name k
      then restore rest (set_ipsets (add_member name ip (ipsets k)) k)
      else (false, k)
  end.

Definition exec (c : cmd) (k : kernel) : bool * list string * kernel :=
  match c with
  | IpsetListNames => (true, (map set_name (ipsets k) ++ [""])%list, k)
  | IpsetListSet name =>
      if has_set name k then (true, [name; ""], k) else (false, [""], k)
  | IpsetCreate name fam _ =>
      if has_set name k then (true, [""], k)
      else (true, [""],
            set_ipsets (ipsets k ++
              [{| set_name := name; set_family := fam; set_members := [] |}])%list k)
  | IpsetFlush name =>
      if has_set name k
      then (true, [""], set_ipsets (flush_set name (ipsets k)) k)
      else (false, [""], k)
  | IpsetRestore adds =>
      let (ok, k') := restore adds k in (ok, [""], k')
  | IpsetDestroy name =>
      if has_set name k
      then (true, [""],
            set_ipsets (filter (fun s => negb (set_name s =? name)) (ipsets k)) k)
      else (false, [""], k)
  | IptList fam => (true, list_rules (chain fam k), k)
  | IptDelete fam line_num =>
      match int_of line_num with
      | Some n =>
          if (1 <=? n)%nat && (n <=? List.length (chain fam k))%nat
          then (true, [""], set_chain fam (remove_at (n - 1) (chain fam k)) k)
          else (false, [""], k)
      | None => (false, [""], k)
      end
  | IptAppend fam r => (true, [""], set_chain fam (chain fam k ++ [r])%list k)
  end.

End Kernel.

(* ================================================================= *)
(** ** subprocess *)

Record CompletedProcess := {
  returncode_ok : bool;          (* [returncode == 0] *)
  stdout : list string           (* [stdout.split("\n")] *)
}.

(** [subprocess.run(c, capture_output=True)] *)
Definition subprocess_run (c : cmd) : M CompletedProcess :=
  fun e w =>
    match oracle e (List.length (trace w)) c with
    | Crash => (Raise OSError, log_event (Exec c Crash) w)
    | Rejected =>
        (Ret {| returncode_ok := false; stdout := [""] |},
         log_event (Exec c Rejected) w)
    | Ok =>
        let '(ok, out, k') := Kernel.exec c (kern w) in
        (Ret {| returncode_ok := ok; stdout := out |},
         log_event (Exec c (if ok then Ok else Rejected)) (set_kern k' w))
    end.

(** [subprocess.run(c, check=True, capture_output=True)], and the
    [Popen]/[communicate] call followed by the test of [returncode]. *)
Definition subprocess_run_check (c : cmd) : M unit :=
  p <- subprocess_run c ;;
  if returncode_ok p then ret tt else raise CalledProcessError.

(* ================================================================= *)
(** ** Change detection and download *)

Definition month_url (year month : nat) : string :=
  "https://download.db-ip.com/free/dbip-country-lite-"
  ++ str year ++ "-" ++ pad2 month ++ ".mmdb.gz".

Definition get_current_month_url : M string :=
  e <- ask ;;
  ret (month_url (now_year e) (now_month e)).

Definition header (o : option string) : string :=
  match o with Some s => s | None => "" end.

(** [urlopen] of a HEAD request; the two headers it reads. *)
Definition urlopen_head (url : string) : M (string * string) :=
  emit (HttpHead url) ;;;
  e <- ask ;;
  match remote_head e with
  | HeadOk lm cl => ret (header lm, header cl)
  | HeadHTTPError code => raise (HTTPError code)
  | HeadFailed => raise URLError
  end.

Definition write_last_check (s : string) : M unit :=
  f <- get_fs ;;
  put_fs {| mmdb := mmdb f; hash_file := hash_file f; last_check_file := Some s |}.

Definition write_hash (s : string) : M unit :=
  f <- get_fs ;;
  put_fs {| mmdb := mmdb f; hash_file := Some s; last_check_file := last_check_file f |}.

Definition write_mmdb (d : mmdb_file) : M unit :=
  f <- get_fs ;;
  put_fs {| mmdb := Some d; hash_file := hash_file f; last_check_file := last_check_file f |}.

Definition unlink_baselines : M unit :=
  f <- get_fs ;;
  put_fs {| mmdb := mmdb f; hash_file := None; last_check_file := None |}.

Definition check_remote_file_changed (url : string) : M bool :=
  try_except
    (h <- urlopen_head url ;;
     let check_info := fst h ++ "|" ++ snd h in
     f <- get_fs ;;
     let unchanged :=
       match last_check_file f with
       | Some saved => strip (read_text saved) =? check_info
       | None => false
       end in
     if unchanged then ret false
     else write_last_check check_info ;;; ret true)
    (fun x =>
       match x with
       | HTTPError code => Some (if (code =? 404)%nat then ret false else raise x)
       | _ => None
       end).

(** The hex digest of the database file; opening a missing file raises. *)
Definition calculate_file_hash : M string :=
  f <- get_fs ;;
  match mmdb f with
  | Some d => ret (sha256 d)
  | None => raise OSError
  end.

Definition check_file_hash_changed : M bool :=
  current_hash <- calculate_file_hash ;;
  f <- get_fs ;;
  let same :=
    match hash_file f with
    | Some saved => strip (read_text saved) =? current_hash
    | None => false
    end in
  if same then ret false
  else write_hash current_hash ;;; ret true.

(** The archive is fetched, then unpacked over the database file, which is
    opened for writing before the first byte is decompressed. *)
Definition download_dbip_database (url : string) : M bool :=
  emit (HttpDownload url) ;;;
  e <- ask ;;
  match remote_download e with
  | Downloaded d => write_mmdb d ;;; ret true
  | GunzipFailed partial => write_mmdb partial ;;; ret false
  | FetchFailed => ret false
  end.

(* ================================================================= *)
(** ** Geo-database reader *)

(** A Python dict from country code to prefixes, in insertion order. *)
Definition CountryRangeMap := list (string * list string).

(** [if code not in d: d[code] = []] then [d[code].append(cidr)] *)
Fixpoint dict_append (d : CountryRangeMap) (code cidr : string) : CountryRangeMap :=
  match d with
  | [] => [(code, [cidr])]
  | (k, v) :: rest =>
      if k =? code then (k, (v ++ [cidr])%list) :: rest
      else (k, v) :: dict_append rest code cidr
  end.

Definition add_record (d : CountryRangeMap) (rec : string * record_data)
  : CountryRangeMap :=
  match snd rec with
  | IsoCode country_code => dict_append d country_code (fst rec)
  | _ => d
  end.

(** [maxminddb.open_database]: raises on a missing or unreadable file. *)
Definition open_database : M (list (string * record_data)) :=
  emit OpenDatabase ;;;
  f <- get_fs ;;
  match mmdb f with
  | Some {| networks := Some recs |} => ret recs
  | _ => raise OSError
  end.

Definition parse_mmdb_to_country_ipranges : M CountryRangeMap :=
  emit ImportMaxminddb ;;;
  e <- ask ;;
  if negb (maxminddb_installed e) then ret []          (* ImportError *)
  else
    try_except
      (recs <- open_database ;;
       ret (fold_left add_record recs []))
      (except_Exception (ret [])).

(* ================================================================= *)
(** ** Cleanup of the previous generation *)

(** The [for line in ...] scan of one listing: delete the rule of the first
    line that contains [tag] and starts with a number. *)
Fixpoint scan_and_delete (fam : family) (tag : string) (lines : list string)
  : M bool :=
  match lines with
  | [] => ret false
  | line :: rest =>
      if contains tag line then
        match split_first line with
        | None => raise IndexError
        | Some line_num =>
            if isdigit line_num
            then subprocess_run (IptDelete fam line_num) ;;; ret true
            else scan_and_delete fam tag rest
        end
      else scan_and_delete fam tag rest
  end.

(** [while True:] list, delete one tagged rule, list again; every turn of
    the loop takes one unit of fuel. *)
Fixpoint delete_tagged (fuel : nat) (fam : family) (tag : string) : M unit :=
  match fuel with
  | 0 => out_of_fuel
  | S fuel' =>
      result <- subprocess_run (IptList fam) ;;
      found <- scan_and_delete fam tag (stdout result) ;;
      if found then delete_tagged fuel' fam tag else ret tt
  end.

Definition is_geoip_set (s : string) : bool :=
  startswith "country-" s || startswith "geoip-" s.

Definition cleanup_existing_ipsets (fuel : nat) : M bool :=
  try_except
    (for_each [Inet; Inet6] (fun iptables_cmd =>
       delete_tagged fuel iptables_cmd "geoip-firewall-drop" ;;;
       delete_tagged fuel iptables_cmd "geoip-firewall") ;;;
     result <- subprocess_run IpsetListNames ;;
     let geoip_sets := filter is_geoip_set (stdout result) in
     for_each geoip_sets (fun set_name =>
       subprocess_run (IpsetDestroy set_name) ;;; ret tt))
    (except_Exception (ret tt)) ;;;
  ret true.

(* ================================================================= *)
(** ** Address-set manager *)

Definition has_colon (ip_range : string) : bool := contains ":" ip_range.

Definition set_name_v4 (country_code : string) : string :=
  "country-" ++ country_code.
Definition set_name_v6 (country_code : string) : string :=
  "country-" ++ country_code ++ "-v6".

(** [int(len(ranges) * 1.1)]: the truncated binary64 product, which is
    [11 * len / 10] for every length below 2^49.  It is only the capacity
    hint of the create command. *)
Definition max_size (ranges : list string) : nat :=
  (List.length ranges * 11) / 10.

(** create, flush and bulk-load one set (the source writes this block once
    for each family). *)
Definition populate (name : string) (fam : family) (ranges : list string)
  : M unit :=
  subprocess_run_check (IpsetCreate name fam (max_size ranges)) ;;;
  subprocess_run_check (IpsetFlush name) ;;;
  subprocess_run_check (IpsetRestore (map (fun ip => (name, ip)) ranges)).

Definition when_nonempty {A} (l : list A) (m : M unit) : M unit :=
  match l with [] => ret tt | _ => m end.

Definition apply_country (country_code : string) (ip_ranges : list string)
  : M bool :=
  let ipv6_ranges := filter has_colon ip_ranges in
  let ipv4_ranges := filter (fun ip => negb (has_colon ip)) ip_ranges in
  try_except
    (when_nonempty ipv4_ranges
       (populate (set_name_v4 country_code) Inet ipv4_ranges) ;;;
     when_nonempty ipv6_ranges
       (populate (set_name_v6 country_code) Inet6 ipv6_ranges) ;;;
     ret true)
    (except_CalledProcessError (ret false)).

(** The loop over [country_ip_ranges.items()], left at the first failure. *)
Fixpoint apply_countries (items : CountryRangeMap) : M bool :=
  match items with
  | [] => ret true
  | (country_code, ip_ranges) :: rest =>
      ok <- apply_country country_code ip_ranges ;;
      if ok then apply_countries rest else ret false
  end.

Definition apply_native_ipset (country_ip_ranges : CountryRangeMap) : M bool :=
  (fun _ w => (Ret tt, set_ALL_COUNTRIES (map fst country_ip_ranges) w)) ;;;
  apply_countries country_ip_ranges.

(* ================================================================= *)
(** ** Rule chain builder *)

Module Rules.

Definition mk (iface src set ctstate : option string) (comment : string)
  (t : target) : rule :=
  {| r_iface := iface; r_src := src; r_set := set; r_ctstate := ctstate;
     r_comment := Some comment; r_extra := ""; r_target := t |}.

Definition stateful : rule :=
  mk None None None (Some "ESTABLISHED,RELATED") "geoip-firewall-stateful" ACCEPT.
Definition localhost : rule :=
  mk (Some "lo") None None None "geoip-firewall-localhost" ACCEPT.
Definition private (network : string) : rule :=
  mk None (Some network) None None "geoip-firewall-private" ACCEPT.
Definition accept_log (country set : string) : rule :=
  mk None None (Some set) (Some "NEW") "geoip-firewall-log"
     (LOG ("GEOIP-ACCEPT-" ++ country ++ ": ") 6).
Definition accept (set : string) : rule :=
  mk None None (Some set) None "geoip-firewall" ACCEPT.
Definition drop_log (country set : string) : rule :=
  mk None None (Some set) (Some "NEW") "geoip-firewall-log"
     (LOG ("GEOIP-DROP-" ++ country ++ ": ") 6).
Definition drop (set : string) : rule :=
  mk None None (Some set) None "geoip-firewall-drop" DROP.
Definition default_log : rule :=
  mk None None None (Some "NEW") "geoip-firewall-log" (LOG "GEOIP-DROP-UNKNOWN: " 6).
Definition default_drop : rule :=
  mk None None None None "geoip-firewall-drop" DROP.

End Rules.

(** [ip[6]tables -A INPUT ...] with [check=True] *)
Definition append_rule (fam : family) (r : rule) : M unit :=
  subprocess_run_check (IptAppend fam r).

(** [try: m; except CalledProcessError: return False]; [true] means the
    function goes on. *)
Definition guarded (m : M unit) : M bool :=
  try_except (m ;;; ret true) (except_CalledProcessError (ret false)).

(** Sequencing of two stretches of a function whose first may have
    returned [False]. *)
Definition and_then (a b : M bool) : M bool :=
  ok <- a ;; if ok then b else ret false.

Notation "a >>? b" := (and_then a b) (at level 62, right associativity).

(** [subprocess.run(["ipset", "list", name, "-name"]).returncode == 0] *)
Definition ipset_exists (name : string) : M bool :=
  p <- subprocess_run (IpsetListSet name) ;;
  ret (returncode_ok p).

(** The body of the loop over the allowed countries (inside its [try]). *)
Definition allow_country (country : string) : M unit :=
  ipv4_exists <- ipset_exists (set_name_v4 country) ;;
  (if ipv4_exists then
     append_rule Inet (Rules.accept_log country (set_name_v4 country)) ;;;
     append_rule Inet (Rules.accept (set_name_v4 country))
   else ret tt) ;;;
  ipv6_exists <- ipset_exists (set_name_v6 country) ;;
  (if ipv6_exists then
     append_rule Inet6 (Rules.accept_log country (set_name_v6 country)) ;;;
     append_rule Inet6 (Rules.accept (set_name_v6 country))
   else ret tt).

(** The body of the loop over the blocked countries. *)
Definition block_country (country : string) : M unit :=
  ipv4_exists <- ipset_exists (set_name_v4 country) ;;
  (if ipv4_exists then
     append_rule Inet (Rules.drop_log country (set_name_v4 country)) ;;;
     append_rule Inet (Rules.drop (set_name_v4 country))
   else ret tt) ;;;
  ipv6_exists <- ipset_exists (set_name_v6 country) ;;
  (if ipv6_exists then
     append_rule Inet6 (Rules.drop_log country (set_name_v6 country)) ;;;
     append_rule Inet6 (Rules.drop (set_name_v6 country))
   else ret tt).

(** A loop whose body is one guarded block that returns [False] on failure. *)
Fixpoint for_each_guarded (l : list string) (body : string -> M unit) : M bool :=
  match l with
  | [] => ret true
  | x :: rest => guarded (body x) >>? for_each_guarded rest body
  end.

Definition setup_firewall_rules (allowed_countries : list string) : M bool :=
  guarded (append_rule Inet Rules.stateful ;;;
           append_rule Inet6 Rules.stateful) >>?
  guarded (append_rule Inet Rules.localhost ;;;
           append_rule Inet6 Rules.localhost) >>?
  guarded (for_each CONFIG.PRIVATE_NETWORKS_V4
             (fun network => append_rule Inet (Rules.private network)) ;;;
           for_each CONFIG.PRIVATE_NETWORKS_V6
             (fun network => append_rule Inet6 (Rules.private network))) >>?
  (fun e w =>
     let blocked_countries :=
       filter (fun c => negb (mem c allowed_countries)) (ALL_COUNTRIES w) in
     (for_each_guarded allowed_countries allow_country >>?
      for_each_guarded blocked_countries block_country >>?
      guarded (append_rule Inet Rules.default_log ;;;
               append_rule Inet Rules.default_drop ;;;
               append_rule Inet6 Rules.default_log ;;;
               append_rule Inet6 Rules.default_drop)) e w).

(* ================================================================= *)
(** ** Synchronization orchestrator *)

(** Lines 906-929 of [smart_update]: the stretch every branch that does not
    return early falls through to. *)
Definition smart_update_rebuild (fuel : nat) : M bool :=
  country_ip_ranges <- parse_mmdb_to_country_ipranges ;;
  match country_ip_ranges with
  | [] => ret false
  | _ =>
      cleanup_existing_ipsets fuel ;;;
      ok <- apply_native_ipset country_ip_ranges ;;
      if negb ok then ret false
      else
        ok <- setup_firewall_rules CONFIG.ALLOWED_COUNTRIES ;;
        if negb ok then ret false else ret true
  end.

Definition count_country_sets (lines : list string) : nat :=
  List.length (filter (startswith "country-") lines).

Definition exists_file {A} (o : option A) : bool :=
  match o with Some _ => true | None => false end.

(** Lines 852-904 of [smart_update]: the four-way branch on what the run
    finds.  [Some b] is [return b]; [None] falls through to line 906. *)
Definition smart_update_acquire : M (option bool) :=
  url <- get_current_month_url ;;
  f <- get_fs ;;
  let mmdb_exists := exists_file (mmdb f) in
  ipset_count <-
    try_except
      (result <- subprocess_run IpsetListNames ;;
       ret (count_country_sets (stdout result)))
      (except_Exception (ret 0)) ;;
  if (ipset_count =? 0)%nat then
    if mmdb_exists then
      (if negb (exists_file (hash_file f))
       then check_file_hash_changed ;;; ret tt
       else ret tt) ;;;
      ret None
    else
      unlink_baselines ;;;
      ok <- download_dbip_database url ;;
      if negb ok then ret (Some false) else ret None
  else if mmdb_exists then
    changed <- check_remote_file_changed url ;;
    if negb changed then ret (Some true)
    else
      ok <- download_dbip_database url ;;
      if negb ok then ret (Some false)
      else
        changed <- check_file_hash_changed ;;
        if negb changed then ret (Some true) else ret None
  else
    ok <- download_dbip_database url ;;
    if negb ok then ret (Some false) else ret None.

Definition smart_update (fuel : nat) : M bool :=
  returned <- smart_update_acquire ;;
  match returned with
  | Some b => ret b
  | None => smart_update_rebuild fuel
  end.

(** The exit status of [main]; [None] while the run has not ended. *)
Definition main (fuel : nat) (e : env) (w : world) : option nat * world :=
  match smart_update fuel e w with
  | (Ret true, w') => (Some 0, w')
  | (Ret false, w') => (Some 1, w')
  | (Raise _, w') => (Some 1, w')
  | (OutOfFuel, w') => (None, w')
  end.

(* ================================================================= *)
(** * Specification vocabulary *)

(** Classes of events. *)
Definition is_mutation (ev : event) : Prop :=
  match ev with
  | Exec (IpsetCreate _ _ _) _ | Exec (IpsetFlush _) _ | Exec (IpsetRestore _) _
  | Exec (IpsetDestroy _) _ | Exec (IptDelete _ _) _ | Exec (IptAppend _ _) _ => True
  | _ => False
  end.

Definition is_network (ev : event) : Prop :=
  match ev with
  | HttpHead _ | HttpDownload _ => True
  | _ => False
  end.

Definition is_set_step (ev : event) : Prop :=
  match ev with
  | Exec (IpsetCreate _ _ _) _ | Exec (IpsetFlush _) _ | Exec (IpsetRestore _) _ => True
  | _ => False
  end.

Definition is_setup_event (ev : event) : Prop :=
  match ev with
  | Exec (IptAppend _ _) _ | Exec (IpsetListSet _) _ => True
  | _ => False
  end.

Definition is_cleanup_event (ev : event) : Prop :=
  match ev with
  | Exec (IptList _) _ | Exec (IptDelete _ _) _
  | Exec IpsetListNames _ | Exec (IpsetDestroy _) _ => True
  | _ => False
  end.

Definition is_query (ev : event) : Prop :=
  match ev with
  | Exec IpsetListNames _ | Exec (IpsetListSet _) _ | Exec (IptList _) _ => True
  | _ => False
  end.

Definition is_append (ev : event) : Prop :=
  match ev with
  | Exec (IptAppend _ _) _ => True
  | _ => False
  end.

Definition anything {A} (_ _ : A) : Prop := True.

Definition is_parse_event (ev : event) : Prop :=
  match ev with
  | ImportMaxminddb | OpenDatabase => True
  | _ => False
  end.

Definition is_rebuild_event (ev : event) : Prop :=
  is_parse_event ev \/ is_cleanup_event ev \/ is_set_step ev \/ is_setup_event ev.

Definition same_chains (k k' : kernel) : Prop :=
  INPUT4 k' = INPUT4 k /\ INPUT6 k' = INPUT6 k.

Definition same_sets (k k' : kernel) : Prop := ipsets k' = ipsets k.

(** [within P F K w w']: from [w] to [w'] the files changed by [F], the
    kernel by [K], and the trace grew by events of class [P]. *)
Definition within (P : event -> Prop) (F : files -> files -> Prop)
  (K : kernel -> kernel -> Prop) (w w' : world) : Prop :=
  F (fs w) (fs w') /\ K (kern w) (kern w') /\
  exists t, trace w' = (trace w ++ t)%list /\ Forall P t.

(** Every run of [m], in every environment, stays within [P], [F], [K]. *)
Definition footprint (P : event -> Prop) (F : files -> files -> Prop)
  (K : kernel -> kernel -> Prop) {A} (m : M A) : Prop :=
  forall e w, within P F K w (snd (m e w)).

(* ================================================================= *)
(** ** The observed state of the host *)

(** Some address set of this system is resident. *)
Definition has_country_set (k : kernel) : Prop :=
  exists s, In s (ipsets k) /\ startswith "country-" (set_name s) = true.

(** The metadata check has nothing new to report: the HEAD response carries
    the persisted record, or the month's file is not published (404). *)
Definition remote_unchanged (e : env) (f : files) : Prop :=
  match remote_head e with
  | HeadOk lm cl =>
      exists saved, last_check_file f = Some saved /\
                    strip (read_text saved) = header lm ++ "|" ++ header cl
  | HeadHTTPError code => code = 404
  | HeadFailed => False
  end.

Definition url_of (e : env) : string := month_url (now_year e) (now_month e).


(** How one run may change the two baseline files: each is left as it was,
    removed (only where no database file was found), or holds what its
    check wrote. *)
Definition baseline_change (e : env) (f f' : files) : Prop :=
  (last_check_file f' = last_check_file f \/
   (mmdb f = None /\ last_check_file f' = None) \/
   (exists lm cl, remote_head e = HeadOk lm cl /\
      last_check_file f' = Some (header lm ++ "|" ++ header cl))) /\
  (hash_file f' = hash_file f \/
   (mmdb f = None /\ hash_file f' = None) \/
   (exists d, mmdb f' = Some d /\ hash_file f' = Some (sha256 d))).

(* ================================================================= *)
(** * Scenarios *)

Module Scenario.

Definition db_march : mmdb_file :=
  {| sha256 := "5d41402abc4b2a76b9719d911017c592ae3f6c1b5e0a4f2d8c7b6a5948372615";
     networks := Some [("1.0.0.0/24", IsoCode "KR");
                       ("2001:db8::/32", IsoCode "KR");
                       ("8.8.8.0/24", IsoCode "US");
                       ("9.9.9.0/24", NoCountry)] |}.

Definition db_april : mmdb_file :=
  {| sha256 := "7c211433f02071597741e6ff5a8ea34789abbf43c1d2e3f4a5b6c7d8e9f00112";
     networks := Some [("1.0.0.0/24", IsoCode "KR");
                       ("8.8.4.0/24", IsoCode "US")] |}.

Definition corrupt_db : mmdb_file :=
  {| sha256 := "0000000000000000000000000000000000000000000000000000000000000000";
     networks := None |}.

Definition no_files : files :=
  {| mmdb := None; hash_file := None; last_check_file := None |}.

Definition march_files : files :=
  {| mmdb := Some db_march;
     hash_file := Some (sha256 db_march);
     last_check_file := Some "Sun, 01 Mar 2026 03:00:00 GMT|4100200" |}.

Definition empty_kernel : kernel :=
  {| ipsets := []; INPUT4 := []; INPUT6 := [] |}.

(** A host after an earlier synchronization of [db_march]. *)
Definition march_kernel : kernel :=
  {| ipsets :=
       [{| set_name := "country-KR"; set_family := Inet;
           set_members := ["1.0.0.0/24"] |};
        {| set_name := "country-KR-v6"; set_family := Inet6;
           set_members := ["2001:db8::/32"] |};
        {| set_name := "country-US"; set_family := Inet;
           set_members := ["8.8.8.0/24"] |}];
     INPUT4 :=
       ([Rules.stateful; Rules.localhost]
        ++ map Rules.private CONFIG.PRIVATE_NETWORKS_V4
        ++ [Rules.accept_log "KR" "country-KR"; Rules.accept "country-KR";
            Rules.drop_log "US" "country-US"; Rules.drop "country-US";
            Rules.default_log; Rules.default_drop])%list;
     INPUT6 :=
       ([Rules.stateful; Rules.localhost]
        ++ map Rules.private CONFIG.PRIVATE_NETWORKS_V6
        ++ [Rules.accept_log "KR" "country-KR-v6"; Rules.accept "country-KR-v6";
            Rules.default_log; Rules.default_drop])%list |}.

Definition all_ok (_ : nat) (_ : cmd) : outcome := Ok.

Definition march_head : head_response :=
  HeadOk (Some "Sun, 01 Mar 2026 03:00:00 GMT") (Some "4100200").

Definition april_head : head_response :=
  HeadOk (Some "Wed, 01 Apr 2026 03:00:00 GMT") (Some "4100317").

Definition world_of (year month : nat) (h : head_response)
  (d : download_outcome) (o : nat -> cmd -> outcome) : env :=
  {| now_year := year; now_month := month; maxminddb_installed := true;
     remote_head := h; remote_download := d; oracle := o |}.

(** March: the remote file is the one already synchronized. *)
Definition quiet_march : env :=
  world_of 2026 3 march_head (Downloaded db_march) all_ok.

(** April: a new file is announced but the transfer fails. *)
Definition april_fetch_fails : env :=
  world_of 2026 4 april_head FetchFailed all_ok.

(** April: a new file is announced and retrieved. *)
Definition april_update : env :=
  world_of 2026 4 april_head (Downloaded db_april) all_ok.

End Scenario.

(** Events of lines 852-904 of [smart_update]. *)
Definition is_acquire_event (ev : event) : Prop :=
  match ev with
  | Exec IpsetListNames _ | HttpHead _ | HttpDownload _ => True
  | _ => False
  end.

(** The reader cannot produce a map: the parsing dependency is missing, or
    the database file is missing or not a readable database. *)
Definition database_unreadable (e : env) (f : files) : Prop :=
  maxminddb_installed e = false \/
  mmdb f = None \/
  exists d, mmdb f = Some d /\ networks d = None.

(** The commands [apply_native_ipset] issues for a map when none of them
    fails, in order. *)
Definition set_commands (name : string) (fam : family) (ranges : list string)
  : list cmd :=
  [IpsetCreate name fam (max_size ranges);
   IpsetFlush name;
   IpsetRestore (map (fun ip => (name, ip)) ranges)].

Definition country_commands (item : string * list string) : list cmd :=
  let (country_code, ip_ranges) := item in
  (match filter (fun ip => negb (has_colon ip)) ip_ranges with
   | [] => []
   | v4 => set_commands (set_name_v4 country_code) Inet v4
   end ++
   match filter has_colon ip_ranges with
   | [] => []
   | v6 => set_commands (set_name_v6 country_code) Inet6 v6
   end)%list.

Definition ipset_commands (m : CountryRangeMap) : list cmd :=
  flat_map country_commands m.

Definition ok_events (cmds : list cmd) : list event :=
  map (fun c => Exec c Ok) cmds.

(** [stopped_at cmds o t]: [t] is the trace of running [cmds] in order up to
    the first one that did not succeed, which ended with [o]. *)
Definition stopped_at (cmds : list cmd) (o : outcome) (t : list event) : Prop :=
  exists pre c post,
    cmds = (pre ++ c :: post)%list /\ t = (ok_events pre ++ [Exec c o])%list.

(** The trace of a block of commands run with [check=True]. *)
Definition checked_run {A} (cmds : list cmd) (r : res A) (t : list event) : Prop :=
  match r with
  | Ret _ => t = ok_events cmds
  | Raise CalledProcessError => stopped_at cmds Rejected t
  | Raise OSError => stopped_at cmds Crash t
  | _ => False
  end.

(** The same once [CalledProcessError] has been turned into [return False]. *)
Definition reported_run (cmds : list cmd) (r : res bool) (t : list event) : Prop :=
  match r with
  | Ret true => t = ok_events cmds
  | Ret false => stopped_at cmds Rejected t
  | Raise OSError => stopped_at cmds Crash t
  | _ => False
  end.

Definition event_ok (ev : event) : Prop :=
  match ev with
  | Exec _ Ok => True
  | Exec _ _ => False
  | _ => True
  end.


(** [runs_checked m cmds]: whatever the environment, [m] issues the commands
    [cmds] in order and stops at the first that fails. *)
Definition runs_checked {A} (m : M A) (cmds : list cmd) : Prop :=
  forall e w, exists t,
    trace (snd (m e w)) = (trace w ++ t)%list /\ checked_run cmds (fst (m e w)) t.

Definition runs_reported (m : M bool) (cmds : list cmd) : Prop :=
  forall e w, exists t,
    trace (snd (m e w)) = (trace w ++ t)%list /\ reported_run cmds (fst (m e w)) t.

Module Stuck.

(** A host on which every rule deletion is refused while listing works. *)
Definition delete_refused (_ : nat) (c : cmd) : outcome :=
  match c with
  | IptDelete _ _ => Rejected
  | _ => Ok
  end.

Definition april_delete_refused : env :=
  Scenario.world_of 2026 4 Scenario.april_head
    (Downloaded Scenario.db_april) delete_refused.

End Stuck.

(** Every command succeeds at the interface. *)
Definition all_commands_ok (e : env) : Prop := forall n c, oracle e n c = Ok.

(** Rules were removed, nothing else changed. *)
Definition shrinks (w w' : world) : Prop :=
  fs w' = fs w /\ ALL_COUNTRIES w' = ALL_COUNTRIES w /\
  ipsets (kern w') = ipsets (kern w) /\
  List.length (INPUT4 (kern w')) <= List.length (INPUT4 (kern w)) /\
  List.length (INPUT6 (kern w')) <= List.length (INPUT6 (kern w)).

Module Faults.

(** The parsing dependency is not installed. *)
Definition no_maxminddb : env :=
  {| now_year := 2026; now_month := 3; maxminddb_installed := false;
     remote_head := Scenario.march_head;
     remote_download := Downloaded Scenario.db_march;
     oracle := Scenario.all_ok |}.

(** The kernel rejects every flush of an address set. *)
Definition flush_rejected (_ : nat) (c : cmd) : outcome :=
  match c with
  | IpsetFlush _ => Rejected
  | _ => Ok
  end.

Definition april_flush_rejected : env :=
  Scenario.world_of 2026 4 Scenario.april_head
    (Downloaded Scenario.db_april) flush_rejected.

(** The listing of a chain exits with an error (the xtables lock is held,
    say); every other command succeeds. *)
Definition listing_refused (_ : nat) (c : cmd) : outcome :=
  match c with
  | IptList _ => Rejected
  | _ => Ok
  end.

Definition april_listing_refused : env :=
  Scenario.world_of 2026 4 Scenario.april_head
    (Downloaded Scenario.db_april) listing_refused.

(** The server folds its [Last-Modified] header over two lines; the value
    the script reads keeps the CR LF of the fold. *)
Definition folded_head : head_response :=
  HeadOk (Some ("Sun, 01 Mar 2026"
                ++ String (ascii_of_nat 13)
                     (String (ascii_of_nat 10) " 03:00:00 GMT")))
         (Some "4100200").

Definition march_folded : env :=
  Scenario.world_of 2026 3 folded_head (Downloaded Scenario.db_march)
    Scenario.all_ok.

(** The hash file holds the digest after a no-break space and before a
    line end. *)
Definition padded_hash_files : files :=
  {| mmdb := Some Scenario.db_march;
     hash_file := Some (String (ascii_of_nat 160)
                          (sha256 Scenario.db_march
                           ++ String (ascii_of_nat 10) ""));
     last_check_file := last_check_file Scenario.march_files |}.


End Faults.

(* ================================================================= *)
(** * The rule chain as a list *)

Module Chain.

(** [subseq a l]: [a] is [l] with some elements left out, order kept. *)
Inductive subseq {A : Type} : list A -> list A -> Prop :=
| subseq_nil : subseq [] []
| subseq_skip (x : A) (a l : list A) : subseq a l -> subseq a (x :: l)
| subseq_take (x : A) (a l : list A) : subseq a l -> subseq (x :: a) (x :: l).

Definition prefix_of {A : Type} (a f : list A) : Prop :=
  exists rest, f = (a ++ rest)%list.

Definition allow4 (c : string) : list rule :=
  [Rules.accept_log c (set_name_v4 c); Rules.accept (set_name_v4 c)].
Definition allow6 (c : string) : list rule :=
  [Rules.accept_log c (set_name_v6 c); Rules.accept (set_name_v6 c)].
Definition block4 (c : string) : list rule :=
  [Rules.drop_log c (set_name_v4 c); Rules.drop (set_name_v4 c)].
Definition block6 (c : string) : list rule :=
  [Rules.drop_log c (set_name_v6 c); Rules.drop (set_name_v6 c)].

(** The six stretches of a complete chain, in order, for the allowed and
    blocked countries whose set was found. *)
Definition ipv4 (allowed blocked : list string) : list rule :=
  ([Rules.stateful] ++ [Rules.localhost]
   ++ map Rules.private CONFIG.PRIVATE_NETWORKS_V4
   ++ flat_map allow4 allowed
   ++ flat_map block4 blocked
   ++ [Rules.default_log; Rules.default_drop])%list.

Definition ipv6 (allowed blocked : list string) : list rule :=
  ([Rules.stateful] ++ [Rules.localhost]
   ++ map Rules.private CONFIG.PRIVATE_NETWORKS_V6
   ++ flat_map allow6 allowed
   ++ flat_map block6 blocked
   ++ [Rules.default_log; Rules.default_drop])%list.

(** [blocked_countries] of [setup_firewall_rules]. *)
Definition blocked (allowed all : list string) : list string :=
  filter (fun c => negb (mem c allowed)) all.

(** The rules [a4], [a6] were appended to the two chains and nothing else
    of the kernel or of [ALL_COUNTRIES] changed. *)
Definition appended (w w' : world) (a4 a6 : list rule) : Prop :=
  INPUT4 (kern w') = (INPUT4 (kern w) ++ a4)%list /\
  INPUT6 (kern w') = (INPUT6 (kern w) ++ a6)%list /\
  ipsets (kern w') = ipsets (kern w) /\
  ALL_COUNTRIES w' = ALL_COUNTRIES w.

Definition completed {A : Type} (good : A -> bool) (r : res A) : Prop :=
  match r with
  | Ret a => good a = true
  | _ => False
  end.

(** A set of complete outcomes, given the value of [ALL_COUNTRIES]. *)
Definition outcomes := list string -> list rule -> list rule -> Prop.

(** [builds good m S]: every run of [m] appends, to each chain, a prefix of
    one complete outcome of [S], and all of it when [m] completes. *)
Definition builds {A : Type} (good : A -> bool) (m : M A) (S : outcomes) : Prop :=
  forall e w, exists a4 a6 f4 f6,
    appended w (snd (m e w)) a4 a6 /\
    S (ALL_COUNTRIES w) f4 f6 /\
    prefix_of a4 f4 /\ prefix_of a6 f6 /\
    (completed good (fst (m e w)) -> a4 = f4 /\ a6 = f6).

Definition nothing : outcomes := fun _ f4 f6 => f4 = [] /\ f6 = [].

Definition exactly (r4 r6 : list rule) : outcomes :=
  fun _ f4 f6 => f4 = r4 /\ f6 = r6.

Definition one (fam : family) (r : rule) : outcomes :=
  match fam with
  | Inet => exactly [r] []
  | Inet6 => exactly [] [r]
  end.

Definition seq (S1 S2 : outcomes) : outcomes :=
  fun ac f4 f6 =>
    exists x4 x6 y4 y6,
      S1 ac x4 x6 /\ S2 ac y4 y6 /\
      f4 = (x4 ++ y4)%list /\ f6 = (x6 ++ y6)%list.

Definition optional (r4 r6 : list rule) : outcomes :=
  fun _ f4 f6 => (f4 = [] \/ f4 = r4) /\ (f6 = [] \/ f6 = r6).

Definition some_of (g4 g6 : string -> list rule) (l : list string) : outcomes :=
  fun _ f4 f6 =>
    exists A4 A6, subseq A4 l /\ subseq A6 l /\
                  f4 = flat_map g4 A4 /\ f6 = flat_map g6 A6.

Definition inhabited (S : outcomes) : Prop :=
  forall ac, exists f4 f6, S ac f4 f6.

(** The complete outcomes of [setup_firewall_rules]. *)
Definition complete (allowed : list string) : outcomes :=
  fun all f4 f6 =>
    exists A4 A6 B4 B6,
      subseq A4 allowed /\ subseq A6 allowed /\
      subseq B4 (blocked allowed all) /\ subseq B6 (blocked allowed all) /\
      f4 = ipv4 A4 B4 /\ f6 = ipv6 A6 B6.

End Chain.

(** The map the reader returns for the files it finds. *)
Definition parsed (e : env) (f : files) : CountryRangeMap :=
  if maxminddb_installed e then
    match mmdb f with
    | Some {| networks := Some recs |} => fold_left add_record recs []
    | _ => []
    end
  else [].

(** Sets are created, emptied and filled, never removed; the chains stay. *)
Definition sets_grow (k k' : kernel) : Prop :=
  (forall name, Kernel.has_set name k = true -> Kernel.has_set name k' = true) /\
  INPUT4 k' = INPUT4 k /\ INPUT6 k' = INPUT6 k.

Definition keeps_ALL_COUNTRIES {A} (m : M A) : Prop :=
  forall e w, ALL_COUNTRIES (snd (m e w)) = ALL_COUNTRIES w.

(** In environment [e], [m] returns from every world, with a value in [P]. *)
Definition returns {A} (e : env) (m : M A) (P : A -> Prop) : Prop :=
  forall w, exists a w', m e w = (Ret a, w') /\ P a.

Module Reboot.

(** After a reboot: the database file survives, the sets and rules are
    gone; here no hash was ever recorded. *)
Definition files_without_hash : files :=
  {| mmdb := Some Scenario.db_march; hash_file := None;
     last_check_file := None |}.

End Reboot.

(** The metadata string of the HEAD response is one that the next run
    reads back as written: [f.read().strip()] of a file holding it gives
    it again (it has no white space at either end and no carriage
    return). *)
Definition metadata_clean (e : env) : Prop :=
  match remote_head e with
  | HeadOk lm cl =>
      strip (read_text (header lm ++ "|" ++ header cl))
      = header lm ++ "|" ++ header cl
  | _ => True
  end.

(* ================================================================= *)
(** * Vocabulary of the further properties *)

(** ** The reader's map *)

(** [d.get(code)] *)
Fixpoint dict_get (d : CountryRangeMap) (code : string) : option (list string) :=
  match d with
  | [] => None
  | (k, v) :: rest => if k =? code then Some v else dict_get rest code
  end.

(** The record attributes its network to [code]. *)
Definition names_country (code : string) (rec : string * record_data) : bool :=
  match snd rec with
  | IsoCode c => c =? code
  | _ => false
  end.

(** The networks the database attributes to [code], in the order of its
    records. *)
Definition ranges_of (code : string) (recs : list (string * record_data))
  : list string :=
  map fst (filter (names_country code) recs).

(** No record of the database carries a country code. *)
Definition countryless (recs : list (string * record_data)) : Prop :=
  forall rec code, In rec recs -> snd rec <> IsoCode code.

(** ** Outages *)

(** The HEAD request fails: no response, or an HTTP error other than 404. *)
Definition head_fails (e : env) : Prop :=
  match remote_head e with
  | HeadOk _ _ => False
  | HeadHTTPError code => code <> 404
  | HeadFailed => True
  end.

(** The download does not produce a database file. *)
Definition download_fails (e : env) : Prop :=
  match remote_download e with
  | Downloaded _ => False
  | _ => True
  end.

(** An exception that leaves [m] in environment [e] is one of [E], unless
    some command could not be started. *)
Definition raises_within (E : exn -> Prop) (e : env) {A} (m : M A) : Prop :=
  forall w x, fst (m e w) = Raise x ->
              E x \/ exists n c, oracle e n c = Crash.

Definition no_exception (_ : exn) : Prop := False.

(** ** What cleanup removes *)

(** The line of [r] in a numbered listing contains [tag]. *)
Definition tagged (tag : string) (r : rule) : bool :=
  contains tag (Kernel.rule_text r).

(** [l] without the first element that satisfies [p]. *)
Fixpoint remove_first {A} (p : A -> bool) (l : list A) : list A :=
  match l with
  | [] => []
  | x :: rest => if p x then rest else x :: remove_first p rest
  end.

(** The rules cleanup leaves in a chain. *)
Definition foreign_rules (c : list rule) : list rule :=
  filter (fun r => negb (tagged "geoip-firewall" r)) c.

(** The commands of cleanup (listings, rule deletions, set destructions)
    succeed; other commands may fail. *)
Definition cleanup_commands_ok (e : env) : Prop :=
  forall n c, is_cleanup_event (Exec c Ok) -> oracle e n c = Ok.

(** No rule deletion is refused (a deletion may still fail to start). *)
Definition deletions_honoured (e : env) : Prop :=
  forall n fam line_num, oracle e n (IptDelete fam line_num) <> Rejected.

(** Neither chain has grown. *)
Definition chains_shrink (k k' : kernel) : Prop :=
  List.length (INPUT4 k') <= List.length (INPUT4 k) /\
  List.length (INPUT6 k') <= List.length (INPUT6 k).

(** From [k] to [k'] rules and sets were only removed, and none that is
    foreign to this system: the rules without the tag and the sets without
    the name prefixes are the same, in the same order. *)
Definition foreign_kept (k k' : kernel) : Prop :=
  Chain.subseq (INPUT4 k') (INPUT4 k) /\
  Chain.subseq (INPUT6 k') (INPUT6 k) /\
  foreign_rules (INPUT4 k') = foreign_rules (INPUT4 k) /\
  foreign_rules (INPUT6 k') = foreign_rules (INPUT6 k) /\
  filter (fun s => negb (is_geoip_set (set_name s))) (ipsets k')
  = filter (fun s => negb (is_geoip_set (set_name s))) (ipsets k).

(** ** What the rebuild installs *)

(** The address sets of one country: its IPv4 prefixes, then its IPv6
    prefixes, each set only if it has a member. *)
Definition country_sets (item : string * list string) : list ipset :=
  let (country_code, ip_ranges) := item in
  (match filter (fun ip => negb (has_colon ip)) ip_ranges with
   | [] => []
   | v4 => [{| set_name := set_name_v4 country_code; set_family := Inet;
               set_members := v4 |}]
   end ++
   match filter has_colon ip_ranges with
   | [] => []
   | v6 => [{| set_name := set_name_v6 country_code; set_family := Inet6;
               set_members := v6 |}]
   end)%list.

(** The address sets of a map, in the order of its countries. *)
Definition installed_sets (m : CountryRangeMap) : list ipset :=
  flat_map country_sets m.

(** In environment [e], on a host with the address sets [sets] and the
    global [ac], the computation [m] returns a value in [P] having appended
    [a4] and [a6] to the chains and changed nothing else. *)
Definition adds_rules (e : env) (sets : list ipset) (ac : list string) {A}
  (m : M A) (P : A -> Prop) (a4 a6 : list rule) : Prop :=
  forall w,
    ipsets (kern w) = sets -> ALL_COUNTRIES w = ac ->
    exists x w',
      m e w = (Ret x, w') /\ P x /\
      kern w' = {| ipsets := sets;
                   INPUT4 := (INPUT4 (kern w) ++ a4)%list;
                   INPUT6 := (INPUT6 (kern w) ++ a6)%list |} /\
      ALL_COUNTRIES w' = ac /\ fs w' = fs w.

(** A set of that name is among [sets]. *)
Definition resident (sets : list ipset) (name : string) : bool :=
  existsb (fun s => set_name s =? name) sets.

(** The kernel a successful rebuild of the map [m] leaves on a host whose
    kernel was [k]: the foreign sets followed by the sets of [m], and in
    each chain the foreign rules followed by the complete chain, with rules
    for the countries that have a set of that family among the sets of
    [m]. *)
Definition rebuilt (k : kernel) (m : CountryRangeMap) : kernel :=
  let blocked := Chain.blocked CONFIG.ALLOWED_COUNTRIES (map fst m) in
  let has4 := fun c => resident (installed_sets m) (set_name_v4 c) in
  let has6 := fun c => resident (installed_sets m) (set_name_v6 c) in
  {| ipsets := (filter (fun s => negb (is_geoip_set (set_name s))) (ipsets k)
                ++ installed_sets m)%list;
     INPUT4 := (foreign_rules (INPUT4 k)
                ++ Chain.ipv4 (filter has4 CONFIG.ALLOWED_COUNTRIES)
                     (filter has4 blocked))%list;
     INPUT6 := (foreign_rules (INPUT6 k)
                ++ Chain.ipv6 (filter has6 CONFIG.ALLOWED_COUNTRIES)
                     (filter has6 blocked))%list |}.

(* ================================================================= *)
(** * Properties *)

(** ** Decimal numerals and words *)

Module PyStrFacts.

Lemma all_digits_string_of_uint (d : uint) :
  all_digits (NilEmpty.string_of_uint d) = true.
Proof. induction d; simpl; auto. Qed.

Lemma revapp_nil (d acc : uint) : revapp d acc = Nil -> d = Nil /\ acc = Nil.
Proof.
  revert acc; induction d; simpl; intros acc H; auto;
    apply IHd in H; destruct H; discriminate.
Qed.

Lemma little_succ_nonnil (d : uint) : Little.succ d <> Nil.
Proof. destruct d; simpl; discriminate. Qed.

Lemma to_little_uint_nonnil (n : nat) (acc : uint) :
  acc <> Nil -> Nat.to_little_uint n acc <> Nil.
Proof.
  revert acc; induction n; simpl; intros acc H; auto.
  apply IHn, little_succ_nonnil.
Qed.

Lemma to_uint_nonnil (n : nat) : Nat.to_uint n <> Nil.
Proof.
  unfold Nat.to_uint, rev. intro H. apply revapp_nil in H. destruct H as [H _].
  revert H. apply to_little_uint_nonnil. discriminate.
Qed.

Lemma string_of_uint_nonempty (d : uint) :
  d <> Nil -> NilEmpty.string_of_uint d <> "".
Proof. destruct d; simpl; intros H; try discriminate. now elim H. Qed.

Lemma str_nonempty (n : nat) : str n <> "".
Proof. apply string_of_uint_nonempty, to_uint_nonnil. Qed.

Lemma all_digits_unicode (s : string) :
  all_digits s = true ->
  forallb is_unicode_digit (list_ascii_of_string s) = true.
Proof.
  induction s as [| c s IH]; simpl; intros H; [reflexivity |].
  apply andb_true_iff in H. destruct H as [Hc Hs].
  unfold is_unicode_digit. rewrite Hc. simpl. now apply IH.
Qed.

Lemma isdigit_str (n : nat) : isdigit (str n) = true.
Proof.
  unfold isdigit. generalize (str_nonempty n).
  unfold str. generalize (all_digits_string_of_uint (Nat.to_uint n)).
  destruct (NilEmpty.string_of_uint (Nat.to_uint n)); intros Hd Hn;
    [now elim Hn | now apply all_digits_unicode].
Qed.

Lemma int_of_str (n : nat) : int_of (str n) = Some n.
Proof.
  unfold int_of. generalize (str_nonempty n). unfold str.
  rewrite NilEmpty.usu. simpl. rewrite Unsigned.of_to.
  destruct (NilEmpty.string_of_uint (Nat.to_uint n)); intros Hn;
    [now elim Hn | reflexivity].
Qed.

Lemma take_word_numeral (d : uint) (rest : string) :
  take_word (NilEmpty.string_of_uint d ++ String " " rest)
  = NilEmpty.string_of_uint d.
Proof. induction d; simpl; try rewrite IHd; reflexivity. Qed.

Lemma lstrip_numeral (d : uint) (rest : string) :
  d <> Nil ->
  lstrip (NilEmpty.string_of_uint d ++ rest) = NilEmpty.string_of_uint d ++ rest.
Proof. destruct d; simpl; intros H; try reflexivity. now elim H. Qed.

(** The first word of a numbered line is its number. *)
Lemma split_first_numbered (n : nat) (rest : string) :
  split_first (str n ++ String " " rest) = Some (str n).
Proof.
  unfold split_first, str.
  rewrite lstrip_numeral by apply to_uint_nonnil.
  generalize (take_word_numeral (Nat.to_uint n) rest).
  generalize (string_of_uint_nonempty _ (to_uint_nonnil n)).
  destruct (NilEmpty.string_of_uint (Nat.to_uint n)) eqn:E; intros H1 H2.
  - now elim H1.
  - simpl append. now rewrite <- H2.
Qed.

Lemma mem_In (x : string) (l : list string) : mem x l = true <-> In x l.
Proof.
  unfold mem. rewrite existsb_exists. split.
  - intros (y & Hy & E). apply String.eqb_eq in E. now subst.
  - intros H. exists x. split; auto. apply String.eqb_refl.
Qed.

Lemma append_length (a b : string) :
  String.length (a ++ b) = String.length a + String.length b.
Proof. induction a; simpl; auto. Qed.

End PyStrFacts.

Import PyStrFacts.

Lemma startswith_set_name_v4 (c : string) :
  startswith "country-" (set_name_v4 c) = true.
Proof. destruct c; reflexivity. Qed.

Lemma startswith_set_name_v6 (c : string) :
  startswith "country-" (set_name_v6 c) = true.
Proof. destruct c; reflexivity. Qed.

(** The two set names of one country differ. *)
Lemma set_names_distinct (c : string) : set_name_v4 c <> set_name_v6 c.
Proof.
  unfold set_name_v4, set_name_v6. intro H.
  apply (f_equal String.length) in H. rewrite !append_length in H.
  simpl in H. lia.
Qed.

(* ================================================================= *)
(** ** What a computation may touch *)

Section Footprint.

Variable P : event -> Prop.            (* events that may be emitted *)
Variable F : files -> files -> Prop.   (* how the files may change *)
Variable K : kernel -> kernel -> Prop. (* how the kernel may change *)
Hypothesis F_refl : forall f, F f f.
Hypothesis F_trans : forall a b c, F a b -> F b c -> F a c.
Hypothesis K_refl : forall k, K k k.
Hypothesis K_trans : forall a b c, K a b -> K b c -> K a c.

Lemma within_refl w : within P F K w w.
Proof.
  repeat split; auto. exists []. split; auto. now rewrite app_nil_r.
Qed.

Lemma within_trans a b c :
  within P F K a b -> within P F K b c -> within P F K a c.
Proof.
  intros (F1 & K1 & t1 & E1 & P1) (F2 & K2 & t2 & E2 & P2).
  repeat split; eauto.
  exists (t1 ++ t2)%list. split.
  - now rewrite E2, E1, app_assoc.
  - apply Forall_app; auto.
Qed.

Lemma footprint_ret {A} (a : A) : footprint P F K (ret a).
Proof. intros e w; apply within_refl. Qed.

Lemma footprint_raise {A} (x : exn) : footprint P F K (@raise A x).
Proof. intros e w; apply within_refl. Qed.

Lemma footprint_out_of_fuel {A} : footprint P F K (@out_of_fuel A).
Proof. intros e w; apply within_refl. Qed.

Lemma footprint_ask : footprint P F K ask.
Proof. intros e w; apply within_refl. Qed.

Lemma footprint_get_fs : footprint P F K get_fs.
Proof. intros e w; apply within_refl. Qed.

Lemma footprint_bind {A B} (m : M A) (k : A -> M B) :
  footprint P F K m -> (forall a, footprint P F K (k a)) -> footprint P F K (bind m k).
Proof.
  intros Hm Hk e w. unfold bind. specialize (Hm e w).
  destruct (m e w) as [[a | x |] w1]; simpl in *; auto.
  eapply within_trans; eauto. apply Hk.
Qed.

Lemma footprint_try_except {A} (m : M A) (h : exn -> option (M A)) :
  footprint P F K m -> (forall x k, h x = Some k -> footprint P F K k) ->
  footprint P F K (try_except m h).
Proof.
  intros Hm Hh e w. unfold try_except. specialize (Hm e w).
  destruct (m e w) as [[a | x |] w1]; simpl in *; auto.
  destruct (h x) as [k |] eqn:E; simpl; auto.
  eapply within_trans; eauto. eapply Hh; eauto.
Qed.

Lemma footprint_for_each {A} (l : list A) (body : A -> M unit) :
  (forall x, footprint P F K (body x)) -> footprint P F K (for_each l body).
Proof.
  intros Hb. induction l; simpl.
  - apply footprint_ret.
  - apply footprint_bind; auto.
Qed.

Lemma footprint_if {A} (b : bool) (m1 m2 : M A) :
  footprint P F K m1 -> footprint P F K m2 -> footprint P F K (if b then m1 else m2).
Proof. destruct b; auto. Qed.

Lemma footprint_emit (ev : event) : P ev -> footprint P F K (emit ev).
Proof.
  intros H e w. repeat split; simpl; auto. exists [ev]. split; auto.
Qed.

Lemma footprint_put_fs (f : files) :
  (forall f0, F f0 f) -> footprint P F K (put_fs f).
Proof.
  intros H e w. repeat split; simpl; auto. exists []. split; auto.
  now rewrite app_nil_r.
Qed.

Lemma footprint_subprocess_run (c : cmd) :
  (forall o, P (Exec c o)) ->
  (forall k, K k (snd (Kernel.exec c k))) ->
  footprint P F K (subprocess_run c).
Proof.
  intros HP HK e w. unfold subprocess_run.
  destruct (oracle e (List.length (trace w)) c).
  - specialize (HK (kern w)).
    destruct (Kernel.exec c (kern w)) as [[ok out] k']. simpl in *.
    repeat split; simpl; auto. eexists; split; eauto.
  - repeat split; simpl; auto. eexists; split; eauto.
  - repeat split; simpl; auto. eexists; split; eauto.
Qed.

Lemma footprint_subprocess_run_check (c : cmd) :
  (forall o, P (Exec c o)) ->
  (forall k, K k (snd (Kernel.exec c k))) ->
  footprint P F K (subprocess_run_check c).
Proof.
  intros HP HK. unfold subprocess_run_check. apply footprint_bind.
  - now apply footprint_subprocess_run.
  - intros a. apply footprint_if; [apply footprint_ret | apply footprint_raise].
Qed.

End Footprint.

Lemma within_weaken (P P' : event -> Prop) (F F' : files -> files -> Prop)
  (K K' : kernel -> kernel -> Prop) (w w' : world) :
  (forall ev, P ev -> P' ev) ->
  (forall a b, F a b -> F' a b) ->
  (forall a b, K a b -> K' a b) ->
  within P F K w w' -> within P' F' K' w w'.
Proof.
  intros HP HF HK (H1 & H2 & t & E & H3). repeat split; auto.
  exists t. split; auto. eapply Forall_impl; eauto.
Qed.

Lemma footprint_weaken (P P' : event -> Prop) (F F' : files -> files -> Prop)
  (K K' : kernel -> kernel -> Prop) {A} (m : M A) :
  (forall ev, P ev -> P' ev) ->
  (forall a b, F a b -> F' a b) ->
  (forall a b, K a b -> K' a b) ->
  footprint P F K m -> footprint P' F' K' m.
Proof. intros HP HF HK H e w. eapply within_weaken; eauto. Qed.

Lemma restore_same_chains (adds : list (string * string)) (k : kernel) :
  same_chains k (snd (Kernel.restore adds k)).
Proof.
  revert k; induction adds as [| [name ip] rest IH]; intros k; simpl.
  - split; reflexivity.
  - destruct (Kernel.has_set name k); simpl.
    + destruct (IH (set_ipsets (Kernel.add_member name ip (ipsets k)) k)) as [H4 H6].
      split; [rewrite H4 | rewrite H6]; reflexivity.
    + split; reflexivity.
Qed.

Ltac solve_kernel_side :=
  intros ?k; unfold Kernel.exec, same_chains, same_sets;
  repeat match goal with
         | |- context [if ?b then _ else _] => destruct b
         | |- context [match ?x with _ => _ end] => destruct x
         | |- context [let (_, _) := ?x in _] => destruct x
         end; simpl; auto;
  repeat match goal with
         | |- context [set_chain ?f _ _] => is_var f; destruct f
         end; simpl; auto.

Ltac solve_side :=
  lazymatch goal with
  | |- footprint _ _ _ _ => fail
  | |- forall k, _ _ (snd (Kernel.exec _ k)) => solve [solve_kernel_side]
  | |- _ =>
      solve [ intros; exact I
            | intros; reflexivity
            | intros; simpl; auto
            | intros; etransitivity; eassumption
            | intros; congruence
            | unfold same_chains; intros; intuition congruence
            | unfold same_sets; intros; congruence ]
  end.

Ltac footprint_auto :=
  repeat
    match goal with
    | |- _ => solve_side
    | |- footprint _ _ _ (ret _) => apply footprint_ret
    | |- footprint _ _ _ (raise _) => apply footprint_raise
    | |- footprint _ _ _ out_of_fuel => apply footprint_out_of_fuel
    | |- footprint _ _ _ ask => apply footprint_ask
    | |- footprint _ _ _ get_fs => apply footprint_get_fs
    | |- footprint _ _ _ (emit _) => apply footprint_emit
    | |- footprint _ _ _ (put_fs _) => apply footprint_put_fs
    | |- footprint _ _ _ (subprocess_run_check _) =>
        apply footprint_subprocess_run_check
    | |- footprint _ _ _ (subprocess_run _) => apply footprint_subprocess_run
    | |- footprint _ _ _ (for_each _ _) => apply footprint_for_each
    | |- footprint _ _ _ (try_except _ _) => apply footprint_try_except
    | |- footprint _ _ _ (bind _ _) => apply footprint_bind
    | |- footprint _ _ _ (if _ then _ else _) => apply footprint_if
    | |- footprint _ _ _ (match ?x with _ => _ end) => destruct x
    | H : except_Exception _ _ = Some _ |- _ =>
        unfold except_Exception in H; inversion H; subst; clear H
    | H : except_CalledProcessError _ ?x = Some _ |- _ =>
        destruct x; simpl in H; try discriminate; inversion H; subst; clear H
    | H : match ?x with _ => _ end = Some _ |- _ =>
        destruct x; try discriminate; inversion H; subst; clear H
    | H : footprint _ _ _ ?m |- footprint _ _ _ ?m => exact H
    | H : forall _, footprint _ _ _ _ |- footprint _ _ _ _ => apply H
    | H : forall _ _, footprint _ _ _ _ |- footprint _ _ _ _ => apply H
    | |- forall _, _ => intro
    end.

(** ip[6]tables and ipset leave the files alone; the checks and the download
    leave the kernel alone. *)

Lemma check_remote_file_changed_frame (url : string) :
  footprint (fun ev => ev = HttpHead url) anything eq
    (check_remote_file_changed url).
Proof.
  unfold check_remote_file_changed, urlopen_head, write_last_check.
  footprint_auto.
Qed.

Lemma check_file_hash_changed_frame :
  footprint (fun _ => False) anything eq check_file_hash_changed.
Proof.
  unfold check_file_hash_changed, calculate_file_hash, write_hash.
  footprint_auto.
Qed.

Lemma download_dbip_database_frame (url : string) :
  footprint (fun ev => ev = HttpDownload url) anything eq
    (download_dbip_database url).
Proof. unfold download_dbip_database, write_mmdb. footprint_auto. Qed.

Lemma parse_mmdb_to_country_ipranges_frame :
  footprint is_parse_event eq eq parse_mmdb_to_country_ipranges.
Proof.
  unfold parse_mmdb_to_country_ipranges, open_database. footprint_auto.
Qed.

Lemma scan_and_delete_frame (fam : family) (tag : string) (lines : list string) :
  footprint is_cleanup_event eq same_sets (scan_and_delete fam tag lines).
Proof. induction lines; simpl; footprint_auto. Qed.

Lemma delete_tagged_frame (fuel : nat) (fam : family) (tag : string) :
  footprint is_cleanup_event eq same_sets (delete_tagged fuel fam tag).
Proof.
  induction fuel; simpl; footprint_auto. apply scan_and_delete_frame.
Qed.

Lemma cleanup_existing_ipsets_frame (fuel : nat) :
  footprint is_cleanup_event eq anything (cleanup_existing_ipsets fuel).
Proof.
  unfold cleanup_existing_ipsets. footprint_auto.
  all: eapply footprint_weaken; [| | | apply delete_tagged_frame]; solve_side.
Qed.

Lemma populate_frame (name : string) (fam : family) (ranges : list string) :
  footprint is_set_step eq same_chains (populate name fam ranges).
Proof.
  unfold populate. footprint_auto.
  simpl. generalize (restore_same_chains (map (fun ip => (name, ip)) ranges) k).
  destruct (Kernel.restore _ k); auto.
Qed.

Lemma apply_country_frame (c : string) (ranges : list string) :
  footprint is_set_step eq same_chains (apply_country c ranges).
Proof.
  unfold apply_country, when_nonempty.
  footprint_auto; apply populate_frame.
Qed.

Lemma apply_countries_frame (m : CountryRangeMap) :
  footprint is_set_step eq same_chains (apply_countries m).
Proof.
  induction m as [| [c ranges] rest IH]; simpl; footprint_auto.
  apply apply_country_frame.
Qed.

Lemma apply_native_ipset_frame (m : CountryRangeMap) :
  footprint is_set_step eq same_chains (apply_native_ipset m).
Proof.
  unfold apply_native_ipset. apply footprint_bind; try solve_side.
  - intros e w. simpl. repeat split; simpl; auto.
    exists []. split; auto. now rewrite app_nil_r.
  - intros _. apply apply_countries_frame.
Qed.

Lemma append_rule_frame (fam : family) (r : rule) :
  footprint is_setup_event eq same_sets (append_rule fam r).
Proof. unfold append_rule. footprint_auto. Qed.

Lemma allow_country_frame (c : string) :
  footprint is_setup_event eq same_sets (allow_country c).
Proof.
  unfold allow_country, ipset_exists. footprint_auto; apply append_rule_frame.
Qed.

Lemma block_country_frame (c : string) :
  footprint is_setup_event eq same_sets (block_country c).
Proof.
  unfold block_country, ipset_exists. footprint_auto; apply append_rule_frame.
Qed.

Lemma guarded_frame (m : M unit) :
  footprint is_setup_event eq same_sets m ->
  footprint is_setup_event eq same_sets (guarded m).
Proof. intros H. unfold guarded. footprint_auto. Qed.

Lemma and_then_frame (a b : M bool) :
  footprint is_setup_event eq same_sets a ->
  footprint is_setup_event eq same_sets b ->
  footprint is_setup_event eq same_sets (a >>? b).
Proof. intros Ha Hb. unfold and_then. footprint_auto. Qed.

Lemma for_each_guarded_frame (l : list string) (body : string -> M unit) :
  (forall x, footprint is_setup_event eq same_sets (body x)) ->
  footprint is_setup_event eq same_sets (for_each_guarded l body).
Proof.
  intros Hb. induction l; simpl.
  - footprint_auto.
  - apply and_then_frame; auto. apply guarded_frame; auto.
Qed.

Lemma setup_firewall_rules_frame (allowed : list string) :
  footprint is_setup_event eq same_sets (setup_firewall_rules allowed).
Proof.
  unfold setup_firewall_rules.
  repeat (apply and_then_frame; [apply guarded_frame; footprint_auto; apply append_rule_frame |]).
  intros e w.
  generalize (filter (fun c => negb (mem c allowed)) (ALL_COUNTRIES w)); intros bl.
  revert e w.
  change (footprint is_setup_event eq same_sets
            (for_each_guarded allowed allow_country >>?
             for_each_guarded bl block_country >>?
             guarded (append_rule Inet Rules.default_log ;;;
                      append_rule Inet Rules.default_drop ;;;
                      append_rule Inet6 Rules.default_log ;;;
                      append_rule Inet6 Rules.default_drop))).
  apply and_then_frame; [apply for_each_guarded_frame, allow_country_frame |].
  apply and_then_frame; [apply for_each_guarded_frame, block_country_frame |].
  apply guarded_frame; footprint_auto; apply append_rule_frame.
Qed.


Lemma smart_update_rebuild_frame (fuel : nat) :
  footprint is_rebuild_event eq anything (smart_update_rebuild fuel).
Proof.
  unfold smart_update_rebuild.
  apply footprint_bind; try solve_side.
  { eapply footprint_weaken; [| | | apply parse_mmdb_to_country_ipranges_frame];
      unfold is_rebuild_event; solve_side. }
  intros m. destruct m as [| x rest]; [footprint_auto |].
  apply footprint_bind; try solve_side.
  { eapply footprint_weaken; [| | | apply cleanup_existing_ipsets_frame];
      unfold is_rebuild_event; solve_side. }
  intros _. apply footprint_bind; try solve_side.
  { eapply footprint_weaken; [| | | apply apply_native_ipset_frame];
      unfold is_rebuild_event; solve_side. }
  intros ok. apply footprint_if; [footprint_auto |].
  apply footprint_bind; try solve_side.
  { eapply footprint_weaken; [| | | apply setup_firewall_rules_frame];
      unfold is_rebuild_event; solve_side. }
  intros ok'. footprint_auto.
Qed.

Lemma count_country_sets_pos (k : kernel) :
  has_country_set k ->
  count_country_sets (map set_name (ipsets k) ++ [""]) <> 0.
Proof.
  intros (s & Hin & Hs). unfold count_country_sets.
  assert (H : In (set_name s)
                (filter (startswith "country-") (map set_name (ipsets k) ++ [""]))).
  { apply filter_In. split; auto. apply in_or_app. left. now apply in_map. }
  destruct (filter _ _); simpl; [contradiction | discriminate].
Qed.

Lemma count_country_sets_zero (k : kernel) :
  ~ has_country_set k ->
  count_country_sets (map set_name (ipsets k) ++ [""]) = 0.
Proof.
  intros H. unfold count_country_sets.
  destruct (filter _ _) as [| x l] eqn:E; auto.
  assert (Hx : In x (x :: l)) by (left; auto).
  rewrite <- E in Hx. apply filter_In in Hx. destruct Hx as [Hin Hp].
  apply in_app_or in Hin. destruct Hin as [Hin | [<- | []]]; [| discriminate].
  apply in_map_iff in Hin. destruct Hin as (s & <- & Hs).
  elim H. exists s. auto.
Qed.

Lemma check_remote_unchanged (url : string) (e : env) (w : world) :
  remote_unchanged e (fs w) ->
  check_remote_file_changed url e w = (Ret false, log_event (HttpHead url) w).
Proof.
  unfold remote_unchanged, check_remote_file_changed, try_except, bind,
    urlopen_head, bind, emit, ask, get_fs, ret, raise.
  destruct (remote_head e) as [lm cl | code |]; simpl.
  - intros (saved & -> & ->). now rewrite String.eqb_refl.
  - intros ->. reflexivity.
  - contradiction.
Qed.

Lemma smart_update_steady_unchanged (fuel : nat) (e : env) (f : files)
  (k : kernel) :
  oracle e 0 IpsetListNames = Ok ->
  has_country_set k ->
  mmdb f <> None ->
  remote_unchanged e f ->
  smart_update fuel e (boot f k)
  = (Ret true,
     log_event (HttpHead (url_of e))
       (log_event (Exec IpsetListNames Ok) (boot f k))).
Proof.
  intros Hlist Hsets Hdb Hsame.
  unfold smart_update, smart_update_acquire, get_current_month_url, bind, ask,
    ret, get_fs, try_except, subprocess_run. simpl. rewrite Hlist. simpl.
  apply count_country_sets_pos in Hsets.
  destruct (count_country_sets _) as [| n]; [now elim Hsets |]. simpl.
  destruct (mmdb f) as [d |] eqn:Ed; [| now elim Hdb]. simpl.
  rewrite check_remote_unchanged by exact Hsame. reflexivity.
Qed.

(** C3 (steady state, remote unchanged): when the metadata check has
    nothing to report (the record, as [f.read().strip()] gives it, is the
    metadata of the response, or the answer is 404), the run ends
    successfully after the set listing and the HEAD request; it downloads
    nothing and issues no command that changes an address set or a rule,
    and kernel and files are as before. *)
Theorem C3_steady_state_unchanged_is_noop (fuel : nat) (e : env) (f : files)
  (k : kernel) :
  oracle e 0 IpsetListNames = Ok ->
  has_country_set k ->
  mmdb f <> None ->
  remote_unchanged e f ->
  exists w',
    smart_update fuel e (boot f k) = (Ret true, w') /\
    main fuel e (boot f k) = (Some 0, w') /\
    kern w' = k /\ fs w' = f /\
    trace w' = [Exec IpsetListNames Ok; HttpHead (url_of e)] /\
    Forall (fun ev => ~ is_mutation ev /\ forall u, ev <> HttpDownload u)
      (trace w').
Proof.
  intros Hlist Hsets Hdb Hsame.
  pose proof (smart_update_steady_unchanged fuel e f k Hlist Hsets Hdb Hsame) as E.
  eexists. split; [exact E |]. unfold main. rewrite E.
  repeat split; simpl; auto.
  repeat constructor; simpl; auto; discriminate.
Qed.

(* ================================================================= *)
(** ** Change detection: when the baselines are written *)

Ltac unfold_acquire :=
  unfold smart_update_acquire, get_current_month_url,
    check_remote_file_changed, urlopen_head, check_file_hash_changed,
    calculate_file_hash, download_dbip_database, unlink_baselines,
    write_last_check, write_hash, write_mmdb, try_except, except_Exception,
    bind, ret, raise, ask, get_fs, put_fs, emit, subprocess_run.

(** Case analysis on the innermost scrutinee that is not text. *)
Ltac destruct_inner x :=
  match x with
  | context [match ?y with _ => _ end] => destruct_inner y
  | _ =>
      let T := type of x in
      lazymatch T with
      | string => fail
      | ascii => fail
      | list _ => fail
      | _ => destruct x eqn:?
      end
  end.

Ltac case_step :=
  match goal with
  | |- context [match ?x with _ => _ end] => destruct_inner x
  end.

Ltac world_simpl :=
  cbn [fst snd fs kern trace ALL_COUNTRIES set_fs set_kern log_event
       mmdb hash_file last_check_file exists_file negb].

Lemma check_remote_file_changed_writes (url : string) (e : env) (w : world) :
  let r := check_remote_file_changed url e w in
  kern (snd r) = kern w /\ mmdb (fs (snd r)) = mmdb (fs w) /\
  hash_file (fs (snd r)) = hash_file (fs w) /\
  ((fst r = Ret true /\
    exists lm cl, remote_head e = HeadOk lm cl /\
      last_check_file (fs (snd r)) = Some (header lm ++ "|" ++ header cl)) \/
   (fst r <> Ret true /\ last_check_file (fs (snd r)) = last_check_file (fs w))).
Proof.
  unfold_acquire. cbn beta iota zeta.
  repeat (case_step; world_simpl).
  all: repeat match goal with |- _ /\ _ => split end; try congruence.
  all: first [ left; split; [reflexivity | eauto]
             | right; split; [discriminate | congruence] ].
Qed.

Lemma check_file_hash_changed_writes (e : env) (w : world) :
  let r := check_file_hash_changed e w in
  kern (snd r) = kern w /\ mmdb (fs (snd r)) = mmdb (fs w) /\
  last_check_file (fs (snd r)) = last_check_file (fs w) /\
  trace (snd r) = trace w /\
  ((fst r = Ret true /\
    exists d, mmdb (fs w) = Some d /\ hash_file (fs (snd r)) = Some (sha256 d)) \/
   (fst r <> Ret true /\ hash_file (fs (snd r)) = hash_file (fs w))).
Proof.
  unfold_acquire. cbn beta iota zeta.
  repeat (case_step; world_simpl).
  all: repeat match goal with |- _ /\ _ => split end; try congruence.
  all: first [ left; split; [reflexivity | eauto]
             | right; split; [discriminate | congruence] ].
Qed.

Lemma smart_update_acquire_baseline (e : env) (w : world) :
  baseline_change e (fs w) (fs (snd (smart_update_acquire e w))).
Proof.
  unfold baseline_change.
  unfold_acquire. cbn beta iota zeta.
  repeat (case_step; world_simpl).
  all: try (cbn [negb exists_file] in *; discriminate).
  all: try (destruct (mmdb (fs w)) eqn:?; cbn [exists_file] in *; try discriminate).
  all: split;
    solve [ left; congruence
          | right; left; split; congruence
          | right; right; eauto
          | right; right; eexists; split; [eassumption | congruence] ].
Qed.

Lemma smart_update_baseline (fuel : nat) (e : env) (w : world) :
  baseline_change e (fs w) (fs (snd (smart_update fuel e w))).
Proof.
  unfold smart_update, bind.
  pose proof (smart_update_acquire_baseline e w) as H.
  destruct (smart_update_acquire e w) as [[[b |] | x |] w1]; simpl in *; auto.
  destruct (smart_update_rebuild_frame fuel e w1) as (Hf & _).
  now rewrite <- Hf.
Qed.

(** C1 (as the code has it): a baseline file is written by the check that
    compares it, at the moment the check reports a change: before the
    download, the verification and the rebuild, not after them.  Each check
    writes exactly when it answers [True] and leaves its file alone
    otherwise; over a whole run each baseline ends as it was, removed (first
    install only), or holding what its check wrote. *)
Theorem C1_baselines_written_at_detection :
  (forall url e w,
     let r := check_remote_file_changed url e w in
     (fst r = Ret true /\
      exists lm cl, remote_head e = HeadOk lm cl /\
        last_check_file (fs (snd r)) = Some (header lm ++ "|" ++ header cl)) \/
     (fst r <> Ret true /\ last_check_file (fs (snd r)) = last_check_file (fs w)))
  /\
  (forall e w,
     let r := check_file_hash_changed e w in
     (fst r = Ret true /\
      exists d, mmdb (fs w) = Some d /\ hash_file (fs (snd r)) = Some (sha256 d)) \/
     (fst r <> Ret true /\ hash_file (fs (snd r)) = hash_file (fs w)))
  /\
  (forall fuel e f k,
     baseline_change e f (fs (snd (smart_update fuel e (boot f k))))).
Proof.
  split; [| split].
  - intros url e w. apply check_remote_file_changed_writes.
  - intros e w. apply check_file_hash_changed_writes.
  - intros fuel e f k. apply (smart_update_baseline fuel e (boot f k)).
Qed.

(** C1 (as stated) fails: with a new file announced and the transfer
    failing, the run ends in failure and the metadata record has already
    been replaced. *)
Lemma C1_counterexample_failed_run_overwrites_record :
  let r := smart_update 8 Scenario.april_fetch_fails
             (boot Scenario.march_files Scenario.march_kernel) in
  fst r = Ret false /\
  last_check_file (fs (snd r)) = Some "Wed, 01 Apr 2026 03:00:00 GMT|4100317" /\
  last_check_file (fs (snd r)) <> last_check_file Scenario.march_files.
Proof. vm_compute. repeat split. discriminate. Qed.

(* ================================================================= *)
(** ** An unreadable database stops the run *)

Lemma smart_update_acquire_frame :
  footprint is_acquire_event anything eq smart_update_acquire.
Proof.
  unfold smart_update_acquire, get_current_month_url, unlink_baselines.
  footprint_auto.
  all: try (eapply footprint_weaken;
            [| | | first [ apply check_remote_file_changed_frame
                         | apply check_file_hash_changed_frame
                         | apply download_dbip_database_frame ]];
            first [ solve_side | intros ev Hev; simpl in Hev; subst; exact I
                  | intros ev Hev; contradiction ]).
Qed.

Lemma parse_unreadable (e : env) (w : world) :
  database_unreadable e (fs w) ->
  exists t,
    parse_mmdb_to_country_ipranges e w
    = (Ret [], {| fs := fs w; kern := kern w; ALL_COUNTRIES := ALL_COUNTRIES w;
                  trace := (trace w ++ t)%list |}) /\
    Forall is_parse_event t.
Proof.
  unfold database_unreadable, parse_mmdb_to_country_ipranges, open_database,
    try_except, except_Exception, bind, emit, ask, get_fs, ret, raise, log_event.
  simpl. intros [H | [H | (d & H & Hd)]].
  - rewrite H. simpl. exists [ImportMaxminddb]. split; [reflexivity | repeat constructor].
  - destruct (maxminddb_installed e); simpl.
    + rewrite H. simpl. exists [ImportMaxminddb; OpenDatabase].
      rewrite <- app_assoc. simpl. split; [reflexivity | repeat constructor].
    + exists [ImportMaxminddb]. split; [reflexivity | repeat constructor].
  - destruct (maxminddb_installed e); simpl.
    + rewrite H. destruct d as [h n]. simpl in Hd. subst n. simpl.
      exists [ImportMaxminddb; OpenDatabase].
      rewrite <- app_assoc. simpl. split; [reflexivity | repeat constructor].
    + exists [ImportMaxminddb]. split; [reflexivity | repeat constructor].
Qed.

Lemma smart_update_rebuild_unreadable (fuel : nat) (e : env) (w : world) :
  database_unreadable e (fs w) ->
  exists t,
    smart_update_rebuild fuel e w
    = (Ret false, {| fs := fs w; kern := kern w;
                     ALL_COUNTRIES := ALL_COUNTRIES w;
                     trace := (trace w ++ t)%list |}) /\
    Forall is_parse_event t.
Proof.
  intros H. destruct (parse_unreadable e w H) as (t & E & Ht).
  exists t. split; auto. unfold smart_update_rebuild, bind. now rewrite E.
Qed.

Lemma not_In_Forall {A} (P : A -> Prop) (x : A) (l : list A) :
  Forall P l -> ~ P x -> ~ In x l.
Proof. intros H Hx Hin. rewrite Forall_forall in H. auto. Qed.

Lemma smart_update_unreadable (fuel : nat) (e : env) (f : files) (k : kernel) :
  let r := smart_update fuel e (boot f k) in
  In ImportMaxminddb (trace (snd r)) ->
  database_unreadable e (fs (snd r)) ->
  fst r = Ret false /\ kern (snd r) = k /\
  Forall (fun ev => ~ is_mutation ev) (trace (snd r)).
Proof.
  unfold smart_update, bind, ret.
  destruct (smart_update_acquire_frame e (boot f k)) as (_ & Hk & t & Ht & Pt).
  simpl in Hk, Ht.
  assert (Hno : ~ In ImportMaxminddb t) by (eapply not_In_Forall; eauto).
  destruct (smart_update_acquire e (boot f k)) as [[[b |] | x |] w1];
    cbn [fst snd] in *; try (intros Hin; rewrite Ht in Hin; contradiction).
  intros Hin Hbad.
  assert (Hbad1 : database_unreadable e (fs w1)).
  { destruct (smart_update_rebuild_frame fuel e w1) as (Hf & _).
    now rewrite Hf. }
  destruct (smart_update_rebuild_unreadable fuel e w1 Hbad1) as (t' & E & Pt').
  rewrite E. simpl. repeat split; auto.
  rewrite Ht. apply Forall_app. split.
  - eapply Forall_impl; [| exact Pt]. intros [[] o | | | |]; simpl; tauto.
  - eapply Forall_impl; [| exact Pt']. intros [c o | | | |]; simpl; tauto.
Qed.

(** C8: with the parsing dependency missing, or the database file missing
    or unreadable, the reader returns the empty map; a run that reaches the
    reader in that state returns failure (exit status 1), leaves the kernel
    as it was and issues no command that changes an address set or a rule. *)
Theorem C8_unreadable_database_is_hard_failure :
  (forall e w,
     database_unreadable e (fs w) ->
     fst (parse_mmdb_to_country_ipranges e w) = Ret []) /\
  (forall fuel e f k,
     let r := smart_update fuel e (boot f k) in
     In ImportMaxminddb (trace (snd r)) ->
     database_unreadable e (fs (snd r)) ->
     fst r = Ret false /\
     fst (main fuel e (boot f k)) = Some 1 /\
     kern (snd r) = k /\
     Forall (fun ev => ~ is_mutation ev) (trace (snd r))).
Proof.
  split.
  - intros e w H. destruct (parse_unreadable e w H) as (t & E & _).
    now rewrite E.
  - intros fuel e f k r Hin Hbad. subst r.
    destruct (smart_update_unreadable fuel e f k Hin Hbad) as (Hr & Hk & Hm).
    repeat split; auto.
    unfold main. destruct (smart_update fuel e (boot f k)) as [r0 w'].
    simpl in Hr. now subst r0.
Qed.

(* ================================================================= *)
(** ** Address-set manager: the commands it issues *)

Lemma ok_events_app (a b : list cmd) :
  ok_events (a ++ b) = (ok_events a ++ ok_events b)%list.
Proof. apply map_app. Qed.

Lemma stopped_at_left (a b : list cmd) (o : outcome) (t : list event) :
  stopped_at a o t -> stopped_at (a ++ b) o t.
Proof.
  intros (pre & c & post & -> & ->). exists pre, c, (post ++ b)%list.
  split; auto. now rewrite <- app_assoc.
Qed.

Lemma stopped_at_right (a b : list cmd) (o : outcome) (t : list event) :
  stopped_at b o t -> stopped_at (a ++ b) o (ok_events a ++ t).
Proof.
  intros (pre & c & post & -> & ->). exists (a ++ pre)%list, c, post.
  split.
  - now rewrite <- app_assoc.
  - now rewrite ok_events_app, <- app_assoc.
Qed.

Lemma runs_checked_ret {A} (a : A) : runs_checked (ret a) [].
Proof. intros e w. exists []. simpl. split; auto. now rewrite app_nil_r. Qed.

Lemma runs_checked_subprocess (c : cmd) :
  runs_checked (subprocess_run_check c) [c].
Proof.
  intros e w. unfold subprocess_run_check, subprocess_run, bind, ret, raise.
  destruct (oracle e (List.length (trace w)) c).
  - destruct (Kernel.exec c (kern w)) as [[[|] out] k']; simpl.
    + exists [Exec c Ok]. split; auto.
    + exists [Exec c Rejected]. split; auto. exists [], c, []. split; auto.
  - simpl. exists [Exec c Rejected]. split; auto. exists [], c, []. split; auto.
  - simpl. exists [Exec c Crash]. split; auto. exists [], c, []. split; auto.
Qed.

Lemma runs_checked_bind {A B} (m : M A) (k : A -> M B) (c1 c2 : list cmd) :
  runs_checked m c1 -> (forall a, runs_checked (k a) c2) ->
  runs_checked (bind m k) (c1 ++ c2).
Proof.
  intros Hm Hk e w. unfold bind. destruct (Hm e w) as (t1 & E1 & S1).
  destruct (m e w) as [[a | x |] w1]; simpl in *.
  - destruct (Hk a e w1) as (t2 & E2 & S2). exists (t1 ++ t2)%list. split.
    + now rewrite E2, E1, app_assoc.
    + subst t1. destruct (fst (k a e w1)) as [b | [] |]; simpl in *;
        try contradiction; try (now apply stopped_at_right).
      subst t2. now rewrite ok_events_app.
  - exists t1. split; auto.
    destruct x; simpl in *; try contradiction; now apply stopped_at_left.
  - contradiction.
Qed.

Lemma populate_runs (name : string) (fam : family) (ranges : list string) :
  runs_checked (populate name fam ranges) (set_commands name fam ranges).
Proof.
  unfold populate, set_commands.
  change [IpsetCreate name fam (max_size ranges); IpsetFlush name;
          IpsetRestore (map (fun ip => (name, ip)) ranges)]
    with ([IpsetCreate name fam (max_size ranges)] ++
          [IpsetFlush name] ++
          [IpsetRestore (map (fun ip => (name, ip)) ranges)])%list.
  apply runs_checked_bind; [apply runs_checked_subprocess | intros _].
  apply runs_checked_bind; [apply runs_checked_subprocess | intros _].
  apply runs_checked_subprocess.
Qed.

Lemma apply_country_runs (c : string) (ranges : list string) :
  runs_reported (apply_country c ranges) (country_commands (c, ranges)).
Proof.
  assert (H : runs_checked
                (when_nonempty (filter (fun ip => negb (has_colon ip)) ranges)
                   (populate (set_name_v4 c) Inet
                      (filter (fun ip => negb (has_colon ip)) ranges)) ;;;
                 when_nonempty (filter has_colon ranges)
                   (populate (set_name_v6 c) Inet6 (filter has_colon ranges)) ;;;
                 ret true)
                (country_commands (c, ranges))).
  { unfold country_commands.
    apply runs_checked_bind.
    - destruct (filter (fun ip => negb (has_colon ip)) ranges) eqn:E; simpl.
      + apply runs_checked_ret.
      + apply populate_runs.
    - intros _.
      rewrite <- (app_nil_r (match filter has_colon ranges with
                             | [] => []
                             | _ :: _ => _
                             end)).
      apply runs_checked_bind; [| intros _; apply runs_checked_ret].
      destruct (filter has_colon ranges) eqn:E; simpl.
      + apply runs_checked_ret.
      + apply populate_runs. }
  intros e w. unfold apply_country, try_except.
  destruct (H e w) as (t & E & S). exists t.
  match type of E with
  | trace (snd (?body e w)) = _ => destruct (body e w) as [[b | x |] w1] eqn:Eb
  end; simpl in *.
  - split; auto.
    assert (b = true); [| subst; auto].
    revert Eb. unfold bind, ret.
    repeat match goal with
           | |- context [let (_, _) := ?x in _] => destruct x as [[? | ? |] ?]
           end; congruence.
  - destruct x; simpl in *; try contradiction; auto.
  - contradiction.
Qed.

Lemma apply_countries_runs (m : CountryRangeMap) :
  runs_reported (apply_countries m) (ipset_commands m).
Proof.
  induction m as [| [c ranges] rest IH]; intros e w.
  - exists []. simpl. split; auto. now rewrite app_nil_r.
  - change (ipset_commands ((c, ranges) :: rest))
      with (country_commands (c, ranges) ++ ipset_commands rest)%list.
    cbn [apply_countries]. unfold bind.
    destruct (apply_country_runs c ranges e w) as (t1 & E1 & S1).
    destruct (apply_country c ranges e w) as [[[|] | x |] w1];
      cbn [fst snd reported_run] in *.
    + destruct (IH e w1) as (t2 & E2 & S2). exists (t1 ++ t2)%list. split.
      * now rewrite E2, E1, app_assoc.
      * subst t1.
        destruct (fst (apply_countries rest e w1)) as [[|] | [] |];
          cbn [reported_run] in *;
          try contradiction; try (now apply stopped_at_right).
        subst t2. now rewrite ok_events_app.
    + exists t1. split; auto. now apply stopped_at_left.
    + exists t1. split; auto.
      destruct x; try contradiction. now apply stopped_at_left.
    + contradiction.
Qed.

Lemma apply_native_ipset_runs (m : CountryRangeMap) :
  runs_reported (apply_native_ipset m) (ipset_commands m).
Proof.
  intros e w. unfold apply_native_ipset, bind.
  apply (apply_countries_runs m e (set_ALL_COUNTRIES (map fst m) w)).
Qed.

Lemma in_ok_events (c : cmd) (o : outcome) (cmds : list cmd) :
  In (Exec c o) (ok_events cmds) -> o = Ok /\ In c cmds.
Proof.
  unfold ok_events. rewrite in_map_iff. intros (c' & E & H).
  inversion E; subst. auto.
Qed.

Lemma stopped_at_events (cmds : list cmd) (o : outcome) (t : list event) (ev : event) :
  stopped_at cmds o t -> In ev t ->
  exists c o', ev = Exec c o' /\ In c cmds /\ (o' = Ok \/ o' = o).
Proof.
  intros (pre & c & post & -> & ->) Hin.
  apply in_app_or in Hin. destruct Hin as [Hin | [<- | []]].
  - unfold ok_events in Hin. apply in_map_iff in Hin.
    destruct Hin as (c' & <- & Hc). exists c', Ok. repeat split; auto.
    apply in_or_app. auto.
  - exists c, o. repeat split; auto. apply in_or_app. right. left. auto.
Qed.


(** A failed command decides the answer. *)
Lemma reported_run_failure (cmds : list cmd) (r : res bool) (t : list event)
  (c : cmd) (o : outcome) :
  reported_run cmds r t -> In (Exec c o) t -> o <> Ok ->
  (o = Rejected /\ r = Ret false) \/ (o = Crash /\ r = Raise OSError).
Proof.
  destruct r as [[|] | [] |]; simpl; try contradiction; intros H Hin Ho.
  - subst t. apply in_ok_events in Hin. destruct Hin. contradiction.
  - destruct (stopped_at_events _ _ _ _ H Hin) as (c' & o' & E & _ & [-> | ->]);
      inversion E; subst; auto. now elim Ho.
  - destruct (stopped_at_events _ _ _ _ H Hin) as (c' & o' & E & _ & [-> | ->]);
      inversion E; subst; auto. now elim Ho.
Qed.





(* ================================================================= *)
(** ** The stretch from parsing to rule building *)

Lemma parse_returns (e : env) (w : world) :
  exists m, fst (parse_mmdb_to_country_ipranges e w) = Ret m.
Proof.
  unfold parse_mmdb_to_country_ipranges, open_database, try_except,
    except_Exception, bind, emit, ask, get_fs, ret, raise.
  simpl. destruct (maxminddb_installed e); simpl; eauto.
  destruct (mmdb (fs w)) as [[h [recs |]] |]; simpl; eauto.
Qed.

Lemma swallow_all_result (m : M unit) (e : env) (w : world) :
  fst ((try_except m (except_Exception (ret tt)) ;;; ret true) e w) = Ret true \/
  fst ((try_except m (except_Exception (ret tt)) ;;; ret true) e w) = OutOfFuel.
Proof.
  unfold try_except, except_Exception, bind, ret.
  destruct (m e w) as [[[] | x |] w1]; simpl; auto.
Qed.

(** Cleanup either returns [True] or is still running: it never raises and
    never returns [False]. *)
Lemma cleanup_existing_ipsets_result (fuel : nat) (e : env) (w : world) :
  fst (cleanup_existing_ipsets fuel e w) = Ret true \/
  fst (cleanup_existing_ipsets fuel e w) = OutOfFuel.
Proof. unfold cleanup_existing_ipsets. apply swallow_all_result. Qed.

(** The events of [smart_update_rebuild], phase by phase; a set command
    that fails ends the run before any rule is built. *)
Lemma smart_update_rebuild_phases (fuel : nat) (e : env) (w : world) :
  exists tp tc ta ts,
    trace (snd (smart_update_rebuild fuel e w))
    = (trace w ++ tp ++ tc ++ ta ++ ts)%list /\
    Forall is_parse_event tp /\ Forall is_cleanup_event tc /\
    Forall is_set_step ta /\ Forall is_setup_event ts /\
    (forall c o, In (Exec c o) ta -> o <> Ok ->
       ts = [] /\
       ((o = Rejected /\ fst (smart_update_rebuild fuel e w) = Ret false) \/
        (o = Crash /\ fst (smart_update_rebuild fuel e w) = Raise OSError))).
Proof.
  unfold smart_update_rebuild, bind.
  destruct (parse_mmdb_to_country_ipranges_frame e w) as (_ & _ & tp & Ep & Pp).
  destruct (parse_returns e w) as (m & Hm).
  destruct (parse_mmdb_to_country_ipranges e w) as [rp w1]. simpl in Ep, Hm.
  subst rp. destruct m as [| item rest].
  { exists tp, [], [], []. simpl. rewrite !app_nil_r.
    repeat split; auto. all: contradiction. }
  set (m := item :: rest).
  destruct (cleanup_existing_ipsets_frame fuel e w1) as (_ & _ & tc & Ec & Pc).
  destruct (cleanup_existing_ipsets_result fuel e w1) as [Hc | Hc];
    destruct (cleanup_existing_ipsets fuel e w1) as [rc w2];
    simpl in Ec, Hc; subst rc.
  2: { exists tp, tc, [], []. simpl. rewrite !app_nil_r, Ec, Ep, <- app_assoc.
       repeat split; auto. all: contradiction. }
  destruct (apply_native_ipset_frame m e w2) as (_ & _ & ta & Ea & Pa).
  destruct (apply_native_ipset_runs m e w2) as (ta' & Ea' & Sa).
  assert (ta' = ta) by (rewrite Ea in Ea'; now apply app_inv_head in Ea').
  subst ta'.
  destruct (apply_native_ipset m e w2) as [ra w3]. simpl in Ea, Sa. clear Ea'.
  assert (Et : trace w3 = (trace w ++ tp ++ tc ++ ta)%list).
  { rewrite Ea, Ec, Ep, <- !app_assoc. reflexivity. }
  destruct ra as [[|] | x |]; simpl in *.
  - destruct (setup_firewall_rules_frame CONFIG.ALLOWED_COUNTRIES e w3)
      as (_ & _ & ts & Es & Ps).
    exists tp, tc, ta, ts. split.
    { destruct (setup_firewall_rules CONFIG.ALLOWED_COUNTRIES e w3)
        as [[[|] | y |] w4]; simpl in *; rewrite Es, Et, <- !app_assoc; reflexivity. }
    repeat split; auto.
    all: subst ta;
      match goal with H : In _ (ok_events _) |- _ => apply in_ok_events in H; destruct H end;
      contradiction.
  - exists tp, tc, ta, []. rewrite !app_nil_r. repeat split; auto.
    destruct (reported_run_failure _ (Ret false) _ _ _ Sa H H0) as [[? _] | [_ ?]];
      [auto | discriminate].
  - exists tp, tc, ta, []. rewrite !app_nil_r. repeat split; auto.
    destruct x; try contradiction.
    destruct (reported_run_failure _ (Raise OSError) _ _ _ Sa H H0)
      as [[_ ?] | [? _]]; [discriminate | auto].
  - contradiction.
Qed.

Lemma smart_update_phases (fuel : nat) (e : env) (f : files) (k : kernel) :
  exists tq tp tc ta ts,
    trace (snd (smart_update fuel e (boot f k)))
    = (tq ++ tp ++ tc ++ ta ++ ts)%list /\
    Forall is_acquire_event tq /\
    Forall is_parse_event tp /\ Forall is_cleanup_event tc /\
    Forall is_set_step ta /\ Forall is_setup_event ts /\
    (forall c o, In (Exec c o) ta -> o <> Ok ->
       ts = [] /\
       ((o = Rejected /\ fst (smart_update fuel e (boot f k)) = Ret false) \/
        (o = Crash /\ fst (smart_update fuel e (boot f k)) = Raise OSError))).
Proof.
  unfold smart_update, bind.
  destruct (smart_update_acquire_frame e (boot f k)) as (_ & _ & tq & Eq & Pq).
  simpl in Eq.
  destruct (smart_update_acquire e (boot f k)) as [[[b |] | x |] w1];
    simpl in Eq |- *.
  2: { destruct (smart_update_rebuild_phases fuel e w1)
         as (tp & tc & ta & ts & E & H).
       exists tq, tp, tc, ta, ts. rewrite E, Eq. split; auto. }
  all: exists tq, [], [], [], []; rewrite !app_nil_r;
    repeat split; auto; contradiction.
Qed.

(** C6: a create, flush or bulk-load command that fails makes
    [apply_native_ipset] report failure ([False] for a rejected command; an
    [OSError] when the command cannot be started), the run then fails with
    exit status 1, and no command of [setup_firewall_rules] is issued in
    that run. *)
Theorem C6_failed_set_step_aborts_run :
  (forall m e w, exists t,
     trace (snd (apply_native_ipset m e w)) = (trace w ++ t)%list /\
     forall c o, In (Exec c o) t -> o <> Ok ->
       (o = Rejected /\ fst (apply_native_ipset m e w) = Ret false) \/
       (o = Crash /\ fst (apply_native_ipset m e w) = Raise OSError)) /\
  (forall fuel e f k c o,
     let r := smart_update fuel e (boot f k) in
     is_set_step (Exec c o) -> In (Exec c o) (trace (snd r)) -> o <> Ok ->
     ((o = Rejected /\ fst r = Ret false) \/
      (o = Crash /\ fst r = Raise OSError)) /\
     fst (main fuel e (boot f k)) = Some 1 /\
     Forall (fun ev => ~ is_setup_event ev) (trace (snd r))).
Proof.
  split.
  - intros m e w. destruct (apply_native_ipset_runs m e w) as (t & E & S).
    exists t. split; auto. intros c o Hin Ho.
    eapply reported_run_failure; eauto.
  - intros fuel e f k c o r Hstep Hin Ho. subst r.
    destruct (smart_update_phases fuel e f k)
      as (tq & tp & tc & ta & ts & E & Pq & Pp & Pc & Pa & Ps & Hfail).
    rewrite E in Hin |- *.
    assert (Hta : In (Exec c o) ta).
    { repeat (apply in_app_or in Hin; destruct Hin as [Hin | Hin]); auto;
        exfalso;
        match goal with
        | P : Forall _ ?l, H : In _ ?l |- _ =>
            rewrite Forall_forall in P; specialize (P _ H)
        end; destruct c; simpl in *; contradiction. }
    destruct (Hfail c o Hta Ho) as (Hts & Hr). subst ts.
    split; [exact Hr |]. split.
    + unfold main. destruct (smart_update fuel e (boot f k)) as [r0 w'].
      simpl in Hr. destruct Hr as [[_ ->] | [_ ->]]; reflexivity.
    + rewrite app_nil_r. repeat (apply Forall_app; split).
      * eapply Forall_impl; [| exact Pq]. intros [[] ? | | | |]; simpl; tauto.
      * eapply Forall_impl; [| exact Pp]. intros [[] ? | | | |]; simpl; tauto.
      * eapply Forall_impl; [| exact Pc]. intros [[] ? | | | |]; simpl; tauto.
      * eapply Forall_impl; [| exact Pa]. intros [[] ? | | | |]; simpl; tauto.
Qed.

(* ================================================================= *)
(** ** Cleanup: a refused deletion is retried for ever *)

Lemma stuck_turn (w : world) (k : bool -> M unit) :
  kern w = Scenario.march_kernel ->
  exists w',
    kern w' = Scenario.march_kernel /\
    (result <- subprocess_run (IptList Inet) ;;
     found <- scan_and_delete Inet "geoip-firewall-drop" (stdout result) ;;
     k found) Stuck.april_delete_refused w
    = k true Stuck.april_delete_refused w'.
Proof.
  destruct w as [f kk a t]. simpl. intros ->.
  eexists. split; [| vm_compute; reflexivity]. reflexivity.
Qed.

Lemma stuck_delete_tagged (fuel : nat) (w : world) :
  kern w = Scenario.march_kernel ->
  fst (delete_tagged fuel Inet "geoip-firewall-drop"
         Stuck.april_delete_refused w) = OutOfFuel.
Proof.
  revert w. induction fuel as [| n IH]; intros w Hk; [reflexivity |].
  cbn [delete_tagged].
  destruct (stuck_turn w
              (fun found => if found
                            then delete_tagged n Inet "geoip-firewall-drop"
                            else ret tt) Hk) as (w' & Hk' & E).
  rewrite E. now apply IH.
Qed.

Lemma cleanup_blocked_by_first_loop (fuel : nat) (e : env) (w : world) :
  fst (delete_tagged fuel Inet "geoip-firewall-drop" e w) = OutOfFuel ->
  fst (cleanup_existing_ipsets fuel e w) = OutOfFuel.
Proof.
  intros H. unfold cleanup_existing_ipsets, try_except, bind.
  cbn [for_each]. unfold bind.
  destruct (delete_tagged fuel Inet "geoip-firewall-drop" e w) as [r w1].
  simpl in H. subst r. reflexivity.
Qed.

(** C10 fails on the code: where the listing shows a tagged rule and its
    deletion is refused every time, the first rescan loop of
    [cleanup_existing_ipsets] never ends: no amount of fuel lets the
    function return, and the run that called it never exits. *)
Theorem C10_refused_deletion_never_returns :
  (forall fuel,
     fst (cleanup_existing_ipsets fuel Stuck.april_delete_refused
            (boot Scenario.march_files Scenario.march_kernel)) = OutOfFuel) /\
  (forall fuel,
     fst (smart_update fuel Stuck.april_delete_refused
            (boot Scenario.march_files Scenario.march_kernel)) = OutOfFuel /\
     fst (main fuel Stuck.april_delete_refused
            (boot Scenario.march_files Scenario.march_kernel)) = None).
Proof.
  split.
  - intros fuel. apply cleanup_blocked_by_first_loop, stuck_delete_tagged.
    reflexivity.
  - intros fuel.
    assert (E : fst (smart_update fuel Stuck.april_delete_refused
                       (boot Scenario.march_files Scenario.march_kernel))
                = OutOfFuel).
    { unfold smart_update, bind.
      destruct (smart_update_acquire Stuck.april_delete_refused
                  (boot Scenario.march_files Scenario.march_kernel))
        as [ra w1] eqn:Ea.
      vm_compute in Ea. inversion Ea; subst ra w1; clear Ea.
      unfold smart_update_rebuild, bind.
      match goal with
      | |- context [parse_mmdb_to_country_ipranges ?e ?w] =>
          destruct (parse_mmdb_to_country_ipranges e w) as [rp w2] eqn:Ep
      end.
      vm_compute in Ep. inversion Ep; subst rp w2; clear Ep.
      match goal with
      | |- context [cleanup_existing_ipsets fuel ?e ?w] =>
          pose proof (cleanup_blocked_by_first_loop fuel e w
                        (stuck_delete_tagged fuel w eq_refl)) as Hc;
          destruct (cleanup_existing_ipsets fuel e w) as [rc w3]
      end.
      simpl in Hc. subst rc. reflexivity. }
    split; [exact E |].
    unfold main.
    destruct (smart_update fuel _ _) as [r w']. simpl in E. now subst r.
Qed.

(* ================================================================= *)
(** ** Cleanup when every command succeeds *)

Lemma bind_eq {A B} (m : M A) (k : A -> M B) (e : env) (w w' : world) (a : A) :
  m e w = (Ret a, w') -> bind m k e w = k a e w'.
Proof. intros H. unfold bind. now rewrite H. Qed.

Lemma try_except_ret {A} (m : M A) (h : exn -> option (M A)) (e : env)
  (w w' : world) (a : A) :
  m e w = (Ret a, w') -> try_except m h e w = (Ret a, w').
Proof. intros H. unfold try_except. now rewrite H. Qed.

Lemma shrinks_refl (w : world) : shrinks w w.
Proof. unfold shrinks; repeat split; auto. Qed.

Lemma shrinks_trans (a b c : world) : shrinks a b -> shrinks b c -> shrinks a c.
Proof.
  unfold shrinks. intros (F1 & A1 & S1 & L1 & M1) (F2 & A2 & S2 & L2 & M2).
  repeat split; try congruence; lia.
Qed.

Lemma length_remove_at {A} (i : nat) (l : list A) :
  i < List.length l -> S (List.length (Kernel.remove_at i l)) = List.length l.
Proof.
  revert i; induction l as [| x l IH]; intros i H; simpl in *; [lia |].
  destruct i; simpl; auto. rewrite IH; auto. lia.
Qed.

Lemma subprocess_run_ok (c : cmd) (e : env) (w : world) :
  all_commands_ok e ->
  subprocess_run c e w =
  (let '(ok, out, k') := Kernel.exec c (kern w) in
   (Ret {| returncode_ok := ok; stdout := out |},
    log_event (Exec c (if ok then Ok else Rejected)) (set_kern k' w))).
Proof. intros H. unfold subprocess_run. now rewrite H. Qed.

Lemma numbered_line (i : nat) (r : rule) :
  (str i ++ "    " ++ Kernel.rule_text r)%string
  = (str i ++ String " " ("   " ++ Kernel.rule_text r))%string.
Proof. reflexivity. Qed.

(** One deletion that succeeds: the chain loses the rule at that line. *)
Lemma delete_line_ok (fam : family) (i : nat) (e : env) (w : world) :
  all_commands_ok e ->
  1 <= i <= List.length (chain fam (kern w)) ->
  exists w',
    subprocess_run (IptDelete fam (str i)) e w
    = (Ret {| returncode_ok := true; stdout := [""] |}, w') /\
    shrinks w w' /\
    List.length (chain fam (kern w')) < List.length (chain fam (kern w)).
Proof.
  intros Hok Hi. rewrite subprocess_run_ok by assumption.
  unfold Kernel.exec. rewrite int_of_str.
  assert (Hb : ((1 <=? i)%nat && (i <=? List.length (chain fam (kern w)))%nat)
               = true).
  { apply andb_true_iff. split; apply Nat.leb_le; lia. }
  rewrite Hb. eexists. split; [reflexivity |].
  assert (Hl : S (List.length (Kernel.remove_at (i - 1) (chain fam (kern w))))
               = List.length (chain fam (kern w))).
  { apply length_remove_at. lia. }
  destruct fam; unfold shrinks; simpl in *; repeat split; auto; lia.
Qed.

Lemma scan_numbered_ok (fam : family) (tag : string) (e : env)
  (rules : list rule) :
  all_commands_ok e -> contains tag "" = false ->
  forall i w,
    1 <= i -> i + List.length rules <= S (List.length (chain fam (kern w))) ->
    exists found w',
      scan_and_delete fam tag (Kernel.numbered i rules ++ [""]) e w
      = (Ret found, w') /\
      shrinks w w' /\
      (found = true ->
       List.length (chain fam (kern w')) < List.length (chain fam (kern w))).
Proof.
  intros Hok Htag. induction rules as [| r rest IH]; intros i w Hi Hlen.
  - change (Kernel.numbered i [] ++ [""])%list with [""].
    cbn [scan_and_delete]. rewrite Htag.
    exists false, w.
    split; [reflexivity | split; [apply shrinks_refl | discriminate]].
  - change (Kernel.numbered i (r :: rest) ++ [""])%list
      with ((str i ++ "    " ++ Kernel.rule_text r)
              :: (Kernel.numbered (S i) rest ++ [""])%list).
    cbn [scan_and_delete].
    destruct (contains tag (str i ++ "    " ++ Kernel.rule_text r)).
    + rewrite numbered_line, split_first_numbered, isdigit_str.
      simpl in Hlen.
      destruct (delete_line_ok fam i e w Hok) as (w' & E & Hs & Hl); [lia |].
      unfold bind. rewrite E. exists true, w'.
      split; [reflexivity | split; [exact Hs | intros _; exact Hl]].
    + apply IH; simpl in Hlen; lia.
Qed.

Lemma scan_skip_line (fam : family) (tag line first : string)
  (rest : list string) :
  split_first line = Some first -> isdigit first = false ->
  scan_and_delete fam tag (line :: rest) = scan_and_delete fam tag rest.
Proof.
  intros H1 H2. simpl. rewrite H1, H2. destruct (contains tag line); reflexivity.
Qed.

Lemma list_rules_lines (c : list rule) :
  Kernel.list_rules c
  = "Chain INPUT (policy ACCEPT)"
    :: "num  target     prot opt source               destination"
    :: (Kernel.numbered 1 c ++ [""])%list.
Proof. reflexivity. Qed.

Lemma scan_listing_ok (fam : family) (tag : string) (e : env) (w : world) :
  all_commands_ok e -> contains tag "" = false ->
  exists found w',
    scan_and_delete fam tag (Kernel.list_rules (chain fam (kern w))) e w
    = (Ret found, w') /\
    shrinks w w' /\
    (found = true ->
     List.length (chain fam (kern w')) < List.length (chain fam (kern w))).
Proof.
  intros Hok Htag. rewrite list_rules_lines.
  rewrite (scan_skip_line fam tag _ "Chain") by reflexivity.
  rewrite (scan_skip_line fam tag _ "num") by reflexivity.
  apply scan_numbered_ok; auto; simpl; lia.
Qed.

Lemma delete_tagged_ok (fam : family) (tag : string) (e : env) :
  all_commands_ok e -> contains tag "" = false ->
  forall fuel w,
    List.length (chain fam (kern w)) < fuel ->
    exists w',
      delete_tagged fuel fam tag e w = (Ret tt, w') /\ shrinks w w'.
Proof.
  intros Hok Htag. induction fuel as [| n IH]; intros w Hlen; [lia |].
  cbn [delete_tagged]. unfold bind at 1.
  rewrite subprocess_run_ok by assumption. cbn [Kernel.exec].
  set (w1 := log_event _ _).
  assert (Hk : kern w1 = kern w) by (destruct w; reflexivity).
  assert (H1 : shrinks w w1).
  { unfold shrinks, w1. destruct w; simpl. repeat split; auto. }
  cbn [stdout]. rewrite <- Hk.
  destruct (scan_listing_ok fam tag e w1 Hok Htag) as (found & w2 & E & H2 & Hl).
  unfold bind. rewrite E. destruct found.
  - destruct (IH w2) as (w3 & E3 & H3).
    { specialize (Hl eq_refl). rewrite Hk in Hl. lia. }
    exists w3. split; [exact E3 |].
    exact (shrinks_trans _ _ _ (shrinks_trans _ _ _ H1 H2) H3).
  - exists w2. split; [reflexivity |]. exact (shrinks_trans _ _ _ H1 H2).
Qed.

Lemma filter_filter_name (p q : ipset -> bool) (l : list ipset) :
  filter q (filter p l) = filter (fun s => p s && q s) l.
Proof.
  induction l as [| x l IH]; simpl; auto.
  destruct (p x); simpl; [destruct (q x) |]; rewrite IH; reflexivity.
Qed.

Lemma filter_absent_name (name : string) (l : list ipset) :
  existsb (fun s => set_name s =? name) l = false ->
  filter (fun s => negb (set_name s =? name)) l = l.
Proof.
  induction l as [| x l IH]; simpl; auto.
  intros H. apply orb_false_iff in H. destruct H as [H1 H2].
  rewrite H1. simpl. now rewrite IH.
Qed.

Lemma destroy_ok (name : string) (e : env) (w : world) :
  all_commands_ok e ->
  exists p w',
    subprocess_run (IpsetDestroy name) e w = (Ret p, w') /\
    fs w' = fs w /\ ALL_COUNTRIES w' = ALL_COUNTRIES w /\
    INPUT4 (kern w') = INPUT4 (kern w) /\ INPUT6 (kern w') = INPUT6 (kern w) /\
    ipsets (kern w')
    = filter (fun s => negb (set_name s =? name)) (ipsets (kern w)).
Proof.
  intros Hok. rewrite subprocess_run_ok by assumption.
  unfold Kernel.exec, Kernel.has_set.
  destruct (existsb (fun s => set_name s =? name) (ipsets (kern w))) eqn:E.
  - eexists _, _. split; [reflexivity |]. simpl. repeat split; auto.
  - eexists _, _. split; [reflexivity |]. simpl. repeat split; auto.
    now rewrite filter_absent_name.
Qed.

Lemma destroy_each_ok (names : list string) (e : env) :
  all_commands_ok e ->
  forall w, exists w',
    for_each names
      (fun set_name => subprocess_run (IpsetDestroy set_name) ;;; ret tt) e w
    = (Ret tt, w') /\
    fs w' = fs w /\ ALL_COUNTRIES w' = ALL_COUNTRIES w /\
    INPUT4 (kern w') = INPUT4 (kern w) /\ INPUT6 (kern w') = INPUT6 (kern w) /\
    ipsets (kern w')
    = filter (fun s => negb (mem (set_name s) names)) (ipsets (kern w)).
Proof.
  intros Hok. induction names as [| name rest IH]; intros w.
  - exists w. simpl. repeat split; auto.
    induction (ipsets (kern w)) as [| x l IHl]; simpl; congruence.
  - cbn [for_each]. unfold bind at 1 2.
    destruct (destroy_ok name e w Hok) as (p & w1 & E & F1 & A1 & I4 & I6 & S1).
    rewrite E. cbn [ret].
    destruct (IH w1) as (w2 & E2 & F2 & A2 & J4 & J6 & S2).
    exists w2. split; [exact E2 |]. repeat split; try congruence.
    rewrite S2, S1, filter_filter_name. apply filter_ext. intros s.
    unfold mem. simpl. now rewrite negb_orb.
Qed.

Lemma mem_geoip_names (sets : list ipset) (s : ipset) :
  In s sets ->
  mem (set_name s) (filter is_geoip_set (map set_name sets ++ [""]))
  = is_geoip_set (set_name s).
Proof.
  intros Hin. destruct (is_geoip_set (set_name s)) eqn:E.
  - apply mem_In. apply filter_In. split; auto.
    apply in_or_app. left. now apply in_map.
  - destruct (mem (set_name s) _) eqn:M; auto.
    apply mem_In in M. apply filter_In in M. destruct M. congruence.
Qed.

(** With every command succeeding and fuel beyond the length of both
    chains, cleanup returns and has destroyed every set of this system's
    naming convention. *)
Lemma cleanup_existing_ipsets_ok (fuel : nat) (e : env) (w : world) :
  all_commands_ok e ->
  List.length (INPUT4 (kern w)) < fuel ->
  List.length (INPUT6 (kern w)) < fuel ->
  exists w',
    cleanup_existing_ipsets fuel e w = (Ret true, w') /\
    fs w' = fs w /\ ALL_COUNTRIES w' = ALL_COUNTRIES w /\
    ipsets (kern w')
    = filter (fun s => negb (is_geoip_set (set_name s))) (ipsets (kern w)).
Proof.
  intros Hok L4 L6.
  destruct (delete_tagged_ok Inet "geoip-firewall-drop" e Hok eq_refl fuel w L4)
    as (w1 & E1 & (F1 & A1 & S1 & M1 & N1)).
  destruct (delete_tagged_ok Inet "geoip-firewall" e Hok eq_refl fuel w1)
    as (w2 & E2 & (F2 & A2 & S2 & M2 & N2)); [simpl; lia |].
  destruct (delete_tagged_ok Inet6 "geoip-firewall-drop" e Hok eq_refl fuel w2)
    as (w3 & E3 & (F3 & A3 & S3 & M3 & N3)); [simpl; lia |].
  destruct (delete_tagged_ok Inet6 "geoip-firewall" e Hok eq_refl fuel w3)
    as (w4 & E4 & (F4 & A4 & S4 & M4 & N4)); [simpl; lia |].
  assert (B1 : (delete_tagged fuel Inet "geoip-firewall-drop" ;;;
                delete_tagged fuel Inet "geoip-firewall") e w = (Ret tt, w2)).
  { erewrite bind_eq by exact E1. exact E2. }
  assert (B2 : (delete_tagged fuel Inet6 "geoip-firewall-drop" ;;;
                delete_tagged fuel Inet6 "geoip-firewall") e w2 = (Ret tt, w4)).
  { erewrite bind_eq by exact E3. exact E4. }
  set (w5 := log_event (Exec IpsetListNames Ok) w4).
  destruct (destroy_each_ok
              (filter is_geoip_set (map set_name (ipsets (kern w4)) ++ [""]))
              e Hok w5) as (w6 & E6 & F6 & A6 & _ & _ & S6).
  assert (K5 : kern w5 = kern w4) by (destruct w4; reflexivity).
  assert (F5 : fs w5 = fs w4) by (destruct w4; reflexivity).
  assert (A5 : ALL_COUNTRIES w5 = ALL_COUNTRIES w4) by (destruct w4; reflexivity).
  assert (B3 : subprocess_run IpsetListNames e w4
               = (Ret {| returncode_ok := true;
                         stdout := (map set_name (ipsets (kern w4)) ++ [""])%list |},
                  w5)).
  { rewrite subprocess_run_ok by assumption. unfold w5. destruct w4; reflexivity. }
  exists w6. split.
  - unfold cleanup_existing_ipsets. erewrite bind_eq; [reflexivity |].
    apply try_except_ret. cbn [for_each].
    erewrite bind_eq; [| erewrite bind_eq by exact B1;
                         erewrite bind_eq by exact B2; reflexivity].
    erewrite bind_eq by exact B3. exact E6.
  - repeat split; try congruence.
    rewrite S6, K5.
    assert (HS : ipsets (kern w4) = ipsets (kern w)) by congruence.
    rewrite HS. apply filter_ext_in. intros s Hs.
    now rewrite mem_geoip_names.
Qed.

Lemma geoip_set_names (c : string) :
  is_geoip_set (set_name_v4 c) = true /\ is_geoip_set (set_name_v6 c) = true.
Proof.
  unfold is_geoip_set.
  rewrite startswith_set_name_v4, startswith_set_name_v6. auto.
Qed.

(** C7 (as the code has it): cleanup does not look at the new map.  When
    its commands succeed it returns with exactly the sets left whose names
    do not start with [country-] or [geoip-]: every set of this system is
    destroyed, those of countries still in the new map included, and sets
    of other systems are kept. *)
Theorem C7_cleanup_destroys_every_named_set (fuel : nat) (e : env) (w : world) :
  all_commands_ok e ->
  List.length (INPUT4 (kern w)) < fuel ->
  List.length (INPUT6 (kern w)) < fuel ->
  exists w',
    cleanup_existing_ipsets fuel e w = (Ret true, w') /\
    ipsets (kern w')
    = filter (fun s => negb (is_geoip_set (set_name s))) (ipsets (kern w)) /\
    (forall c s, In s (ipsets (kern w')) ->
       set_name s <> set_name_v4 c /\ set_name s <> set_name_v6 c) /\
    (forall s, In s (ipsets (kern w)) -> is_geoip_set (set_name s) = false ->
       In s (ipsets (kern w'))).
Proof.
  intros Hok L4 L6.
  destruct (cleanup_existing_ipsets_ok fuel e w Hok L4 L6)
    as (w' & E & _ & _ & S).
  exists w'. split; [exact E |]. split; [exact S |]. split.
  - intros c s Hin. rewrite S in Hin. apply filter_In in Hin.
    destruct Hin as [_ Hn]. apply negb_true_iff in Hn.
    destruct (geoip_set_names c) as [H4 H6].
    split; intros Heq; rewrite Heq in Hn; congruence.
  - intros s Hin Hn. rewrite S. apply filter_In. split; auto.
    now rewrite Hn.
Qed.

Lemma C7_witness :
  exists w',
    cleanup_existing_ipsets 20 Scenario.quiet_march
      (boot Scenario.march_files Scenario.march_kernel) = (Ret true, w') /\
    ipsets (kern w') = [].
Proof.
  destruct (C7_cleanup_destroys_every_named_set 20 Scenario.quiet_march
              (boot Scenario.march_files Scenario.march_kernel))
    as (w' & E & S & _).
  - intros n c. reflexivity.
  - simpl. lia.
  - simpl. lia.
  - exists w'. split; [exact E |]. rewrite S. reflexivity.
Defined.

(** C7 (as stated) fails: in the April update the address set of KR, a
    country of the new map, is destroyed by cleanup and created again
    afterwards. *)
Lemma C7_counterexample_repopulated_set_destroyed :
  let r := smart_update 20 Scenario.april_update
             (boot Scenario.march_files Scenario.march_kernel) in
  fst r = Ret true /\
  In "KR" (ALL_COUNTRIES (snd r)) /\
  In (Exec (IpsetDestroy "country-KR") Ok) (trace (snd r)) /\
  In (Exec (IpsetCreate "country-KR" Inet 1) Ok) (trace (snd r)).
Proof.
  vm_compute.
  repeat split; repeat (first [left; reflexivity | right]).
Qed.

(* ================================================================= *)
(** ** The theorems at work on the scenarios *)

Lemma C3_witness :
  exists w',
    smart_update 0 Scenario.quiet_march
      (boot Scenario.march_files Scenario.march_kernel) = (Ret true, w') /\
    kern w' = Scenario.march_kernel /\ fs w' = Scenario.march_files.
Proof.
  destruct (C3_steady_state_unchanged_is_noop 0 Scenario.quiet_march
              Scenario.march_files Scenario.march_kernel)
    as (w' & E & _ & K & F & _).
  - reflexivity.
  - eexists. split; [left; reflexivity | reflexivity].
  - discriminate.
  - simpl. eexists. split; reflexivity.
  - exists w'. auto.
Defined.

Lemma C8_witness :
  fst (smart_update 5 Faults.no_maxminddb
         (boot Scenario.march_files Scenario.empty_kernel)) = Ret false /\
  fst (main 5 Faults.no_maxminddb
         (boot Scenario.march_files Scenario.empty_kernel)) = Some 1.
Proof.
  destruct (proj2 C8_unreadable_database_is_hard_failure 5 Faults.no_maxminddb
              Scenario.march_files Scenario.empty_kernel) as (R & X & _).
  - vm_compute. repeat (first [left; reflexivity | right]).
  - left. reflexivity.
  - split; assumption.
Defined.

Lemma C6_witness :
  fst (smart_update 20 Faults.april_flush_rejected
         (boot Scenario.march_files Scenario.march_kernel)) = Ret false /\
  Forall (fun ev => ~ is_setup_event ev)
    (trace (snd (smart_update 20 Faults.april_flush_rejected
                   (boot Scenario.march_files Scenario.march_kernel)))).
Proof.
  destruct (proj2 C6_failed_set_step_aborts_run 20 Faults.april_flush_rejected
              Scenario.march_files Scenario.march_kernel
              (IpsetFlush "country-KR") Rejected) as (R & _ & S).
  - exact I.
  - vm_compute. repeat (first [left; reflexivity | right]).
  - discriminate.
  - split; [| exact S].
    destruct R as [[_ R] | [R _]]; [exact R | discriminate R].
Defined.

(* ================================================================= *)
(** ** Rule chain builder: what it appends, in which order *)

Module ChainFacts.
Import Chain.

Lemma prefix_of_refl {A} (l : list A) : prefix_of l l.
Proof. exists []. now rewrite app_nil_r. Qed.

Lemma prefix_of_nil {A} (l : list A) : prefix_of [] l.
Proof. exists l. reflexivity. Qed.

Lemma prefix_of_app_l {A} (a f g : list A) :
  prefix_of a f -> prefix_of a (f ++ g).
Proof. intros (r & ->). exists (r ++ g)%list. now rewrite app_assoc. Qed.

Lemma prefix_of_app_r {A} (a f g : list A) :
  prefix_of a g -> prefix_of (f ++ a) (f ++ g).
Proof. intros (r & ->). exists r. now rewrite app_assoc. Qed.

Lemma appended_refl (w : world) : appended w w [] [].
Proof. unfold appended. rewrite !app_nil_r. auto. Qed.

Lemma appended_trans (a b c : world) (x4 x6 y4 y6 : list rule) :
  appended a b x4 x6 -> appended b c y4 y6 ->
  appended a c (x4 ++ y4) (x6 ++ y6).
Proof.
  unfold appended. intros (A4 & A6 & AS & AC) (B4 & B6 & BS & BC).
  rewrite B4, B6, A4, A6, !app_assoc. repeat split; congruence.
Qed.

Lemma builds_weaken {A} (good : A -> bool) (m : M A) (S S' : outcomes) :
  (forall ac f4 f6, S ac f4 f6 -> S' ac f4 f6) ->
  builds good m S -> builds good m S'.
Proof.
  intros HS H e w. destruct (H e w) as (a4 & a6 & f4 & f6 & Ha & Hs & R).
  exists a4, a6, f4, f6. auto.
Qed.

Ltac builds_parts := split; [| split; [| split; [| split]]].

Ltac builds_leaf :=
  builds_parts;
  [ first [ apply appended_refl
          | unfold appended; simpl; rewrite ?app_nil_r; auto ]
  | unfold nothing, exactly, one; simpl; auto
  | auto using prefix_of_refl, prefix_of_nil
  | auto using prefix_of_refl, prefix_of_nil
  | simpl; intros; first [contradiction | discriminate | auto] ].

Lemma builds_ret {A} (good : A -> bool) (a : A) : builds good (ret a) nothing.
Proof. intros e w. exists [], [], [], []. builds_leaf. Qed.

Lemma builds_bind {A B} (good : B -> bool) (m : M A) (k : A -> M B)
  (S1 S2 : outcomes) :
  builds (fun _ => true) m S1 -> (forall a, builds good (k a) S2) ->
  inhabited S2 ->
  builds good (bind m k) (seq S1 S2).
Proof.
  intros Hm Hk Hi e w. unfold bind.
  destruct (Hm e w) as (a4 & a6 & f4 & f6 & Ha & Hs & P4 & P6 & Hc).
  destruct (m e w) as [[a | x |] w1]; simpl in *.
  - destruct (Hc eq_refl) as [-> ->].
    assert (Hac : ALL_COUNTRIES w1 = ALL_COUNTRIES w) by apply Ha.
    destruct (Hk a e w1) as (b4 & b6 & g4 & g6 & Hb & Hs2 & Q4 & Q6 & Hd).
    rewrite Hac in Hs2.
    exists (f4 ++ b4)%list, (f6 ++ b6)%list, (f4 ++ g4)%list, (f6 ++ g6)%list.
    split; [eapply appended_trans; eauto |].
    split; [exists f4, f6, g4, g6; auto |].
    split; [now apply prefix_of_app_r |].
    split; [now apply prefix_of_app_r |].
    intros Hg. destruct (Hd Hg) as [-> ->]. auto.
  - destruct (Hi (ALL_COUNTRIES w)) as (g4 & g6 & Hs2).
    exists a4, a6, (f4 ++ g4)%list, (f6 ++ g6)%list.
    split; [exact Ha |].
    split; [exists f4, f6, g4, g6; auto |].
    split; [now apply prefix_of_app_l |].
    split; [now apply prefix_of_app_l |]. contradiction.
  - destruct (Hi (ALL_COUNTRIES w)) as (g4 & g6 & Hs2).
    exists a4, a6, (f4 ++ g4)%list, (f6 ++ g6)%list.
    split; [exact Ha |].
    split; [exists f4, f6, g4, g6; auto |].
    split; [now apply prefix_of_app_l |].
    split; [now apply prefix_of_app_l |]. contradiction.
Qed.

Lemma builds_and_then (a b : M bool) (S1 S2 : outcomes) :
  builds (fun ok => ok) a S1 -> builds (fun ok => ok) b S2 -> inhabited S2 ->
  builds (fun ok => ok) (a >>? b) (seq S1 S2).
Proof.
  intros Ha Hb Hi e w. unfold and_then, bind.
  destruct (Ha e w) as (a4 & a6 & f4 & f6 & Hap & Hs & P4 & P6 & Hc).
  destruct (a e w) as [[[|] | x |] w1]; simpl in *.
  - destruct (Hc eq_refl) as [-> ->].
    assert (Hac : ALL_COUNTRIES w1 = ALL_COUNTRIES w) by apply Hap.
    destruct (Hb e w1) as (b4 & b6 & g4 & g6 & Hbp & Hs2 & Q4 & Q6 & Hd).
    rewrite Hac in Hs2.
    exists (f4 ++ b4)%list, (f6 ++ b6)%list, (f4 ++ g4)%list, (f6 ++ g6)%list.
    split; [eapply appended_trans; eauto |].
    split; [exists f4, f6, g4, g6; auto |].
    split; [now apply prefix_of_app_r |].
    split; [now apply prefix_of_app_r |].
    intros Hg. destruct (Hd Hg) as [-> ->]. auto.
  - destruct (Hi (ALL_COUNTRIES w)) as (g4 & g6 & Hs2).
    exists a4, a6, (f4 ++ g4)%list, (f6 ++ g6)%list.
    split; [exact Hap |].
    split; [exists f4, f6, g4, g6; auto |].
    split; [now apply prefix_of_app_l |].
    split; [now apply prefix_of_app_l |]. discriminate.
  - destruct (Hi (ALL_COUNTRIES w)) as (g4 & g6 & Hs2).
    exists a4, a6, (f4 ++ g4)%list, (f6 ++ g6)%list.
    split; [exact Hap |].
    split; [exists f4, f6, g4, g6; auto |].
    split; [now apply prefix_of_app_l |].
    split; [now apply prefix_of_app_l |]. contradiction.
  - destruct (Hi (ALL_COUNTRIES w)) as (g4 & g6 & Hs2).
    exists a4, a6, (f4 ++ g4)%list, (f6 ++ g6)%list.
    split; [exact Hap |].
    split; [exists f4, f6, g4, g6; auto |].
    split; [now apply prefix_of_app_l |].
    split; [now apply prefix_of_app_l |]. contradiction.
Qed.

Lemma builds_guarded (m : M unit) (S : outcomes) :
  builds (fun _ => true) m S -> builds (fun ok => ok) (guarded m) S.
Proof.
  intros Hm e w. unfold guarded, try_except, except_CalledProcessError, bind, ret.
  destruct (Hm e w) as (a4 & a6 & f4 & f6 & Ha & Hs & P4 & P6 & Hc).
  exists a4, a6, f4, f6.
  destruct (m e w) as [[[] | x |] w1]; simpl in *.
  - auto 10.
  - destruct x; simpl; builds_parts; auto; try contradiction; discriminate.
  - auto 10.
Qed.

Lemma builds_append_rule (fam : family) (r : rule) :
  builds (fun _ => true) (append_rule fam r) (one fam r).
Proof.
  intros e w. unfold append_rule, subprocess_run_check, subprocess_run, bind,
    ret, raise.
  destruct (oracle e (List.length (trace w)) (IptAppend fam r)); simpl.
  - destruct fam; simpl.
    + exists [r], [], [r], []. builds_leaf.
    + exists [], [r], [], [r]. builds_leaf.
  - destruct fam; simpl.
    + exists [], [], [r], []. builds_leaf.
    + exists [], [], [], [r]. builds_leaf.
  - destruct fam; simpl.
    + exists [], [], [r], []. builds_leaf.
    + exists [], [], [], [r]. builds_leaf.
Qed.

Lemma builds_ipset_exists (name : string) :
  builds (fun _ => true) (ipset_exists name) nothing.
Proof.
  intros e w. unfold ipset_exists, subprocess_run, bind, ret.
  exists [], [], [], [].
  destruct (oracle e (List.length (trace w)) (IpsetListSet name)); simpl.
  - destruct (Kernel.has_set name (kern w)); simpl; builds_leaf.
  - builds_leaf.
  - builds_leaf.
Qed.

Lemma subseq_nil_l {A} (l : list A) : subseq [] l.
Proof. induction l; constructor; auto. Qed.

Lemma inhabited_nothing : inhabited nothing.
Proof. intros ac. exists [], []. split; auto. Qed.

Lemma inhabited_exactly (r4 r6 : list rule) : inhabited (exactly r4 r6).
Proof. intros ac. exists r4, r6. split; auto. Qed.

Lemma inhabited_one (fam : family) (r : rule) : inhabited (one fam r).
Proof. destruct fam; apply inhabited_exactly. Qed.

Lemma inhabited_optional (r4 r6 : list rule) : inhabited (optional r4 r6).
Proof. intros ac. exists [], []. split; auto. Qed.

Lemma inhabited_seq (S1 S2 : outcomes) :
  inhabited S1 -> inhabited S2 -> inhabited (seq S1 S2).
Proof.
  intros H1 H2 ac. destruct (H1 ac) as (x4 & x6 & Hx).
  destruct (H2 ac) as (y4 & y6 & Hy).
  exists (x4 ++ y4)%list, (x6 ++ y6)%list, x4, x6, y4, y6. auto.
Qed.

Lemma inhabited_some_of (g4 g6 : string -> list rule) (l : list string) :
  inhabited (some_of g4 g6 l).
Proof.
  intros ac. exists [], [], [], []. repeat split; apply subseq_nil_l.
Qed.

Create HintDb chain.

#[local] Hint Resolve inhabited_nothing inhabited_exactly inhabited_one
  inhabited_optional inhabited_seq inhabited_some_of : chain.

(** Two rules appended one after the other to one chain. *)
Lemma builds_pair (fam : family) (r1 r2 : rule) :
  builds (fun _ => true) (append_rule fam r1 ;;; append_rule fam r2)
    (match fam with
     | Inet => exactly [r1; r2] []
     | Inet6 => exactly [] [r1; r2]
     end).
Proof.
  eapply builds_weaken;
    [| apply builds_bind;
       [apply builds_append_rule | intros _; apply builds_append_rule
       | auto with chain]].
  intros ac f4 f6 (x4 & x6 & y4 & y6 & Hx & Hy & -> & ->).
  destruct fam; destruct Hx as [-> ->]; destruct Hy as [-> ->];
    split; reflexivity.
Qed.

Lemma builds_when_found (found : bool) (fam : family) (r1 r2 : rule) :
  builds (fun _ => true)
    (if found then append_rule fam r1 ;;; append_rule fam r2 else ret tt)
    (match fam with
     | Inet => optional [r1; r2] []
     | Inet6 => optional [] [r1; r2]
     end).
Proof.
  destruct found.
  - eapply builds_weaken; [| apply builds_pair].
    intros ac f4 f6. destruct fam; intros [-> ->]; split; auto.
  - eapply builds_weaken; [| apply builds_ret].
    intros ac f4 f6 [-> ->]. destruct fam; split; auto.
Qed.

Lemma builds_country (c : string) (log4 act4 log6 act6 : rule) :
  builds (fun _ => true)
    (ipv4_exists <- ipset_exists (set_name_v4 c) ;;
     (if ipv4_exists
      then append_rule Inet log4 ;;; append_rule Inet act4
      else ret tt) ;;;
     ipv6_exists <- ipset_exists (set_name_v6 c) ;;
     (if ipv6_exists
      then append_rule Inet6 log6 ;;; append_rule Inet6 act6
      else ret tt))
    (optional [log4; act4] [log6; act6]).
Proof.
  eapply builds_weaken;
    [| apply builds_bind;
       [ apply builds_ipset_exists
       | intros ex4; apply builds_bind;
         [ apply (builds_when_found ex4 Inet)
         | intros _; apply builds_bind;
           [ apply builds_ipset_exists
           | intros ex6; apply (builds_when_found ex6 Inet6)
           | auto with chain ]
         | auto with chain ]
       | auto with chain ]].
  intros ac f4 f6
    (x4 & x6 & y4 & y6 & [-> ->] & (u4 & u6 & v4 & v6 & [H4 H4'] &
       (p4 & p6 & q4 & q6 & [-> ->] & [H6 H6'] & -> & ->) & -> & ->) & -> & ->).
  simpl. split.
  - destruct H4 as [-> | ->], H6 as [-> | ->]; simpl; auto; discriminate.
  - destruct H4' as [-> | ->], H6' as [-> | ->]; simpl; auto; discriminate.
Qed.

Lemma builds_allow_country (c : string) :
  builds (fun _ => true) (allow_country c) (optional (allow4 c) (allow6 c)).
Proof. apply builds_country. Qed.

Lemma builds_block_country (c : string) :
  builds (fun _ => true) (block_country c) (optional (block4 c) (block6 c)).
Proof. apply builds_country. Qed.

Lemma builds_for_each_guarded (l : list string) (body : string -> M unit)
  (g4 g6 : string -> list rule) :
  (forall x, builds (fun _ => true) (body x) (optional (g4 x) (g6 x))) ->
  builds (fun ok => ok) (for_each_guarded l body) (some_of g4 g6 l).
Proof.
  intros Hb. induction l as [| x rest IH]; cbn [for_each_guarded].
  - eapply builds_weaken; [| apply builds_ret].
    intros ac f4 f6 [-> ->]. exists [], []. repeat split; constructor.
  - eapply builds_weaken;
      [| apply builds_and_then;
         [apply builds_guarded, Hb | exact IH | auto with chain]].
    intros ac f4 f6
      (x4 & x6 & y4 & y6 & [H4 H6] & (A4 & A6 & S4 & S6 & -> & ->) & -> & ->).
    destruct H4 as [-> | ->], H6 as [-> | ->];
      [ exists A4, A6 | exists A4, (x :: A6)
      | exists (x :: A4), A6 | exists (x :: A4), (x :: A6) ];
      simpl; repeat split; auto;
      first [apply subseq_take; assumption | apply subseq_skip; assumption].
Qed.

Lemma builds_private (fam : family) (l : list string) :
  builds (fun _ => true)
    (for_each l (fun network => append_rule fam (Rules.private network)))
    (match fam with
     | Inet => exactly (map Rules.private l) []
     | Inet6 => exactly [] (map Rules.private l)
     end).
Proof.
  induction l as [| n rest IH]; cbn [for_each].
  - eapply builds_weaken; [| apply builds_ret].
    intros ac f4 f6 [-> ->]. destruct fam; split; reflexivity.
  - eapply builds_weaken;
      [| apply builds_bind;
         [apply builds_append_rule | intros _; exact IH
         | destruct fam; auto with chain]].
    intros ac f4 f6 (x4 & x6 & y4 & y6 & Hx & Hy & -> & ->).
    destruct fam; destruct Hx as [-> ->]; destruct Hy as [-> ->];
      split; reflexivity.
Qed.

Lemma builds_both (m4 m6 : M unit) (r4 r6 : list rule) :
  builds (fun _ => true) m4 (exactly r4 []) ->
  builds (fun _ => true) m6 (exactly [] r6) ->
  builds (fun ok => ok) (guarded (m4 ;;; m6)) (exactly r4 r6).
Proof.
  intros H4 H6. apply builds_guarded.
  eapply builds_weaken;
    [| apply builds_bind; [exact H4 | intros _; exact H6 | auto with chain]].
  intros ac f4 f6 (x4 & x6 & y4 & y6 & [-> ->] & [-> ->] & -> & ->).
  split; simpl; auto using app_nil_r.
Qed.

Lemma builds_default :
  builds (fun ok => ok)
    (guarded (append_rule Inet Rules.default_log ;;;
              append_rule Inet Rules.default_drop ;;;
              append_rule Inet6 Rules.default_log ;;;
              append_rule Inet6 Rules.default_drop))
    (exactly [Rules.default_log; Rules.default_drop]
             [Rules.default_log; Rules.default_drop]).
Proof.
  apply builds_guarded.
  eapply builds_weaken;
    [| apply builds_bind;
       [ apply builds_append_rule
       | intros _; apply builds_bind;
         [ apply builds_append_rule
         | intros _; apply (builds_pair Inet6)
         | auto with chain ]
       | auto with chain ]].
  intros ac f4 f6
    (x4 & x6 & y4 & y6 & [-> ->] &
       (u4 & u6 & v4 & v6 & [-> ->] & [-> ->] & -> & ->) & -> & ->).
  split; reflexivity.
Qed.

(** The part of [setup_firewall_rules] after the private networks, for a
    given list of blocked countries. *)
Lemma builds_countries (allowed bl : list string) :
  builds (fun ok => ok)
    (for_each_guarded allowed allow_country >>?
     for_each_guarded bl block_country >>?
     guarded (append_rule Inet Rules.default_log ;;;
              append_rule Inet Rules.default_drop ;;;
              append_rule Inet6 Rules.default_log ;;;
              append_rule Inet6 Rules.default_drop))
    (seq (some_of allow4 allow6 allowed)
       (seq (some_of block4 block6 bl)
          (exactly [Rules.default_log; Rules.default_drop]
                   [Rules.default_log; Rules.default_drop]))).
Proof.
  apply builds_and_then;
    [ apply builds_for_each_guarded, builds_allow_country
    | apply builds_and_then;
      [ apply builds_for_each_guarded, builds_block_country
      | apply builds_default
      | auto with chain ]
    | auto with chain ].
Qed.

Lemma setup_firewall_rules_builds (allowed : list string) :
  builds (fun ok => ok) (setup_firewall_rules allowed) (complete allowed).
Proof.
  unfold setup_firewall_rules.
  eapply builds_weaken with
    (S := seq (exactly [Rules.stateful] [Rules.stateful])
            (seq (exactly [Rules.localhost] [Rules.localhost])
               (seq (exactly (map Rules.private CONFIG.PRIVATE_NETWORKS_V4)
                             (map Rules.private CONFIG.PRIVATE_NETWORKS_V6))
                  (fun ac =>
                     seq (some_of allow4 allow6 allowed)
                       (seq (some_of block4 block6 (blocked allowed ac))
                          (exactly [Rules.default_log; Rules.default_drop]
                                   [Rules.default_log; Rules.default_drop]))
                       ac)))).
  - intros ac f4 f6
      (s4 & s6 & t4 & t6 & [-> ->] &
         (l4 & l6 & u4 & u6 & [-> ->] &
            (p4 & p6 & v4 & v6 & [-> ->] &
               (a4 & a6 & c4 & c6 & (A4 & A6 & SA4 & SA6 & -> & ->) &
                  (b4 & b6 & d4 & d6 & (B4 & B6 & SB4 & SB6 & -> & ->) &
                     [-> ->] & -> & ->) & -> & ->) & -> & ->) & -> & ->) &
         -> & ->).
    exists A4, A6, B4, B6. repeat split; auto.
  - assert (Htail : inhabited
                      (fun ac =>
                         seq (some_of allow4 allow6 allowed)
                           (seq (some_of block4 block6 (blocked allowed ac))
                              (exactly [Rules.default_log; Rules.default_drop]
                                       [Rules.default_log; Rules.default_drop]))
                           ac)).
    { intros ac.
      apply (inhabited_seq (some_of allow4 allow6 allowed)
               (seq (some_of block4 block6 (blocked allowed ac))
                  (exactly [Rules.default_log; Rules.default_drop]
                           [Rules.default_log; Rules.default_drop])));
        auto with chain. }
    apply builds_and_then;
      [ apply builds_both; apply builds_append_rule
      | apply builds_and_then;
        [ apply builds_both; apply builds_append_rule
        | apply builds_and_then;
          [ apply builds_both;
            [apply (builds_private Inet) | apply (builds_private Inet6)]
          | intros e w; apply (builds_countries allowed
                                 (blocked allowed (ALL_COUNTRIES w)) e w)
          | exact Htail ]
        | auto with chain ]
      | auto with chain ].
Qed.

(** Position of the first and of the last rule. *)
Lemma not_stateful_after_first (A B : list string)
  (nets : list string) (g h : string -> list rule) :
  (forall c r, In r (g c) -> r <> Rules.stateful) ->
  (forall c r, In r (h c) -> r <> Rules.stateful) ->
  ~ In Rules.stateful
      ([Rules.localhost] ++ map Rules.private nets ++ flat_map g A
       ++ flat_map h B ++ [Rules.default_log; Rules.default_drop]).
Proof.
  intros Hg Hh Hin.
  repeat (apply in_app_or in Hin; destruct Hin as [Hin | Hin]).
  - destruct Hin as [H | []]. discriminate H.
  - apply in_map_iff in Hin. destruct Hin as (n & H & _). discriminate H.
  - apply in_flat_map in Hin. destruct Hin as (c & _ & H). now apply (Hg c _ H).
  - apply in_flat_map in Hin. destruct Hin as (c & _ & H). now apply (Hh c _ H).
  - destruct Hin as [H | [H | []]]; discriminate H.
Qed.

Lemma pair_not_stateful (c : string) (r : rule) :
  In r (allow4 c) \/ In r (allow6 c) \/ In r (block4 c) \/ In r (block6 c) ->
  r <> Rules.stateful.
Proof.
  intros [H | [H | [H | H]]]; destruct H as [<- | [<- | []]]; discriminate.
Qed.

Lemma stateful_before_default_drop (full : list rule) (rest : list rule) :
  full = Rules.stateful :: rest -> ~ In Rules.stateful rest ->
  forall a i j,
    prefix_of a full ->
    nth_error a i = Some Rules.stateful ->
    nth_error a j = Some Rules.default_drop -> i < j.
Proof.
  intros -> Hn a i j (tl & E) Hi Hj.
  assert (Fi : nth_error (Rules.stateful :: rest) i = Some Rules.stateful).
  { rewrite E. rewrite nth_error_app1; auto.
    apply nth_error_Some. congruence. }
  assert (Fj : nth_error (Rules.stateful :: rest) j = Some Rules.default_drop).
  { rewrite E. rewrite nth_error_app1; auto.
    apply nth_error_Some. congruence. }
  destruct i as [| i].
  - destruct j as [| j]; [discriminate Fj | lia].
  - simpl in Fi. apply nth_error_In in Fi. contradiction.
Qed.

Lemma ipv4_order (A B : list string) (a : list rule) (i j : nat) :
  prefix_of a (ipv4 A B) ->
  nth_error a i = Some Rules.stateful ->
  nth_error a j = Some Rules.default_drop -> i < j.
Proof.
  apply (stateful_before_default_drop (ipv4 A B) _ eq_refl).
  apply not_stateful_after_first; auto.
  all: intros c r H; apply (pair_not_stateful c); auto.
Qed.

Lemma ipv6_order (A B : list string) (a : list rule) (i j : nat) :
  prefix_of a (ipv6 A B) ->
  nth_error a i = Some Rules.stateful ->
  nth_error a j = Some Rules.default_drop -> i < j.
Proof.
  apply (stateful_before_default_drop (ipv6 A B) _ eq_refl).
  apply not_stateful_after_first; auto.
  all: intros c r H; apply (pair_not_stateful c); auto.
Qed.

End ChainFacts.

(* ================================================================= *)
(** ** What a successful rebuild leaves behind *)

Lemma parse_spec (e : env) (w : world) :
  exists t,
    parse_mmdb_to_country_ipranges e w
    = (Ret (parsed e (fs w)),
       {| fs := fs w; kern := kern w; ALL_COUNTRIES := ALL_COUNTRIES w;
          trace := (trace w ++ t)%list |}) /\
    Forall is_parse_event t.
Proof.
  unfold parse_mmdb_to_country_ipranges, open_database, try_except,
    except_Exception, bind, emit, ask, get_fs, ret, raise, log_event, parsed.
  simpl. destruct (maxminddb_installed e); simpl.
  - destruct (mmdb (fs w)) as [[h [recs |]] |]; simpl;
      exists [ImportMaxminddb; OpenDatabase];
      rewrite <- app_assoc; simpl.
    all: split; [reflexivity | repeat constructor].
  - exists [ImportMaxminddb]. split; [reflexivity | repeat constructor].
Qed.

Lemma dict_append_ranges (d : CountryRangeMap) (code cidr : string) :
  (forall c r, In (c, r) d -> r <> []) ->
  forall c r, In (c, r) (dict_append d code cidr) -> r <> [].
Proof.
  induction d as [| [k v] rest IH]; simpl; intros Hd c r Hin.
  - destruct Hin as [H | []]. inversion H. discriminate.
  - destruct (k =? code).
    + destruct Hin as [H | H].
      * inversion H. destruct v; discriminate.
      * eapply Hd; eauto.
    + destruct Hin as [H | H].
      * eapply Hd; eauto.
      * eapply IH; eauto.
Qed.

Lemma fold_add_record_ranges (recs : list (string * record_data))
  (d : CountryRangeMap) :
  (forall c r, In (c, r) d -> r <> []) ->
  forall c r, In (c, r) (fold_left add_record recs d) -> r <> [].
Proof.
  revert d. induction recs as [| [net data] rest IH]; simpl; intros d Hd; auto.
  apply IH. unfold add_record. simpl.
  destruct data; auto. now apply dict_append_ranges.
Qed.

(** Every country of a parsed map has at least one prefix. *)
Lemma parsed_ranges (e : env) (f : files) (c : string) (r : list string) :
  In (c, r) (parsed e f) -> r <> [].
Proof.
  unfold parsed. destruct (maxminddb_installed e); [| contradiction].
  destruct (mmdb f) as [[h [recs |]] |]; try contradiction.
  apply fold_add_record_ranges. contradiction.
Qed.

(** [ALL_COUNTRIES] is only assigned at the head of [apply_native_ipset]. *)
Lemma keeps_ret {A} (a : A) : keeps_ALL_COUNTRIES (ret a).
Proof. intros e w. reflexivity. Qed.

Lemma keeps_raise {A} (x : exn) : keeps_ALL_COUNTRIES (@raise A x).
Proof. intros e w. reflexivity. Qed.

Lemma keeps_bind {A B} (m : M A) (k : A -> M B) :
  keeps_ALL_COUNTRIES m -> (forall a, keeps_ALL_COUNTRIES (k a)) ->
  keeps_ALL_COUNTRIES (bind m k).
Proof.
  intros Hm Hk e w. unfold bind. specialize (Hm e w).
  destruct (m e w) as [[a | x |] w1]; simpl in *; auto.
  now rewrite Hk.
Qed.

Lemma keeps_try_except {A} (m : M A) (h : exn -> option (M A)) :
  keeps_ALL_COUNTRIES m ->
  (forall x k, h x = Some k -> keeps_ALL_COUNTRIES k) ->
  keeps_ALL_COUNTRIES (try_except m h).
Proof.
  intros Hm Hh e w. unfold try_except. specialize (Hm e w).
  destruct (m e w) as [[a | x |] w1]; simpl in *; auto.
  destruct (h x) as [k |] eqn:E; simpl; auto.
  rewrite (Hh x k E). exact Hm.
Qed.

Lemma keeps_subprocess_run (c : cmd) : keeps_ALL_COUNTRIES (subprocess_run c).
Proof.
  intros e w. unfold subprocess_run.
  destruct (oracle e (List.length (trace w)) c); simpl; auto.
  destruct (Kernel.exec c (kern w)) as [[ok out] k']. reflexivity.
Qed.

Lemma keeps_subprocess_run_check (c : cmd) :
  keeps_ALL_COUNTRIES (subprocess_run_check c).
Proof.
  apply keeps_bind; [apply keeps_subprocess_run |].
  intros p. destruct (returncode_ok p); [apply keeps_ret | apply keeps_raise].
Qed.

Lemma keeps_populate (name : string) (fam : family) (ranges : list string) :
  keeps_ALL_COUNTRIES (populate name fam ranges).
Proof.
  unfold populate.
  repeat (apply keeps_bind; [apply keeps_subprocess_run_check | intros _]).
  apply keeps_subprocess_run_check.
Qed.

Lemma keeps_apply_country (c : string) (ranges : list string) :
  keeps_ALL_COUNTRIES (apply_country c ranges).
Proof.
  unfold apply_country, when_nonempty. apply keeps_try_except.
  - apply keeps_bind.
    + destruct (filter _ ranges); [apply keeps_ret | apply keeps_populate].
    + intros _. apply keeps_bind; [| intros _; apply keeps_ret].
      destruct (filter _ ranges); [apply keeps_ret | apply keeps_populate].
  - intros x k. destruct x; simpl; try discriminate.
    intros H. inversion H. apply keeps_ret.
Qed.

Lemma keeps_apply_countries (m : CountryRangeMap) :
  keeps_ALL_COUNTRIES (apply_countries m).
Proof.
  induction m as [| [c ranges] rest IH]; simpl.
  - apply keeps_ret.
  - apply keeps_bind; [apply keeps_apply_country |].
    intros [|]; [exact IH | apply keeps_ret].
Qed.

Lemma apply_native_ipset_ALL_COUNTRIES (m : CountryRangeMap) (e : env)
  (w : world) :
  ALL_COUNTRIES (snd (apply_native_ipset m e w)) = map fst m.
Proof.
  unfold apply_native_ipset, bind.
  apply (keeps_apply_countries m e (set_ALL_COUNTRIES (map fst m) w)).
Qed.

(** Address sets under create, flush and bulk load. *)
Lemma sets_grow_refl (k : kernel) : sets_grow k k.
Proof. unfold sets_grow. auto. Qed.

Lemma sets_grow_trans (a b c : kernel) :
  sets_grow a b -> sets_grow b c -> sets_grow a c.
Proof.
  unfold sets_grow. intros (H1 & A4 & A6) (H2 & B4 & B6).
  repeat split; try congruence. auto.
Qed.

Lemma existsb_flush_set (n name : string) (l : list ipset) :
  existsb (fun s => set_name s =? n) (Kernel.flush_set name l)
  = existsb (fun s => set_name s =? n) l.
Proof.
  induction l as [| s rest IH]; simpl; auto.
  destruct (set_name s =? name) eqn:E; simpl.
  - apply String.eqb_eq in E. now rewrite E.
  - now rewrite IH.
Qed.

Lemma existsb_add_member (n name ip : string) (l : list ipset) :
  existsb (fun s => set_name s =? n) (Kernel.add_member name ip l)
  = existsb (fun s => set_name s =? n) l.
Proof.
  induction l as [| s rest IH]; simpl; auto.
  destruct (set_name s =? name) eqn:E; simpl.
  - apply String.eqb_eq in E. now rewrite E.
  - now rewrite IH.
Qed.

Lemma restore_sets_grow (adds : list (string * string)) (k : kernel) :
  sets_grow k (snd (Kernel.restore adds k)).
Proof.
  revert k. induction adds as [| [name ip] rest IH]; intros k; simpl.
  - apply sets_grow_refl.
  - destruct (Kernel.has_set name k); [| apply sets_grow_refl].
    eapply sets_grow_trans; [| apply IH].
    unfold sets_grow, Kernel.has_set. simpl. repeat split; auto.
    intros n. now rewrite existsb_add_member.
Qed.

Lemma exec_sets_grow (c : cmd) (o : outcome) (k : kernel) :
  is_set_step (Exec c o) -> sets_grow k (snd (Kernel.exec c k)).
Proof.
  destruct c; simpl; try contradiction; intros _.
  - destruct (Kernel.has_set name k) eqn:E; simpl; [apply sets_grow_refl |].
    unfold sets_grow, Kernel.has_set. simpl. repeat split; auto.
    intros n H. rewrite existsb_app. unfold Kernel.has_set in H. now rewrite H.
  - destruct (Kernel.has_set name k) eqn:E; simpl; [| apply sets_grow_refl].
    unfold sets_grow, Kernel.has_set. simpl. repeat split; auto.
    intros n. now rewrite existsb_flush_set.
  - generalize (restore_sets_grow adds k).
    destruct (Kernel.restore adds k). auto.
Qed.

Lemma subprocess_run_check_grows (c : cmd) :
  is_set_step (Exec c Ok) ->
  footprint is_set_step eq sets_grow (subprocess_run_check c).
Proof.
  intros Hc. apply footprint_subprocess_run_check.
  - reflexivity.
  - intros; congruence.
  - apply sets_grow_refl.
  - apply sets_grow_trans.
  - intros o. destruct c; simpl in *; auto.
  - intros k. eapply exec_sets_grow; eauto.
Qed.

Lemma populate_grows (name : string) (fam : family) (ranges : list string) :
  footprint is_set_step eq sets_grow (populate name fam ranges).
Proof.
  unfold populate.
  repeat (apply footprint_bind;
          [ intros; congruence | apply sets_grow_trans
          | apply subprocess_run_check_grows; exact I | intros _ ]).
  apply subprocess_run_check_grows. exact I.
Qed.

Lemma apply_country_grows (c : string) (ranges : list string) :
  footprint is_set_step eq sets_grow (apply_country c ranges).
Proof.
  unfold apply_country, when_nonempty.
  apply footprint_try_except;
    [intros; congruence | apply sets_grow_trans | |].
  - apply footprint_bind; [intros; congruence | apply sets_grow_trans | |].
    + destruct (filter _ ranges);
        [apply footprint_ret; auto using sets_grow_refl | apply populate_grows].
    + intros _.
      apply footprint_bind; [intros; congruence | apply sets_grow_trans | |].
      * destruct (filter _ ranges);
          [apply footprint_ret; auto using sets_grow_refl | apply populate_grows].
      * intros _. apply footprint_ret; auto using sets_grow_refl.
  - intros x k. destruct x; simpl; try discriminate.
    intros H. inversion H. apply footprint_ret; auto using sets_grow_refl.
Qed.

Lemma apply_countries_grows (m : CountryRangeMap) :
  footprint is_set_step eq sets_grow (apply_countries m).
Proof.
  induction m as [| [c ranges] rest IH]; simpl.
  - apply footprint_ret; auto using sets_grow_refl.
  - apply footprint_bind; [intros; congruence | apply sets_grow_trans | |].
    + apply apply_country_grows.
    + intros [|]; [exact IH | apply footprint_ret; auto using sets_grow_refl].
Qed.

Lemma bind_ret_inv {A B} (m : M A) (k : A -> M B) (e : env) (w w' : world)
  (b : B) :
  bind m k e w = (Ret b, w') ->
  exists a w1, m e w = (Ret a, w1) /\ k a e w1 = (Ret b, w').
Proof.
  unfold bind. destruct (m e w) as [[a | x |] w1]; try discriminate. eauto.
Qed.

(** A set that was created, emptied and filled is resident. *)
Lemma populate_creates (name : string) (fam : family) (ranges : list string)
  (e : env) (w w' : world) :
  populate name fam ranges e w = (Ret tt, w') ->
  Kernel.has_set name (kern w') = true.
Proof.
  unfold populate. intros H.
  apply bind_ret_inv in H. destruct H as ([] & w1 & H1 & H2).
  assert (Hc : Kernel.has_set name (kern w1) = true).
  { revert H1. unfold subprocess_run_check, subprocess_run, bind, ret, raise.
    destruct (oracle e (List.length (trace w)) _); try discriminate.
    unfold Kernel.exec.
    destruct (Kernel.has_set name (kern w)) eqn:E; simpl;
      intros H; inversion H; subst; simpl; auto.
    unfold Kernel.has_set. simpl. rewrite existsb_app. simpl.
    rewrite String.eqb_refl. apply orb_true_r. }
  assert (F : footprint is_set_step eq sets_grow
                (subprocess_run_check (IpsetFlush name) ;;;
                 subprocess_run_check
                   (IpsetRestore (map (fun ip => (name, ip)) ranges)))).
  { apply footprint_bind;
      [ intros; congruence | apply sets_grow_trans
      | apply subprocess_run_check_grows; exact I
      | intros _; apply subprocess_run_check_grows; exact I ]. }
  destruct (F e w1) as (_ & (G & _) & _).
  rewrite H2 in G. simpl in G. auto.
Qed.

Lemma filter_split_nonempty {A} (p : A -> bool) (l : list A) :
  l <> [] -> filter (fun x => negb (p x)) l <> [] \/ filter p l <> [].
Proof.
  destruct l as [| x rest]; [congruence | intros _]. simpl.
  destruct (p x); simpl; [right | left]; discriminate.
Qed.

Lemma has_set_country (name : string) (k : kernel) :
  Kernel.has_set name k = true -> startswith "country-" name = true ->
  has_country_set k.
Proof.
  unfold Kernel.has_set. intros H Hs. apply existsb_exists in H.
  destruct H as (s & Hin & E). apply String.eqb_eq in E.
  exists s. split; auto. now rewrite E.
Qed.

Lemma apply_country_creates (c : string) (ranges : list string) (e : env)
  (w w' : world) :
  apply_country c ranges e w = (Ret true, w') -> ranges <> [] ->
  has_country_set (kern w').
Proof.
  unfold apply_country, try_except. intros H Hne.
  match type of H with
  | context [?body e w] =>
      match body with
      | bind _ _ => destruct (body e w) as [[b | x |] w1] eqn:Eb
      end
  end.
  2: { destruct x; simpl in H; try discriminate. }
  2: discriminate.
  inversion H; subst b w1; clear H.
  apply bind_ret_inv in Eb. destruct Eb as ([] & wa & Ha & Hb).
  apply bind_ret_inv in Hb. destruct Hb as ([] & wb & Hb & Hc).
  inversion Hc; subst wb; clear Hc.
  destruct (filter_split_nonempty has_colon ranges Hne) as [H4 | H6].
  - unfold when_nonempty in Ha.
    destruct (filter (fun ip => negb (has_colon ip)) ranges) as [| x l] eqn:E4;
      [congruence |].
    apply populate_creates in Ha.
    assert (G : sets_grow (kern wa) (kern w')).
    { assert (F : footprint is_set_step eq sets_grow
                    (when_nonempty (filter has_colon ranges)
                       (populate (set_name_v6 c) Inet6 (filter has_colon ranges)))).
      { unfold when_nonempty. destruct (filter has_colon ranges);
          [apply footprint_ret; auto using sets_grow_refl | apply populate_grows]. }
      destruct (F e wa) as (_ & G & _). now rewrite Hb in G. }
    apply (has_set_country (set_name_v4 c)).
    + now apply G.
    + apply startswith_set_name_v4.
  - unfold when_nonempty in Hb.
    destruct (filter has_colon ranges) as [| x l] eqn:E6; [congruence |].
    apply populate_creates in Hb.
    apply (has_set_country (set_name_v6 c)); auto.
    apply startswith_set_name_v6.
Qed.

Lemma sets_grow_country (k k' : kernel) :
  sets_grow k k' -> has_country_set k -> has_country_set k'.
Proof.
  intros (G & _) (s & Hin & Hs).
  apply (has_set_country (set_name s)); auto. apply G.
  unfold Kernel.has_set. apply existsb_exists. exists s. split; auto.
  apply String.eqb_refl.
Qed.

Lemma apply_native_ipset_creates (m : CountryRangeMap) (e : env) (w w' : world) :
  apply_native_ipset m e w = (Ret true, w') ->
  m <> [] -> (forall c r, In (c, r) m -> r <> []) ->
  has_country_set (kern w').
Proof.
  unfold apply_native_ipset. intros H Hm Hr.
  apply bind_ret_inv in H. destruct H as ([] & w0 & _ & H).
  destruct m as [| [c ranges] rest]; [congruence |].
  cbn [apply_countries] in H.
  apply bind_ret_inv in H. destruct H as (ok & w1 & H1 & H2).
  destruct ok; [| discriminate].
  apply apply_country_creates in H1; [| apply (Hr c); left; reflexivity].
  destruct (apply_countries_grows rest e w1) as (_ & G & _).
  rewrite H2 in G. simpl in G. eapply sets_grow_country; eauto.
Qed.

Lemma has_country_set_same_sets (k k' : kernel) :
  ipsets k' = ipsets k -> has_country_set k -> has_country_set k'.
Proof. unfold has_country_set. intros ->. auto. Qed.

(** A rebuild that returns [True] has parsed a non-empty map from the
    database file, issued the set commands of that map without a failure,
    and completed both chains. *)
Lemma smart_update_rebuild_success (fuel : nat) (e : env) (w w' : world) :
  smart_update_rebuild fuel e w = (Ret true, w') ->
  parsed e (fs w) <> [] /\
  fs w' = fs w /\
  has_country_set (kern w') /\
  ALL_COUNTRIES w' = map fst (parsed e (fs w)) /\
  (exists before after,
     trace w' = (trace w ++ before
                 ++ ok_events (ipset_commands (parsed e (fs w))) ++ after)%list /\
     Forall (fun ev => ~ is_network ev) (before ++ after)) /\
  (exists c4 c6 A4 A6 B4 B6,
     INPUT4 (kern w') = (c4 ++ Chain.ipv4 A4 B4)%list /\
     INPUT6 (kern w') = (c6 ++ Chain.ipv6 A6 B6)%list /\
     Chain.subseq A4 CONFIG.ALLOWED_COUNTRIES /\
     Chain.subseq A6 CONFIG.ALLOWED_COUNTRIES /\
     Chain.subseq B4 (Chain.blocked CONFIG.ALLOWED_COUNTRIES
                        (map fst (parsed e (fs w)))) /\
     Chain.subseq B6 (Chain.blocked CONFIG.ALLOWED_COUNTRIES
                        (map fst (parsed e (fs w))))).
Proof.
  unfold smart_update_rebuild. intros H.
  apply bind_ret_inv in H. destruct H as (m & w1 & Hp & H).
  destruct (parse_spec e w) as (tp & Ep & Pp). rewrite Ep in Hp.
  injection Hp as Hm Hw.
  assert (F1 : fs w1 = fs w) by (rewrite <- Hw; reflexivity).
  assert (T1 : trace w1 = (trace w ++ tp)%list) by (rewrite <- Hw; reflexivity).
  clear Hw Ep. subst m.
  set (m := parsed e (fs w)) in *.
  assert (Hne : m <> []).
  { intros E0. rewrite E0 in H. discriminate. }
  assert (H' : (cleanup_existing_ipsets fuel ;;;
                ok <- apply_native_ipset m ;;
                (if negb ok then ret false
                 else ok0 <- setup_firewall_rules CONFIG.ALLOWED_COUNTRIES ;;
                      (if negb ok0 then ret false else ret true))) e w1
               = (Ret true, w')).
  { destruct m; [congruence | exact H]. }
  clear H. rename H' into H.
  apply bind_ret_inv in H. destruct H as (okc & w2 & Hc & H).
  destruct (cleanup_existing_ipsets_frame fuel e w1) as (F2 & _ & tc & T2 & Pc).
  rewrite Hc in F2, T2. simpl in F2, T2.
  apply bind_ret_inv in H. destruct H as (oka & w3 & Ha & H).
  destruct oka; [| discriminate]. simpl in H.
  apply bind_ret_inv in H. destruct H as (oks & w4 & Hs & H).
  destruct oks; [| discriminate]. simpl in H. inversion H; subst w4; clear H.
  destruct (apply_native_ipset_frame m e w2) as (F3 & _ & _).
  destruct (apply_native_ipset_runs m e w2) as (ta & T3 & Sa).
  pose proof (apply_native_ipset_ALL_COUNTRIES m e w2) as A3.
  rewrite Ha in F3, T3, Sa, A3. simpl in F3, T3, Sa, A3. subst ta.
  assert (C3 : has_country_set (kern w3)).
  { eapply apply_native_ipset_creates; eauto.
    intros c r Hin. unfold m in Hin. eapply parsed_ranges; eauto. }
  destruct (setup_firewall_rules_frame CONFIG.ALLOWED_COUNTRIES e w3)
    as (F4 & K4 & ts & T4 & Ps).
  rewrite Hs in F4, K4, T4. simpl in F4, K4, T4.
  destruct (ChainFacts.setup_firewall_rules_builds CONFIG.ALLOWED_COUNTRIES e w3)
    as (a4 & a6 & f4 & f6 & (E4 & E6 & _ & A4') &
          (A4 & A6 & B4 & B6 & SA4 & SA6 & SB4 & SB6 & -> & ->) & _ & _ & Hdone).
  rewrite Hs in E4, E6, A4', Hdone. simpl in E4, E6, A4', Hdone.
  destruct (Hdone eq_refl) as [-> ->].
  split; [exact Hne |].
  split; [congruence |].
  split; [eapply has_country_set_same_sets; eauto |].
  split; [congruence |].
  split.
  - exists (tp ++ tc)%list, ts. split.
    + rewrite T4, T3, T2, T1, <- !app_assoc. reflexivity.
    + repeat (apply Forall_app; split).
      * eapply Forall_impl; [| exact Pp]. intros [[] ? | | | |]; simpl; tauto.
      * eapply Forall_impl; [| exact Pc]. intros [[] ? | | | |]; simpl; tauto.
      * eapply Forall_impl; [| exact Ps]. intros [[] ? | | | |]; simpl; tauto.
  - exists (INPUT4 (kern w3)), (INPUT6 (kern w3)), A4, A6, B4, B6.
    rewrite A3 in SB4, SB6. repeat split; auto.
Qed.

(* ================================================================= *)
(** ** When every command succeeds *)

Section AllCommandsOk.

Variable e : env.
Hypothesis Hok : all_commands_ok e.



Lemma returns_weaken {A} (m : M A) (P Q : A -> Prop) :
  (forall a, P a -> Q a) -> returns e m P -> returns e m Q.
Proof.
  intros H Hm w. destruct (Hm w) as (a & w' & E & Pa). exists a, w'. auto.
Qed.
















End AllCommandsOk.

(* ================================================================= *)
(** ** Reboot recovery *)



Lemma Forall_not_network_rebuild (t : list event) :
  Forall is_rebuild_event t -> Forall (fun ev => ~ is_network ev) t.
Proof.
  intros H. eapply Forall_impl; [| exact H].
  unfold is_rebuild_event. intros [[] ? | | | |]; simpl; tauto.
Qed.



(* ================================================================= *)
(** ** Two consecutive runs *)





(* ================================================================= *)
(** * Further properties of the functions *)

(* ================================================================= *)
(** ** The month's download URL *)

Lemma all_digits_str (n : nat) : all_digits (str n) = true.
Proof. apply all_digits_string_of_uint. Qed.

Lemma pad2_numeral (n : nat) :
  exists d, pad2 n = NilEmpty.string_of_uint d /\ Nat.of_uint d = n.
Proof.
  unfold pad2. destruct (n <? 10)%nat.
  - exists (D0 (Nat.to_uint n)). split; [reflexivity |].
    change (Nat.of_uint (D0 (Nat.to_uint n))) with (Nat.of_uint (Nat.to_uint n)).
    apply Unsigned.of_to.
  - exists (Nat.to_uint n). split; [reflexivity | apply Unsigned.of_to].
Qed.

(** A numeral ends where the first character that is no digit stands. *)
Lemma numeral_until (c : ascii) (s s' a a' : string) :
  is_digit c = false -> all_digits s = true -> all_digits s' = true ->
  (s ++ String c a = s' ++ String c a')%string -> s = s' /\ a = a'.
Proof.
  intros Hc. revert s'. induction s as [| x s IH]; intros [| y s'] Hs Hs' H;
    simpl in *.
  - injection H as ->. auto.
  - injection H as -> _. apply andb_true_iff in Hs'. destruct Hs'. congruence.
  - injection H as -> _. apply andb_true_iff in Hs. destruct Hs. congruence.
  - injection H as -> H.
    apply andb_true_iff in Hs. apply andb_true_iff in Hs'.
    destruct (IH s') as [-> ->]; tauto.
Qed.

Lemma append_inv_head (p a b : string) : (p ++ a = p ++ b)%string -> a = b.
Proof. induction p; simpl; intros H; [exact H | injection H; auto]. Qed.

Lemma month_url_injective (y m y' m' : nat) :
  month_url y m = month_url y' m' -> y = y' /\ m = m'.
Proof.
  unfold month_url. intros H. apply append_inv_head in H.
  destruct (pad2_numeral m) as (d & Ed & Hd).
  destruct (pad2_numeral m') as (d' & Ed' & Hd').
  rewrite Ed, Ed' in H.
  apply (numeral_until "-") in H;
    [| reflexivity | apply all_digits_str | apply all_digits_str].
  destruct H as [Hy H].
  apply (numeral_until ".") in H;
    [| reflexivity | apply all_digits_string_of_uint
     | apply all_digits_string_of_uint].
  destruct H as [H _]. split.
  - assert (E : int_of (str y) = int_of (str y')) by now rewrite Hy.
    rewrite !int_of_str in E. now injection E.
  - assert (E : NilEmpty.uint_of_string (NilEmpty.string_of_uint d)
                = NilEmpty.uint_of_string (NilEmpty.string_of_uint d'))
      by now rewrite H.
    rewrite !NilEmpty.usu in E. injection E as E. congruence.
Qed.

(** X1: the URL names the year and the month of the clock, the month with
    two digits: two runs request the same URL only when their clocks show
    the same year and the same month, and for the months 1 to 12 the URL is
    the fixed address followed by the year, a dash and exactly two digits. *)
Theorem get_current_month_url_names_the_month (e e' : env) (w w' : world) :
  (fst (get_current_month_url e w) = fst (get_current_month_url e' w') ->
   now_year e = now_year e' /\ now_month e = now_month e') /\
  (1 <= now_month e <= 12 ->
   exists a b,
     is_digit a = true /\ is_digit b = true /\
     fst (get_current_month_url e w)
     = Ret ("https://download.db-ip.com/free/dbip-country-lite-"
            ++ str (now_year e) ++ "-" ++ String a (String b ".mmdb.gz"))).
Proof.
  split.
  - change (fst (get_current_month_url e w))
      with (@Ret string (month_url (now_year e) (now_month e))).
    change (fst (get_current_month_url e' w'))
      with (@Ret string (month_url (now_year e') (now_month e'))).
    intros H.
    apply (f_equal (fun r => match r with Ret u => u | _ => EmptyString end)) in H.
    now apply month_url_injective.
  - intros Hm. unfold get_current_month_url, bind, ask, ret, month_url. cbn [fst].
    destruct (now_month e) as [| [| [| [| [| [| [| [| [| [| [| [| [| n]]]]]]]]]]]]];
      try lia.
    all: eexists _, _; split; [| split; [| reflexivity]]; reflexivity.
Qed.

Lemma get_current_month_url_names_the_month_witness :
  (2026 = 2026 /\ 4 = 4) /\
  exists a b,
    is_digit a = true /\ is_digit b = true /\
    fst (get_current_month_url Scenario.april_update
           (boot Scenario.no_files Scenario.empty_kernel))
    = Ret ("https://download.db-ip.com/free/dbip-country-lite-"
           ++ str 2026 ++ "-" ++ String a (String b ".mmdb.gz")).
Proof.
  pose proof (get_current_month_url_names_the_month
                Scenario.april_update Scenario.april_update
                (boot Scenario.no_files Scenario.empty_kernel)
                (boot Scenario.no_files Scenario.empty_kernel)) as [H1 H2].
  split.
  - exact (H1 eq_refl).
  - apply H2. simpl. lia.
Defined.

(* ================================================================= *)
(** ** The two checks, called again *)

(** ** Reading a record back *)

Lemma read_text_without_cr (s : string) :
  has_cr s = false -> read_text s = s.
Proof.
  unfold has_cr. induction s as [| c s IH]; [reflexivity |].
  cbn [list_ascii_of_string existsb read_text]. intros H.
  apply orb_false_iff in H. destruct H as [Hc Hs].
  rewrite Hc. now rewrite IH.
Qed.

Lemma has_cr_read_text_upto (n : nat) (s : string) :
  String.length s <= n -> has_cr (read_text s) = false.
Proof.
  revert s. induction n as [| n IH]; intros s Hl.
  - destruct s; [reflexivity | simpl in Hl; lia].
  - destruct s as [| c s]; [reflexivity |].
    simpl in Hl. cbn [read_text].
    destruct (nat_of_ascii c =? 13)%nat eqn:Ec.
    + destruct s as [| c' s]; [reflexivity |].
      simpl in Hl.
      destruct (nat_of_ascii c' =? 10)%nat;
        unfold has_cr in *; cbn [list_ascii_of_string existsb];
        rewrite orb_false_l; apply IH; simpl; lia.
    + unfold has_cr in *. cbn [list_ascii_of_string existsb].
      rewrite Ec, orb_false_l. apply IH. lia.
Qed.

Lemma has_cr_read_text (s : string) : has_cr (read_text s) = false.
Proof. now apply (has_cr_read_text_upto (String.length s)). Qed.

Lemma has_cr_lstrip (s : string) :
  has_cr s = false -> has_cr (lstrip s) = false.
Proof.
  unfold has_cr. induction s as [| c s IH]; [reflexivity |].
  cbn [lstrip]. intros H. destruct (is_space c); [| exact H].
  cbn [list_ascii_of_string existsb] in H.
  apply orb_false_iff in H. now apply IH.
Qed.

Lemma has_cr_rstrip (s : string) :
  has_cr s = false -> has_cr (rstrip s) = false.
Proof.
  unfold has_cr. induction s as [| c s IH]; [reflexivity |].
  cbn [list_ascii_of_string existsb]. intros H.
  apply orb_false_iff in H. destruct H as [Hc Hs].
  specialize (IH Hs). cbn [rstrip].
  destruct (rstrip s) as [| c' t].
  - destruct (is_space c); [reflexivity |].
    cbn [list_ascii_of_string existsb]. now rewrite Hc.
  - cbn [list_ascii_of_string existsb] in *. now rewrite Hc.
Qed.

(** [f.read().strip()] gives back the text a file holds exactly when the
    text has no carriage return and [strip()] leaves it as it is. *)
Lemma read_back_iff (s : string) :
  strip (read_text s) = s <-> has_cr s = false /\ strip s = s.
Proof.
  split.
  - intros H.
    assert (Hc : has_cr s = false).
    { rewrite <- H. unfold strip.
      apply has_cr_rstrip, has_cr_lstrip, has_cr_read_text. }
    split; [exact Hc |]. now rewrite (read_text_without_cr s Hc) in H.
  - intros [Hc Hs]. now rewrite (read_text_without_cr s Hc).
Qed.

(** A header folded over two lines is written with its CR LF and read back
    with a line feed; a no-break space or NEL at an end is stripped. *)
Example read_text_folded_header :
  read_text ("Sun, 01 Mar 2026" ++ String (ascii_of_nat 13)
               (String (ascii_of_nat 10) " 03:00:00 GMT|4100200"))
  = "Sun, 01 Mar 2026" ++ String (ascii_of_nat 10) " 03:00:00 GMT|4100200".
Proof. reflexivity. Qed.

Example strip_no_break_space :
  strip (String (ascii_of_nat 160) "5d41402a" ++ String (ascii_of_nat 133) "")
  = "5d41402a".
Proof. reflexivity. Qed.

(** The record of a folded header never matches: the call after the one
    that wrote it reports a change again. *)
Example folded_header_is_reported_again :
  let url := url_of Faults.march_folded in
  let w1 := snd (check_remote_file_changed url Faults.march_folded
                   (boot Scenario.march_files Scenario.march_kernel)) in
  fst (check_remote_file_changed url Faults.march_folded w1) = Ret true.
Proof. vm_compute. reflexivity. Qed.

(** White space around the recorded hash, the no-break space included, is
    ignored: the file is recognised and nothing is written. *)
Example padded_hash_is_recognised :
  check_file_hash_changed Scenario.quiet_march
    (boot Faults.padded_hash_files Scenario.march_kernel)
  = (Ret false, boot Faults.padded_hash_files Scenario.march_kernel).
Proof. vm_compute. reflexivity. Qed.

(** X2: the metadata record makes a round trip exactly when the next call
    reads it back as written.  After a call that reported a change and
    wrote the record, a call that meets the same response answers [False]
    and writes nothing if [f.read().strip()] gives the record again; if it
    does not, the call reports a change again.  The record is read back as
    written exactly when it holds no carriage return (the text-mode read
    turns each into a line feed) and [strip()] leaves it as it is (no white
    space at either end). *)
Theorem check_remote_file_changed_round_trip (url url' : string) (e e' : env)
  (w : world) :
  fst (check_remote_file_changed url e w) = Ret true ->
  remote_head e' = remote_head e ->
  let w1 := snd (check_remote_file_changed url e w) in
  (metadata_clean e ->
   check_remote_file_changed url' e' w1
   = (Ret false, log_event (HttpHead url') w1)) /\
  (~ metadata_clean e ->
   fst (check_remote_file_changed url' e' w1) = Ret true) /\
  exists lm cl,
    remote_head e = HeadOk lm cl /\
    last_check_file (fs w1) = Some (header lm ++ "|" ++ header cl) /\
    (metadata_clean e <->
     has_cr (header lm ++ "|" ++ header cl) = false /\
     strip (header lm ++ "|" ++ header cl) = header lm ++ "|" ++ header cl).
Proof.
  intros Hr Hh w1.
  destruct (check_remote_file_changed_writes url e w)
    as (_ & _ & _ & [(_ & lm & cl & Hhead & Hl) | (Hn & _)]); [| congruence].
  fold w1 in Hl. unfold metadata_clean. rewrite Hhead. split; [| split].
  - intros Hc. apply check_remote_unchanged.
    unfold remote_unchanged. rewrite Hh, Hhead. eauto.
  - intros Hc.
    unfold check_remote_file_changed, try_except, bind, urlopen_head, bind,
      emit, ask, get_fs, ret, raise. simpl. rewrite Hh, Hhead. simpl.
    rewrite Hl.
    match goal with
    | |- context [(?a =? ?b)%string] => destruct (a =? b)%string eqn:E
    end; [| reflexivity].
    apply String.eqb_eq in E. elim Hc. exact E.
  - exists lm, cl. split; [reflexivity |]. split; [exact Hl |].
    apply read_back_iff.
Qed.

Lemma check_remote_file_changed_round_trip_witness :
  fst (check_remote_file_changed (url_of Scenario.april_update)
         Scenario.april_update
         (snd (check_remote_file_changed (url_of Scenario.april_update)
                 Scenario.april_update
                 (boot Scenario.march_files Scenario.march_kernel))))
  = Ret false.
Proof.
  destruct (check_remote_file_changed_round_trip
              (url_of Scenario.april_update) (url_of Scenario.april_update)
              Scenario.april_update Scenario.april_update
              (boot Scenario.march_files Scenario.march_kernel)
              eq_refl eq_refl) as [H _].
  rewrite H; reflexivity.
Defined.

Lemma check_file_hash_unchanged (e : env) (w : world) (d : mmdb_file)
  (saved : string) :
  mmdb (fs w) = Some d -> hash_file (fs w) = Some saved ->
  strip (read_text saved) = sha256 d ->
  check_file_hash_changed e w = (Ret false, w).
Proof.
  intros Hd Hh Hs.
  unfold check_file_hash_changed, calculate_file_hash, bind, get_fs, ret.
  now rewrite Hd, Hh, Hs, String.eqb_refl.
Qed.

Lemma check_file_hash_recorded (e : env) (w : world) (d : mmdb_file) :
  mmdb (fs w) = Some d ->
  (forall saved, hash_file (fs w) = Some saved -> strip (read_text saved) <> sha256 d) ->
  check_file_hash_changed e w
  = (Ret true,
     set_fs {| mmdb := Some d; hash_file := Some (sha256 d);
               last_check_file := last_check_file (fs w) |} w).
Proof.
  intros Hd Hh.
  unfold check_file_hash_changed, calculate_file_hash, write_hash, bind,
    get_fs, put_fs, ret.
  rewrite Hd. destruct (hash_file (fs w)) as [saved |] eqn:Eh.
  - destruct (strip (read_text saved) =? sha256 d) eqn:Es.
    + apply String.eqb_eq in Es. now elim (Hh saved).
    + now rewrite Hd.
  - now rewrite Hd.
Qed.

(** X3: the hash check settles after one call.  With the database file
    present and a digest that [f.read().strip()] gives back as written (a
    hex digest is one), the check answers [False] exactly when the recorded
    hash, as [f.read().strip()] gives it, is the digest of the file, and
    called again it answers [False] and leaves files, kernel and trace as
    they are; without the database file it raises and writes nothing. *)
Theorem check_file_hash_changed_settles (e e' : env) (w : world) :
  (forall d,
     mmdb (fs w) = Some d -> strip (read_text (sha256 d)) = sha256 d ->
     exists b w1,
       check_file_hash_changed e w = (Ret b, w1) /\
       (b = false <-> exists saved, hash_file (fs w) = Some saved /\
                                    strip (read_text saved) = sha256 d) /\
       check_file_hash_changed e' w1 = (Ret false, w1)) /\
  (mmdb (fs w) = None ->
   check_file_hash_changed e w = (Raise OSError, w)).
Proof.
  split.
  - intros d Hd Hc.
    assert (Hdec : (exists saved, hash_file (fs w) = Some saved /\
                                  strip (read_text saved) = sha256 d) \/
                   (forall saved, hash_file (fs w) = Some saved ->
                                  strip (read_text saved) <> sha256 d)).
    { destruct (hash_file (fs w)) as [saved |]; [| right; discriminate].
      destruct (strip (read_text saved) =? sha256 d) eqn:Es.
      - apply String.eqb_eq in Es. left. eauto.
      - apply String.eqb_neq in Es. right. now intros s [= <-]. }
    destruct Hdec as [(saved & Hh & Hs) | Hn].
    + exists false, w.
      rewrite (check_file_hash_unchanged e w d saved Hd Hh Hs).
      rewrite (check_file_hash_unchanged e' w d saved Hd Hh Hs).
      repeat split; eauto.
    + eexists true, _. rewrite (check_file_hash_recorded e w d Hd Hn).
      split; [reflexivity |]. split.
      * split; [discriminate |]. intros (s & Hh & Hs). now elim (Hn s).
      * apply (check_file_hash_unchanged e' _ d (sha256 d)); auto.
  - intros Hd.
    unfold check_file_hash_changed, calculate_file_hash, bind, get_fs, raise.
    now rewrite Hd.
Qed.

Lemma check_file_hash_changed_settles_witness :
  exists b w1,
    check_file_hash_changed Scenario.quiet_march
      (boot Reboot.files_without_hash Scenario.empty_kernel) = (Ret b, w1) /\
    check_file_hash_changed Scenario.quiet_march w1 = (Ret false, w1).
Proof.
  destruct (proj1 (check_file_hash_changed_settles
                     Scenario.quiet_march Scenario.quiet_march
                     (boot Reboot.files_without_hash Scenario.empty_kernel))
              Scenario.db_march eq_refl eq_refl) as (b & w1 & E1 & _ & E2).
  exists b, w1. split; assumption.
Defined.

(* ================================================================= *)
(** ** The reader: grouping by country *)

Lemma dict_get_append (d : CountryRangeMap) (c x code : string) :
  dict_get (dict_append d c x) code
  = if c =? code
    then Some (match dict_get d code with
               | Some v => (v ++ [x])%list
               | None => [x]
               end)
    else dict_get d code.
Proof.
  induction d as [| [k v] rest IH]; simpl.
  - reflexivity.
  - destruct (k =? c) eqn:Ekc; simpl.
    + apply String.eqb_eq in Ekc. subst k.
      destruct (c =? code); reflexivity.
    + destruct (k =? code) eqn:Ek.
      * apply String.eqb_eq in Ek. subst k.
        rewrite String.eqb_sym in Ekc. now rewrite Ekc.
      * exact IH.
Qed.

Lemma keys_dict_append (d : CountryRangeMap) (c x : string) :
  map fst (dict_append d c x)
  = if mem c (map fst d) then map fst d else (map fst d ++ [c])%list.
Proof.
  induction d as [| [k v] rest IH]; simpl; [reflexivity |].
  rewrite (String.eqb_sym c k). destruct (k =? c); simpl; [reflexivity |].
  rewrite IH. unfold mem. destruct (existsb _ _); reflexivity.
Qed.

Lemma NoDup_keys_dict_append (d : CountryRangeMap) (c x : string) :
  NoDup (map fst d) -> NoDup (map fst (dict_append d c x)).
Proof.
  intros H. rewrite keys_dict_append.
  destruct (mem c (map fst d)) eqn:E; [exact H |].
  apply NoDup_app; [exact H | repeat constructor; intros [] |].
  intros y Hy [<- | []].
  apply PyStrFacts.mem_In in Hy. congruence.
Qed.

(** What the fold over the records keeps true. *)
Lemma fold_add_record_get (recs : list (string * record_data))
  (d : CountryRangeMap) (code : string) :
  dict_get (fold_left add_record recs d) code
  = match dict_get d code, ranges_of code recs with
    | None, [] => None
    | None, r => Some r
    | Some v, r => Some (v ++ r)%list
    end.
Proof.
  revert d. induction recs as [| [net data] rest IH]; intros d.
  - simpl. destruct (dict_get d code); [now rewrite app_nil_r | reflexivity].
  - cbn [fold_left]. rewrite IH. unfold add_record, ranges_of, names_country.
    cbn [fst snd filter].
    destruct data as [| | | c]; try reflexivity.
    rewrite dict_get_append. destruct (c =? code); cbn [map fst].
    + destruct (dict_get d code); [now rewrite <- app_assoc | reflexivity].
    + reflexivity.
Qed.

Lemma fold_add_record_keys (recs : list (string * record_data))
  (d : CountryRangeMap) :
  NoDup (map fst d) -> NoDup (map fst (fold_left add_record recs d)).
Proof.
  revert d. induction recs as [| [net data] rest IH]; intros d H; [exact H |].
  cbn [fold_left]. apply IH. unfold add_record. cbn [fst snd].
  destruct data; auto. now apply NoDup_keys_dict_append.
Qed.

Lemma dict_get_In (d : CountryRangeMap) (code : string) (r : list string) :
  NoDup (map fst d) -> (dict_get d code = Some r <-> In (code, r) d).
Proof.
  induction d as [| [k v] rest IH]; simpl; intros H.
  - split; [discriminate | contradiction].
  - inversion H as [| ? ? Hk Hrest]; subst.
    destruct (k =? code) eqn:E.
    + apply String.eqb_eq in E. subst k. split.
      * intros [= ->]. now left.
      * intros [[= ->] | Hin]; [reflexivity |].
        exfalso. apply Hk. apply in_map_iff. now exists (code, r).
    + apply String.eqb_neq in E. rewrite IH by assumption. split.
      * now right.
      * intros [[= -> _] | Hin]; [congruence | exact Hin].
Qed.

(** X4: the reader groups the records by country.  For a readable
    database the map it returns has every country code once, and the value
    of a code is the list of the networks of the records that carry that
    code, in the order of the database; records without data, without a
    country or without a code contribute nothing, and a code without a
    record is not a key. *)
Theorem parse_groups_records_by_country (e : env) (w : world) (h : string)
  (recs : list (string * record_data)) :
  maxminddb_installed e = true ->
  mmdb (fs w) = Some {| sha256 := h; networks := Some recs |} ->
  exists m,
    fst (parse_mmdb_to_country_ipranges e w) = Ret m /\
    NoDup (map fst m) /\
    (forall code r, In (code, r) m <-> r = ranges_of code recs /\ r <> []) /\
    (forall code, In code (map fst m) <->
                  exists net, In (net, IsoCode code) recs).
Proof.
  intros Hi Hd. destruct (parse_spec e w) as (t & E & _).
  exists (parsed e (fs w)). rewrite E. split; [reflexivity |].
  unfold parsed. rewrite Hi, Hd.
  assert (Hk : NoDup (map fst (fold_left add_record recs [])))
    by (apply fold_add_record_keys; constructor).
  assert (Hg : forall code r,
             In (code, r) (fold_left add_record recs [])
             <-> r = ranges_of code recs /\ r <> []).
  { intros code r. rewrite <- dict_get_In by exact Hk.
    rewrite fold_add_record_get. cbn [dict_get].
    destruct (ranges_of code recs) as [| x rest]; split.
    - discriminate.
    - intros [-> Hne]. congruence.
    - intros [= <-]. split; [reflexivity | discriminate].
    - intros [-> _]. reflexivity. }
  split; [exact Hk |]. split; [exact Hg |].
  intros code. rewrite in_map_iff. split.
  - intros ([c r] & Hc & Hin). simpl in Hc. subst c.
    apply Hg in Hin. destruct Hin as [-> Hne].
    unfold ranges_of in Hne.
    destruct (filter (names_country code) recs) as [| [net data] l] eqn:Ef;
      [now elim Hne |].
    assert (Hin : In (net, data) (filter (names_country code) recs))
      by (rewrite Ef; now left).
    apply filter_In in Hin. destruct Hin as [Hin Hn].
    unfold names_country in Hn. simpl in Hn. destruct data; try discriminate.
    apply String.eqb_eq in Hn. subst. now exists net.
  - intros (net & Hin). exists (code, ranges_of code recs). split; [reflexivity |].
    apply Hg. split; [reflexivity |].
    unfold ranges_of.
    assert (Hf : In (net, IsoCode code) (filter (names_country code) recs)).
    { apply filter_In. split; [exact Hin |].
      unfold names_country. simpl. apply String.eqb_refl. }
    destruct (filter (names_country code) recs); [contradiction | discriminate].
Qed.

Lemma parse_groups_records_by_country_witness :
  exists m,
    fst (parse_mmdb_to_country_ipranges Scenario.quiet_march
           (boot Scenario.march_files Scenario.empty_kernel)) = Ret m /\
    In ("KR", ["1.0.0.0/24"; "2001:db8::/32"]) m.
Proof.
  destruct (parse_groups_records_by_country Scenario.quiet_march
              (boot Scenario.march_files Scenario.empty_kernel)
              (sha256 Scenario.db_march)
              [("1.0.0.0/24", IsoCode "KR"); ("2001:db8::/32", IsoCode "KR");
               ("8.8.8.0/24", IsoCode "US"); ("9.9.9.0/24", NoCountry)]
              eq_refl eq_refl) as (m & E & _ & Hg & _).
  exists m. split; [exact E |]. apply Hg. split; [reflexivity | discriminate].
Defined.

Lemma fold_add_record_countryless (recs : list (string * record_data))
  (d : CountryRangeMap) :
  countryless recs -> fold_left add_record recs d = d.
Proof.
  revert d. induction recs as [| [net data] rest IH]; intros d H; [reflexivity |].
  cbn [fold_left]. rewrite IH.
  - unfold add_record. cbn [snd]. destruct data as [| | | c]; try reflexivity.
    exfalso. apply (H (net, IsoCode c) c); [now left | reflexivity].
  - intros rec code Hin. apply H. now right.
Qed.

Lemma fold_add_record_nil (recs : list (string * record_data)) :
  fold_left add_record recs [] = [] -> countryless recs.
Proof.
  intros H [net data] code Hin Hd. simpl in Hd. subst data.
  pose proof (fold_add_record_get recs [] code) as Hg.
  rewrite H in Hg. cbn [dict_get] in Hg.
  assert (Hf : In (net, IsoCode code) (filter (names_country code) recs)).
  { apply filter_In. split; [exact Hin |].
    unfold names_country. simpl. apply String.eqb_refl. }
  unfold ranges_of in Hg.
  destruct (filter (names_country code) recs); [contradiction | discriminate].
Qed.

(** X5: a database that can be read but in which no record carries a
    country code gives the same empty map as an unreadable one, and only
    such a database does; the rebuild then returns [False] with the files
    and the kernel as they were. *)
Theorem countryless_database_is_reported_as_failure (fuel : nat) (e : env)
  (w : world) (h : string) (recs : list (string * record_data)) :
  maxminddb_installed e = true ->
  mmdb (fs w) = Some {| sha256 := h; networks := Some recs |} ->
  (fst (parse_mmdb_to_country_ipranges e w) = Ret [] <-> countryless recs) /\
  (countryless recs ->
   fst (smart_update_rebuild fuel e w) = Ret false /\
   fs (snd (smart_update_rebuild fuel e w)) = fs w /\
   kern (snd (smart_update_rebuild fuel e w)) = kern w).
Proof.
  intros Hi Hd. destruct (parse_spec e w) as (t & E & _).
  assert (Hp : parsed e (fs w) = fold_left add_record recs []).
  { unfold parsed. now rewrite Hi, Hd. }
  split.
  - rewrite E, Hp. cbn [fst]. split.
    + intros [= H]. now apply fold_add_record_nil.
    + intros H. now rewrite fold_add_record_countryless.
  - intros H. unfold smart_update_rebuild.
    erewrite bind_eq by exact E.
    rewrite Hp, fold_add_record_countryless by exact H.
    repeat split.
Qed.

Lemma countryless_database_is_reported_as_failure_witness :
  fst (smart_update_rebuild 5 Scenario.quiet_march
         (boot {| mmdb := Some {| sha256 := "00";
                                  networks := Some [("9.9.9.0/24", NoCountry);
                                                    ("10.0.0.0/8", NoData)] |};
                  hash_file := None; last_check_file := None |}
               Scenario.march_kernel)) = Ret false.
Proof.
  refine (proj1 (proj2 (countryless_database_is_reported_as_failure 5
            Scenario.quiet_march
            (boot {| mmdb := Some {| sha256 := "00";
                                     networks := Some [("9.9.9.0/24", NoCountry);
                                                       ("10.0.0.0/8", NoData)] |};
                     hash_file := None; last_check_file := None |}
                  Scenario.march_kernel)
            "00" [("9.9.9.0/24", NoCountry); ("10.0.0.0/8", NoData)]
            eq_refl eq_refl) _)).
  intros rec code [<- | [<- | []]]; discriminate.
Defined.

(* ================================================================= *)
(** ** Cleanup: which rules go *)

Lemma prefix_app_true (p q s : string) :
  String.prefix (p ++ q) s = true -> String.prefix p s = true.
Proof.
  revert s. induction p as [| a p IH]; intros s H.
  - destruct s; reflexivity.
  - destruct s as [| b s]; simpl in *; [discriminate |].
    destruct (ascii_dec a b); [now apply IH | discriminate].
Qed.

Lemma contains_app_true (p q s : string) :
  contains (p ++ q) s = true -> contains p s = true.
Proof.
  induction s as [| b s IH]; cbn [contains]; intros H.
  - rewrite orb_false_r in *. now apply prefix_app_true in H.
  - apply orb_true_iff in H. apply orb_true_iff. destruct H as [H | H].
    + left. now apply prefix_app_true in H.
    + right. now apply IH.
Qed.

Lemma tagged_drop (r : rule) :
  tagged "geoip-firewall-drop" r = true -> tagged "geoip-firewall" r = true.
Proof. unfold tagged. apply (contains_app_true "geoip-firewall" "-drop"). Qed.

Lemma startswith_g (tag : string) :
  startswith "g" tag = true -> exists t, tag = String "g" t.
Proof.
  destruct tag as [| g t]; [discriminate |].
  unfold startswith. cbn [String.prefix].
  destruct (ascii_dec "g" g) as [<- | _]; [eauto | discriminate].
Qed.

Lemma contains_tag_empty (tag : string) :
  startswith "g" tag = true -> contains tag "" = false.
Proof. intros Hg. destruct (startswith_g tag Hg) as (t & ->). reflexivity. Qed.

(** A tag that starts with a letter is not found in the line number. *)
Lemma contains_after_digits (tag a s : string) :
  startswith "g" tag = true -> all_digits a = true ->
  contains tag (a ++ s) = contains tag s.
Proof.
  intros Hg. destruct (startswith_g tag Hg) as (t & ->). clear Hg.
  induction a as [| c a IH]; intros H; [reflexivity |].
  simpl in H. apply andb_true_iff in H. destruct H as [Hc Ha].
  change (String c a ++ s)%string with (String c (a ++ s)).
  cbn [contains]. rewrite IH by exact Ha.
  cbn [String.prefix].
  destruct (ascii_dec "g" c) as [<- | _]; [discriminate | reflexivity].
Qed.

Lemma contains_numbered_line (tag : string) (i : nat) (r : rule) :
  startswith "g" tag = true ->
  contains tag (str i ++ "    " ++ Kernel.rule_text r) = tagged tag r.
Proof.
  intros Hg.
  rewrite contains_after_digits by (exact Hg || apply all_digits_string_of_uint).
  destruct (startswith_g tag Hg) as (t & ->). reflexivity.
Qed.

Lemma set_chain_chain (fam : family) (k : kernel) :
  set_chain fam (chain fam k) k = k.
Proof. destruct fam, k; reflexivity. Qed.

Lemma chain_set_chain (fam : family) (c : list rule) (k : kernel) :
  chain fam (set_chain fam c k) = c.
Proof. destruct fam; reflexivity. Qed.

Lemma set_chain_twice (fam : family) (c c' : list rule) (k : kernel) :
  set_chain fam c' (set_chain fam c k) = set_chain fam c' k.
Proof. destruct fam; reflexivity. Qed.

Lemma remove_at_middle {A} (done rest : list A) (x : A) :
  Kernel.remove_at (List.length done) (done ++ x :: rest) = (done ++ rest)%list.
Proof. induction done as [| y done IH]; simpl; [reflexivity | now rewrite IH]. Qed.

Lemma remove_first_none {A} (p : A -> bool) (l : list A) :
  existsb p l = false -> remove_first p l = l.
Proof.
  induction l as [| x l IH]; simpl; [reflexivity |].
  intros H. apply orb_false_iff in H. destruct H as [-> H]. now rewrite IH.
Qed.

Lemma filter_remove_first {A} (p : A -> bool) (l : list A) :
  filter (fun x => negb (p x)) (remove_first p l)
  = filter (fun x => negb (p x)) l.
Proof.
  induction l as [| x l IH]; simpl; [reflexivity |].
  destruct (p x) eqn:E; simpl; [reflexivity |]. now rewrite E, IH.
Qed.

Lemma filter_none {A} (p : A -> bool) (l : list A) :
  existsb p l = false -> filter (fun x => negb (p x)) l = l.
Proof.
  induction l as [| x l IH]; simpl; [reflexivity |].
  intros H. apply orb_false_iff in H. destruct H as [-> H]. simpl.
  now rewrite IH.
Qed.

Lemma length_remove_first {A} (p : A -> bool) (l : list A) :
  existsb p l = true -> List.length (remove_first p l) < List.length l.
Proof.
  induction l as [| x l IH]; simpl; [discriminate |].
  destruct (p x); simpl; [lia |]. intros H. apply IH in H. lia.
Qed.

Lemma length_filter_le {A} (p : A -> bool) (l : list A) :
  List.length (filter p l) <= List.length l.
Proof. induction l as [| x l IH]; simpl; [lia |]. destruct (p x); simpl; lia. Qed.

Lemma all_commands_ok_cleanup (e : env) :
  all_commands_ok e -> cleanup_commands_ok e.
Proof. intros H n c _. apply H. Qed.

Lemma subprocess_run_cleanup_ok (c : cmd) (e : env) (w : world) :
  cleanup_commands_ok e -> is_cleanup_event (Exec c Ok) ->
  subprocess_run c e w =
  (let '(ok, out, k') := Kernel.exec c (kern w) in
   (Ret {| returncode_ok := ok; stdout := out |},
    log_event (Exec c (if ok then Ok else Rejected)) (set_kern k' w))).
Proof. intros H Hc. unfold subprocess_run. now rewrite H. Qed.

Section CleanupExact.

Variable e : env.
Hypothesis Hok : cleanup_commands_ok e.
Variable fam : family.
Variable tag : string.
Hypothesis Hg : startswith "g" tag = true.

(** The scan of a listing deletes the first rule whose line holds the tag. *)
Lemma scan_numbered_exact (rules : list rule) :
  forall done w,
    chain fam (kern w) = (done ++ rules)%list ->
    exists w',
      scan_and_delete fam tag
        (Kernel.numbered (S (List.length done)) rules ++ [""]) e w
      = (Ret (existsb (tagged tag) rules), w') /\
      kern w'
      = set_chain fam (done ++ remove_first (tagged tag) rules) (kern w) /\
      fs w' = fs w /\ ALL_COUNTRIES w' = ALL_COUNTRIES w.
Proof.
  induction rules as [| r rest IH]; intros done w Hc.
  - change (Kernel.numbered (S (List.length done)) [] ++ [""])%list with [""].
    cbn [scan_and_delete]. rewrite contains_tag_empty by exact Hg.
    exists w. split; [reflexivity |]. cbn [remove_first].
    rewrite <- Hc, set_chain_chain. auto.
  - change (Kernel.numbered (S (List.length done)) (r :: rest) ++ [""])%list
      with ((str (S (List.length done)) ++ "    " ++ Kernel.rule_text r)
              :: (Kernel.numbered (S (S (List.length done))) rest ++ [""])%list).
    cbn [scan_and_delete existsb remove_first].
    rewrite contains_numbered_line by exact Hg.
    destruct (tagged tag r).
    + rewrite numbered_line, split_first_numbered, isdigit_str.
      unfold bind. rewrite subprocess_run_cleanup_ok by (exact Hok || exact I).
      unfold Kernel.exec. rewrite int_of_str, Hc.
      assert (Hb : ((1 <=? S (List.length done))%nat
                    && (S (List.length done)
                        <=? List.length (done ++ r :: rest))%nat) = true).
      { apply andb_true_iff. split; apply Nat.leb_le; [lia |].
        rewrite length_app. simpl. lia. }
      rewrite Hb.
      replace (S (List.length done) - 1) with (List.length done) by lia.
      rewrite remove_at_middle.
      eexists. split; [reflexivity |]. destruct w; simpl. auto.
    + destruct (IH (done ++ [r])%list w) as (w' & E & K & F & A).
      { now rewrite <- app_assoc. }
      rewrite length_app, Nat.add_1_r in E. exists w'.
      split; [exact E |]. rewrite <- app_assoc in K. auto.
Qed.

Lemma delete_tagged_exact (fuel : nat) :
  forall w,
    List.length (chain fam (kern w)) < fuel ->
    exists w',
      delete_tagged fuel fam tag e w = (Ret tt, w') /\
      kern w'
      = set_chain fam
          (filter (fun r => negb (tagged tag r)) (chain fam (kern w))) (kern w) /\
      fs w' = fs w /\ ALL_COUNTRIES w' = ALL_COUNTRIES w.
Proof.
  induction fuel as [| n IH]; intros w Hlen; [lia |].
  cbn [delete_tagged]. unfold bind at 1.
  rewrite subprocess_run_cleanup_ok by (exact Hok || exact I).
  cbn [Kernel.exec].
  set (w1 := log_event _ _).
  assert (K1 : kern w1 = kern w) by (destruct w; reflexivity).
  assert (F1 : fs w1 = fs w) by (destruct w; reflexivity).
  assert (A1 : ALL_COUNTRIES w1 = ALL_COUNTRIES w) by (destruct w; reflexivity).
  cbn [stdout]. rewrite list_rules_lines.
  rewrite (scan_skip_line fam tag _ "Chain") by reflexivity.
  rewrite (scan_skip_line fam tag _ "num") by reflexivity.
  destruct (scan_numbered_exact (chain fam (kern w)) [] w1)
    as (w2 & E & K2 & F2 & A2); [now rewrite K1 |].
  cbn [List.length] in E. rewrite app_nil_l in K2. unfold bind. rewrite E.
  destruct (existsb (tagged tag) (chain fam (kern w))) eqn:Ex.
  - destruct (IH w2) as (w3 & E3 & K3 & F3 & A3).
    { rewrite K2, chain_set_chain.
      pose proof (length_remove_first _ _ Ex). lia. }
    exists w3. split; [exact E3 |].
    rewrite K3, K2, chain_set_chain, set_chain_twice, filter_remove_first, K1.
    split; [reflexivity | split; congruence].
  - exists w2. split; [reflexivity |].
    rewrite K2, remove_first_none, filter_none, K1 by exact Ex.
    split; [reflexivity | split; congruence].
Qed.

End CleanupExact.

(* ================================================================= *)
(** ** Cleanup: when the loops end *)

Lemma chains_shrink_refl (k : kernel) : chains_shrink k k.
Proof. unfold chains_shrink. lia. Qed.

Lemma chains_shrink_trans (a b c : kernel) :
  chains_shrink a b -> chains_shrink b c -> chains_shrink a c.
Proof. unfold chains_shrink. lia. Qed.

Lemma chains_shrink_set_chain (fam : family) (c : list rule) (k : kernel) :
  List.length c <= List.length (chain fam k) ->
  chains_shrink k (set_chain fam c k).
Proof. unfold chains_shrink. destruct fam; simpl; lia. Qed.

Section CleanupEnds.

Variable e : env.
Hypothesis Hdel : deletions_honoured e.
Variable fam : family.
Variable tag : string.

(** One scan: nothing found and nothing changed, or one rule less, or an
    exception. *)
Lemma scan_numbered_ends (rules : list rule) :
  forall done w,
    chain fam (kern w) = (done ++ rules)%list ->
    match scan_and_delete fam tag
            (Kernel.numbered (S (List.length done)) rules ++ [""]) e w with
    | (Ret false, w') => kern w' = kern w
    | (Ret true, w') =>
        chains_shrink (kern w) (kern w') /\
        List.length (chain fam (kern w')) < List.length (chain fam (kern w))
    | (Raise _, _) => True
    | (OutOfFuel, _) => False
    end.
Proof.
  induction rules as [| r rest IH]; intros done w Hc.
  - change (Kernel.numbered (S (List.length done)) [] ++ [""])%list with [""].
    cbn [scan_and_delete]. destruct (contains tag ""); reflexivity.
  - change (Kernel.numbered (S (List.length done)) (r :: rest) ++ [""])%list
      with ((str (S (List.length done)) ++ "    " ++ Kernel.rule_text r)
              :: (Kernel.numbered (S (S (List.length done))) rest ++ [""])%list).
    cbn [scan_and_delete].
    assert (Hrest :
              match scan_and_delete fam tag
                      (Kernel.numbered (S (S (List.length done))) rest ++ [""])
                      e w with
              | (Ret false, w') => kern w' = kern w
              | (Ret true, w') =>
                  chains_shrink (kern w) (kern w') /\
                  List.length (chain fam (kern w'))
                  < List.length (chain fam (kern w))
              | (Raise _, _) => True
              | (OutOfFuel, _) => False
              end).
    { specialize (IH (done ++ [r])%list w).
      rewrite length_app, Nat.add_1_r in IH. apply IH.
      now rewrite <- app_assoc. }
    destruct (contains tag (str (S (List.length done)) ++ "    "
                            ++ Kernel.rule_text r)); [| exact Hrest].
    rewrite numbered_line, split_first_numbered, isdigit_str.
    unfold bind, subprocess_run.
    destruct (oracle e (List.length (trace w))
                (IptDelete fam (str (S (List.length done))))) eqn:Eo.
    + unfold Kernel.exec. rewrite int_of_str, Hc.
      assert (Hb : ((1 <=? S (List.length done))%nat
                    && (S (List.length done)
                        <=? List.length (done ++ r :: rest))%nat) = true).
      { apply andb_true_iff. split; apply Nat.leb_le; [lia |].
        rewrite length_app. simpl. lia. }
      rewrite Hb.
      replace (S (List.length done) - 1) with (List.length done) by lia.
      rewrite remove_at_middle. cbn [ret kern log_event set_kern].
      rewrite chain_set_chain, <- Hc.
      assert (Hl : List.length (done ++ rest) < List.length (chain fam (kern w))).
      { rewrite Hc, !length_app. simpl. lia. }
      split; [apply chains_shrink_set_chain; lia | exact Hl].
    + now elim (Hdel _ _ _ Eo).
    + exact I.
Qed.

Lemma delete_tagged_ends (fuel : nat) :
  forall w,
    List.length (chain fam (kern w)) < fuel ->
    match delete_tagged fuel fam tag e w with
    | (Ret _, w') => chains_shrink (kern w) (kern w')
    | (Raise _, _) => True
    | (OutOfFuel, _) => False
    end.
Proof.
  induction fuel as [| n IH]; intros w Hlen; [lia |].
  cbn [delete_tagged]. unfold bind at 1. unfold subprocess_run at 1.
  destruct (oracle e (List.length (trace w)) (IptList fam)).
  - cbn [Kernel.exec]. set (w1 := log_event _ _).
    assert (K1 : kern w1 = kern w) by (destruct w; reflexivity).
    cbn [stdout]. rewrite list_rules_lines.
    rewrite (scan_skip_line fam tag _ "Chain") by reflexivity.
    rewrite (scan_skip_line fam tag _ "num") by reflexivity.
    pose proof (scan_numbered_ends (chain fam (kern w)) [] w1) as Hs.
    cbn [List.length] in Hs. rewrite K1 in Hs. specialize (Hs eq_refl).
    unfold bind.
    destruct (scan_and_delete fam tag
                (Kernel.numbered 1 (chain fam (kern w)) ++ [""]) e w1)
      as [[[|] | x |] w2].
    + destruct Hs as [Hs Hl]. specialize (IH w2).
      destruct (delete_tagged n fam tag e w2) as [[[] | x |] w3].
      * eapply chains_shrink_trans; [exact Hs | apply IH; lia].
      * exact I.
      * apply IH. lia.
    + cbn [ret]. rewrite Hs. apply chains_shrink_refl.
    + exact I.
    + contradiction.
  - (* the listing is refused: nothing to scan *)
    cbn [stdout scan_and_delete]. unfold bind.
    destruct (contains tag "").
    + cbn [split_first lstrip]. exact I.
    + cbn [ret kern log_event]. apply chains_shrink_refl.
  - exact I.
Qed.

End CleanupEnds.

Lemma destroy_each_ends (names : list string) (e : env) (w : world) :
  fst (for_each names
         (fun set_name => subprocess_run (IpsetDestroy set_name) ;;; ret tt)
         e w) <> OutOfFuel.
Proof.
  revert w. induction names as [| name rest IH]; intros w; [discriminate |].
  cbn [for_each]. unfold bind at 1 2. unfold subprocess_run.
  destruct (oracle e (List.length (trace w)) (IpsetDestroy name)).
  - destruct (Kernel.exec (IpsetDestroy name) (kern w)) as [[ok out] k'].
    apply IH.
  - apply IH.
  - discriminate.
Qed.

(** X6: cleanup returns [True] as soon as no rule deletion is refused.
    Whatever else fails (a listing that is refused, a set that cannot be
    destroyed, a command that cannot be started), fuel beyond the length of
    both chains is enough for the function to return. *)
Theorem cleanup_returns_unless_a_deletion_is_refused (fuel : nat) (e : env)
  (w : world) :
  deletions_honoured e ->
  List.length (INPUT4 (kern w)) < fuel ->
  List.length (INPUT6 (kern w)) < fuel ->
  fst (cleanup_existing_ipsets fuel e w) = Ret true.
Proof.
  intros Hdel L4 L6.
  destruct (cleanup_existing_ipsets_result fuel e w) as [H | H]; [exact H |].
  exfalso. revert H.
  unfold cleanup_existing_ipsets, try_except, except_Exception.
  unfold bind at 1. cbn [for_each].
  assert (Hbody :
            fst ((for_each [Inet; Inet6]
                    (fun iptables_cmd =>
                       delete_tagged fuel iptables_cmd "geoip-firewall-drop" ;;;
                       delete_tagged fuel iptables_cmd "geoip-firewall") ;;;
                  result <- subprocess_run IpsetListNames ;;
                  for_each (filter is_geoip_set (stdout result))
                    (fun set_name =>
                       subprocess_run (IpsetDestroy set_name) ;;; ret tt)) e w)
            <> OutOfFuel).
  { cbn [for_each]. unfold bind at 1 2 3.
    pose proof (delete_tagged_ends e Hdel Inet "geoip-firewall-drop" fuel w L4)
      as H1.
    destruct (delete_tagged fuel Inet "geoip-firewall-drop" e w)
      as [[[] | x |] w1]; [| discriminate | contradiction].
    pose proof (delete_tagged_ends e Hdel Inet "geoip-firewall" fuel w1) as H2.
    destruct (delete_tagged fuel Inet "geoip-firewall" e w1)
      as [[[] | x |] w2];
      [| discriminate | exfalso; apply H2; unfold chains_shrink in H1; simpl; lia].
    assert (S2 : chains_shrink (kern w) (kern w2)).
    { eapply chains_shrink_trans; [exact H1 |].
      apply H2. unfold chains_shrink in H1. simpl. lia. }
    unfold bind at 1 2.
    pose proof (delete_tagged_ends e Hdel Inet6 "geoip-firewall-drop" fuel w2)
      as H3.
    destruct (delete_tagged fuel Inet6 "geoip-firewall-drop" e w2)
      as [[[] | x |] w3];
      [| discriminate | exfalso; apply H3; unfold chains_shrink in S2; simpl; lia].
    assert (S3 : chains_shrink (kern w) (kern w3)).
    { eapply chains_shrink_trans; [exact S2 |].
      apply H3. unfold chains_shrink in S2. simpl. lia. }
    pose proof (delete_tagged_ends e Hdel Inet6 "geoip-firewall" fuel w3) as H4.
    destruct (delete_tagged fuel Inet6 "geoip-firewall" e w3)
      as [[[] | x |] w4];
      [| discriminate | exfalso; apply H4; unfold chains_shrink in S3; simpl; lia].
    cbn [ret]. unfold bind at 1. unfold bind at 1.
    unfold subprocess_run at 1.
    destruct (oracle e (List.length (trace w4)) IpsetListNames);
      try discriminate; cbn [Kernel.exec stdout]; apply destroy_each_ends. }
  cbn [for_each] in Hbody.
  destruct ((_ ;;; _) e w) as [[[] | x |] w'] eqn:E in Hbody |- *;
    cbn [fst] in *; try discriminate.
  now elim Hbody.
Qed.

Lemma cleanup_returns_unless_a_deletion_is_refused_witness :
  fst (cleanup_existing_ipsets 20
         (Scenario.world_of 2026 3 Scenario.march_head FetchFailed
            (fun _ c => match c with
                        | IpsetDestroy _ => Rejected
                        | IptList Inet6 => Crash
                        | _ => Ok
                        end))
         (boot Scenario.march_files Scenario.march_kernel)) = Ret true.
Proof.
  apply cleanup_returns_unless_a_deletion_is_refused.
  - intros n fam line_num. discriminate.
  - simpl. lia.
  - simpl. lia.
Defined.

Lemma filter_drop_then_tag (c : list rule) :
  filter (fun r => negb (tagged "geoip-firewall" r))
    (filter (fun r => negb (tagged "geoip-firewall-drop" r)) c)
  = foreign_rules c.
Proof.
  unfold foreign_rules. induction c as [| r c IH]; simpl; [reflexivity |].
  destruct (tagged "geoip-firewall-drop" r) eqn:Ed; simpl.
  - rewrite (tagged_drop r Ed). simpl. exact IH.
  - now rewrite IH.
Qed.

(** The two loops of one family leave the rules without the tag. *)
Lemma destroy_each_exact (names : list string) (e : env) :
  cleanup_commands_ok e ->
  forall w, exists w',
    for_each names
      (fun set_name => subprocess_run (IpsetDestroy set_name) ;;; ret tt) e w
    = (Ret tt, w') /\
    fs w' = fs w /\ ALL_COUNTRIES w' = ALL_COUNTRIES w /\
    INPUT4 (kern w') = INPUT4 (kern w) /\ INPUT6 (kern w') = INPUT6 (kern w) /\
    ipsets (kern w')
    = filter (fun s => negb (mem (set_name s) names)) (ipsets (kern w)).
Proof.
  intros Hok. induction names as [| name rest IH]; intros w.
  - exists w. simpl. repeat split; auto.
    induction (ipsets (kern w)) as [| x l IHl]; simpl; congruence.
  - cbn [for_each]. unfold bind at 1 2.
    rewrite subprocess_run_cleanup_ok by (exact Hok || exact I).
    set (w1 := snd (let '(ok, out, k') := Kernel.exec (IpsetDestroy name) (kern w) in
                    (Ret {| returncode_ok := ok; stdout := out |},
                     log_event (Exec (IpsetDestroy name)
                                  (if ok then Ok else Rejected))
                       (set_kern k' w)))).
    assert (H1 : fs w1 = fs w /\ ALL_COUNTRIES w1 = ALL_COUNTRIES w /\
                 INPUT4 (kern w1) = INPUT4 (kern w) /\
                 INPUT6 (kern w1) = INPUT6 (kern w) /\
                 ipsets (kern w1)
                 = filter (fun s => negb (set_name s =? name)) (ipsets (kern w))).
    { unfold w1, Kernel.exec, Kernel.has_set.
      destruct (existsb (fun s => set_name s =? name) (ipsets (kern w))) eqn:E;
        simpl; repeat split; auto.
      now rewrite filter_absent_name. }
    destruct H1 as (F1 & A1 & I4 & I6 & S1).
    destruct (IH w1) as (w2 & E2 & F2 & A2 & J4 & J6 & S2).
    exists w2. split.
    + unfold w1 in E2.
      destruct (Kernel.exec (IpsetDestroy name) (kern w)) as [[ok out] k'].
      exact E2.
    + repeat split; try congruence.
      rewrite S2, S1, filter_filter_name. apply filter_ext. intros s.
      unfold mem. simpl. now rewrite negb_orb.
Qed.

Lemma delete_both_exact (e : env) (fam : family) (fuel : nat) (w : world) :
  cleanup_commands_ok e ->
  List.length (chain fam (kern w)) < fuel ->
  exists w',
    (delete_tagged fuel fam "geoip-firewall-drop" ;;;
     delete_tagged fuel fam "geoip-firewall") e w = (Ret tt, w') /\
    kern w' = set_chain fam (foreign_rules (chain fam (kern w))) (kern w) /\
    fs w' = fs w /\ ALL_COUNTRIES w' = ALL_COUNTRIES w.
Proof.
  intros Hok Hlen.
  destruct (delete_tagged_exact e Hok fam "geoip-firewall-drop" eq_refl fuel w
              Hlen)
    as (w1 & E1 & K1 & F1 & A1).
  destruct (delete_tagged_exact e Hok fam "geoip-firewall" eq_refl fuel w1)
    as (w2 & E2 & K2 & F2 & A2).
  { rewrite K1, chain_set_chain.
    pose proof (length_filter_le
                  (fun r => negb (tagged "geoip-firewall-drop" r))
                  (chain fam (kern w))). lia. }
  exists w2. split; [erewrite bind_eq by exact E1; exact E2 |].
  rewrite K2, K1, chain_set_chain, set_chain_twice, filter_drop_then_tag.
  split; [reflexivity | split; congruence].
Qed.

(** Cleanup when every command succeeds: the kernel it leaves. *)
Lemma cleanup_existing_ipsets_exact (fuel : nat) (e : env) (w : world) :
  cleanup_commands_ok e ->
  List.length (INPUT4 (kern w)) < fuel ->
  List.length (INPUT6 (kern w)) < fuel ->
  exists w',
    cleanup_existing_ipsets fuel e w = (Ret true, w') /\
    kern w'
    = {| ipsets := filter (fun s => negb (is_geoip_set (set_name s)))
                     (ipsets (kern w));
         INPUT4 := foreign_rules (INPUT4 (kern w));
         INPUT6 := foreign_rules (INPUT6 (kern w)) |} /\
    fs w' = fs w /\ ALL_COUNTRIES w' = ALL_COUNTRIES w.
Proof.
  intros Hok L4 L6.
  destruct (delete_both_exact e Inet fuel w Hok L4) as (w2 & B1 & K2 & F2 & A2).
  destruct (delete_both_exact e Inet6 fuel w2 Hok) as (w4 & B2 & K4 & F4 & A4).
  { rewrite K2. simpl. exact L6. }
  set (w5 := log_event (Exec IpsetListNames Ok) w4).
  destruct (destroy_each_exact
              (filter is_geoip_set (map set_name (ipsets (kern w4)) ++ [""]))
              e Hok w5) as (w6 & E6 & F6 & A6 & I4 & I6 & S6).
  assert (K5 : kern w5 = kern w4) by (destruct w4; reflexivity).
  assert (F5 : fs w5 = fs w4) by (destruct w4; reflexivity).
  assert (A5 : ALL_COUNTRIES w5 = ALL_COUNTRIES w4) by (destruct w4; reflexivity).
  assert (B3 : subprocess_run IpsetListNames e w4
               = (Ret {| returncode_ok := true;
                         stdout := (map set_name (ipsets (kern w4)) ++ [""])%list |},
                  w5)).
  { rewrite subprocess_run_cleanup_ok by (exact Hok || exact I).
    unfold w5. destruct w4; reflexivity. }
  exists w6. split.
  - unfold cleanup_existing_ipsets. erewrite bind_eq; [reflexivity |].
    apply try_except_ret. cbn [for_each].
    erewrite bind_eq; [| erewrite bind_eq by exact B1;
                         erewrite bind_eq by exact B2; reflexivity].
    erewrite bind_eq by exact B3. exact E6.
  - split; [| split; congruence].
    rewrite K5 in I4, I6, S6.
    assert (S4 : ipsets (kern w4) = ipsets (kern w))
      by (rewrite K4, K2; reflexivity).
    assert (J4 : INPUT4 (kern w4) = foreign_rules (INPUT4 (kern w)))
      by (rewrite K4, K2; reflexivity).
    assert (J6 : INPUT6 (kern w4) = foreign_rules (INPUT6 (kern w)))
      by (rewrite K4, K2; reflexivity).
    destruct (kern w6) as [s6 a6 b6]. simpl in I4, I6, S6. subst s6 a6 b6.
    rewrite J4, J6, S4. f_equal.
    apply filter_ext_in. intros s Hs. now rewrite mem_geoip_names.
Qed.

(** X7: with its own commands succeeding (listings, rule deletions, set
    destructions) and fuel beyond the length of both chains, cleanup
    returns with each INPUT chain holding exactly the rules
    whose listing line does not contain [geoip-firewall], in their order,
    and with the address sets whose names do not start with [country-] or
    [geoip-]; the files are not touched. *)
Theorem cleanup_leaves_the_foreign_rules (fuel : nat) (e : env) (w : world) :
  cleanup_commands_ok e ->
  List.length (INPUT4 (kern w)) < fuel ->
  List.length (INPUT6 (kern w)) < fuel ->
  exists w',
    cleanup_existing_ipsets fuel e w = (Ret true, w') /\
    kern w'
    = {| ipsets := filter (fun s => negb (is_geoip_set (set_name s)))
                     (ipsets (kern w));
         INPUT4 := foreign_rules (INPUT4 (kern w));
         INPUT6 := foreign_rules (INPUT6 (kern w)) |} /\
    fs w' = fs w /\ ALL_COUNTRIES w' = ALL_COUNTRIES w.
Proof. apply cleanup_existing_ipsets_exact. Qed.

Lemma cleanup_leaves_the_foreign_rules_witness :
  exists w',
    cleanup_existing_ipsets 20 Scenario.quiet_march
      (boot Scenario.march_files Scenario.march_kernel) = (Ret true, w') /\
    kern w' = Scenario.empty_kernel.
Proof.
  destruct (cleanup_leaves_the_foreign_rules 20 Scenario.quiet_march
              (boot Scenario.march_files Scenario.march_kernel))
    as (w' & E & K & _).
  - intros n c _. reflexivity.
  - simpl. lia.
  - simpl. lia.
  - exists w'. split; [exact E |]. rewrite K. reflexivity.
Defined.

(* ================================================================= *)
(** ** Cleanup after setup *)

Lemma prefix_app_r (p b c : string) :
  String.prefix p b = true -> String.prefix p (b ++ c) = true.
Proof.
  revert b. induction p as [| a p IH]; intros b H.
  - destruct (b ++ c)%string; reflexivity.
  - destruct b as [| x b]; simpl in *; [discriminate |].
    destruct (ascii_dec a x); [now apply IH | discriminate].
Qed.

Lemma contains_app_l (p b c : string) :
  contains p b = true -> contains p (b ++ c) = true.
Proof.
  induction b as [| x b IH]; cbn [contains]; intros H.
  - destruct p; [| discriminate]. destruct c; reflexivity.
  - change (String x b ++ c)%string with (String x (b ++ c)).
    cbn [contains]. apply orb_true_iff in H. apply orb_true_iff.
    destruct H as [H | H].
    + left. apply (prefix_app_r p (String x b) c H).
    + right. now apply IH.
Qed.

Lemma contains_app_r (p a b : string) :
  contains p b = true -> contains p (a ++ b) = true.
Proof.
  intros H. induction a as [| x a IH]; [exact H |].
  change (String x a ++ b)%string with (String x (a ++ b)).
  cbn [contains]. rewrite IH. apply orb_true_r.
Qed.

(** Every rule the script builds carries its tag in the listing. *)
Lemma built_rule_tagged (iface src set ctstate : option string)
  (comment : string) (t : target) :
  contains "geoip-firewall" (" /* " ++ comment ++ " */") = true ->
  tagged "geoip-firewall" (Rules.mk iface src set ctstate comment t) = true.
Proof.
  intros H. unfold tagged, Kernel.rule_text, Rules.mk.
  cbn [r_target r_src r_set r_ctstate r_extra r_comment Kernel.opt_text].
  do 7 apply contains_app_r. now apply contains_app_l.
Qed.

Lemma foreign_rules_app (a b : list rule) :
  foreign_rules (a ++ b) = (foreign_rules a ++ foreign_rules b)%list.
Proof. apply filter_app. Qed.

Lemma foreign_rules_tagged (l : list rule) :
  Forall (fun r => tagged "geoip-firewall" r = true) l -> foreign_rules l = [].
Proof.
  unfold foreign_rules. induction 1 as [| r l Hr _ IH]; simpl; [reflexivity |].
  now rewrite Hr.
Qed.

Lemma Forall_flat_map {A B} (P : B -> Prop) (g : A -> list B) (l : list A) :
  (forall a, Forall P (g a)) -> Forall P (flat_map g l).
Proof.
  intros H. induction l as [| a l IH]; simpl; [constructor |].
  apply Forall_app. auto.
Qed.

Lemma chain_rules_tagged (A B : list string) :
  Forall (fun r => tagged "geoip-firewall" r = true) (Chain.ipv4 A B) /\
  Forall (fun r => tagged "geoip-firewall" r = true) (Chain.ipv6 A B).
Proof.
  unfold Chain.ipv4, Chain.ipv6.
  split; repeat (apply Forall_app; split);
    try (apply Forall_flat_map; intros c);
    repeat constructor; apply built_rule_tagged; reflexivity.
Qed.

Lemma Forall_prefix_of {A} (P : A -> Prop) (a f : list A) :
  Chain.prefix_of a f -> Forall P f -> Forall P a.
Proof.
  intros (rest & ->) H. apply Forall_app in H. tauto.
Qed.

(** X8: cleanup undoes setup.  Whatever [setup_firewall_rules] appended,
    in a run that completed or one that stopped half way, a cleanup whose
    commands succeed leaves in each chain the rules that cleanup would have
    left before the setup: no rule of an earlier run survives into the next
    chain. *)
Theorem cleanup_removes_what_setup_appended (allowed : list string)
  (fuel : nat) (e1 e2 : env) (w : world) :
  let w1 := snd (setup_firewall_rules allowed e1 w) in
  cleanup_commands_ok e2 ->
  List.length (INPUT4 (kern w1)) < fuel ->
  List.length (INPUT6 (kern w1)) < fuel ->
  exists w2,
    cleanup_existing_ipsets fuel e2 w1 = (Ret true, w2) /\
    INPUT4 (kern w2) = foreign_rules (INPUT4 (kern w)) /\
    INPUT6 (kern w2) = foreign_rules (INPUT6 (kern w)).
Proof.
  intros w1 Hok L4 L6.
  destruct (ChainFacts.setup_firewall_rules_builds allowed e1 w)
    as (a4 & a6 & f4 & f6 & (E4 & E6 & _ & _) &
          (A4 & A6 & B4 & B6 & _ & _ & _ & _ & -> & ->) & P4 & P6 & _).
  fold w1 in E4, E6.
  destruct (cleanup_existing_ipsets_exact fuel e2 w1 Hok L4 L6)
    as (w2 & E & K & _).
  exists w2. split; [exact E |]. rewrite K. cbn [INPUT4 INPUT6].
  rewrite E4, E6, !foreign_rules_app.
  destruct (chain_rules_tagged A4 B4) as [T4 _].
  destruct (chain_rules_tagged A6 B6) as [_ T6].
  rewrite (foreign_rules_tagged a4), (foreign_rules_tagged a6), !app_nil_r.
  - auto.
  - eapply Forall_prefix_of; eauto.
  - eapply Forall_prefix_of; eauto.
Qed.

Lemma cleanup_removes_what_setup_appended_witness :
  exists w2,
    cleanup_existing_ipsets 40 Scenario.quiet_march
      (snd (setup_firewall_rules ["KR"] Scenario.april_update
              (boot Scenario.march_files Scenario.march_kernel)))
    = (Ret true, w2) /\
    INPUT4 (kern w2) = [] /\ INPUT6 (kern w2) = [].
Proof.
  destruct (cleanup_removes_what_setup_appended ["KR"] 40
              Scenario.april_update Scenario.quiet_march
              (boot Scenario.march_files Scenario.march_kernel))
    as (w2 & E & H4 & H6).
  - intros n c _. reflexivity.
  - vm_compute. lia.
  - vm_compute. lia.
  - exists w2. split; [exact E |]. rewrite H4, H6. split; reflexivity.
Defined.

(* ================================================================= *)
(** ** Cleanup: what it never removes *)

Lemma subseq_refl {A} (l : list A) : Chain.subseq l l.
Proof.
  induction l; [apply Chain.subseq_nil | now apply Chain.subseq_take].
Qed.

Lemma subseq_trans {A} (a b c : list A) :
  Chain.subseq a b -> Chain.subseq b c -> Chain.subseq a c.
Proof.
  intros Hab Hbc. revert a Hab.
  induction Hbc as [| x b c Hbc IH | x b c Hbc IH]; intros a Hab.
  - exact Hab.
  - apply Chain.subseq_skip. now apply IH.
  - inversion Hab as [| y a' b' Hab' | y a' b' Hab']; subst.
    + apply Chain.subseq_skip. now apply IH.
    + apply Chain.subseq_take. now apply IH.
Qed.

Lemma subseq_drop_middle {A} (done rest : list A) (x : A) :
  Chain.subseq (done ++ rest) (done ++ x :: rest).
Proof.
  induction done as [| y done IH]; simpl.
  - apply Chain.subseq_skip, subseq_refl.
  - now apply Chain.subseq_take.
Qed.

Lemma subseq_filter {A} (p : A -> bool) (l : list A) :
  Chain.subseq (filter p l) l.
Proof.
  induction l as [| x l IH]; simpl; [apply Chain.subseq_nil |].
  destruct (p x);
    [now apply Chain.subseq_take | now apply Chain.subseq_skip].
Qed.

Lemma foreign_kept_refl (k : kernel) : foreign_kept k k.
Proof. unfold foreign_kept. repeat split; auto using subseq_refl. Qed.

Lemma foreign_kept_trans (a b c : kernel) :
  foreign_kept a b -> foreign_kept b c -> foreign_kept a c.
Proof.
  unfold foreign_kept.
  intros (S1 & T1 & F1 & G1 & H1) (S2 & T2 & F2 & G2 & H2).
  repeat split; try congruence; eapply subseq_trans; eauto.
Qed.

Lemma foreign_kept_delete (fam : family) (done rest : list rule) (r : rule)
  (k : kernel) :
  chain fam k = (done ++ r :: rest)%list ->
  tagged "geoip-firewall" r = true ->
  foreign_kept k (set_chain fam (done ++ rest) k).
Proof.
  intros Hc Hr.
  assert (Hf : foreign_rules (done ++ rest) = foreign_rules (done ++ r :: rest)).
  { rewrite !foreign_rules_app. unfold foreign_rules at 4. simpl.
    now rewrite Hr. }
  unfold foreign_kept.
  destruct fam; simpl in *; rewrite Hc;
    repeat split; auto using subseq_refl, subseq_drop_middle.
Qed.

Section CleanupKeeps.

Variable fam : family.
Variable tag : string.
Hypothesis Hg : startswith "g" tag = true.

Hypothesis Htag : forall r, tagged tag r = true -> tagged "geoip-firewall" r = true.

Lemma scan_numbered_keeps (e : env) (rules : list rule) :
  forall done w,
    chain fam (kern w) = (done ++ rules)%list ->
    foreign_kept (kern w)
      (kern (snd (scan_and_delete fam tag
                    (Kernel.numbered (S (List.length done)) rules ++ [""]) e w))).
Proof.
  induction rules as [| r rest IH]; intros done w Hc.
  - change (Kernel.numbered (S (List.length done)) [] ++ [""])%list with [""].
    cbn [scan_and_delete]. rewrite contains_tag_empty by exact Hg.
    apply foreign_kept_refl.
  - change (Kernel.numbered (S (List.length done)) (r :: rest) ++ [""])%list
      with ((str (S (List.length done)) ++ "    " ++ Kernel.rule_text r)
              :: (Kernel.numbered (S (S (List.length done))) rest ++ [""])%list).
    cbn [scan_and_delete].
    rewrite contains_numbered_line by exact Hg.
    destruct (tagged tag r) eqn:Er.
    + rewrite numbered_line, split_first_numbered, isdigit_str.
      unfold bind, subprocess_run.
      destruct (oracle e (List.length (trace w))
                  (IptDelete fam (str (S (List.length done))))).
      * unfold Kernel.exec. rewrite int_of_str, Hc.
        assert (Hb : ((1 <=? S (List.length done))%nat
                      && (S (List.length done)
                          <=? List.length (done ++ r :: rest))%nat) = true).
        { apply andb_true_iff. split; apply Nat.leb_le; [lia |].
          rewrite length_app. simpl. lia. }
        rewrite Hb.
        replace (S (List.length done) - 1) with (List.length done) by lia.
        rewrite remove_at_middle. cbn [ret snd kern log_event set_kern].
        apply (foreign_kept_delete fam done rest r); auto.
      * apply foreign_kept_refl.
      * apply foreign_kept_refl.
    + specialize (IH (done ++ [r])%list w).
      rewrite length_app, Nat.add_1_r in IH. apply IH.
      now rewrite <- app_assoc.
Qed.

Lemma delete_tagged_keeps (e : env) (fuel : nat) :
  forall w, foreign_kept (kern w) (kern (snd (delete_tagged fuel fam tag e w))).
Proof.
  induction fuel as [| n IH]; intros w; [apply foreign_kept_refl |].
  cbn [delete_tagged]. unfold bind at 1. unfold subprocess_run at 1.
  destruct (oracle e (List.length (trace w)) (IptList fam)).
  - cbn [Kernel.exec]. set (w1 := log_event _ _).
    assert (K1 : kern w1 = kern w) by (destruct w; reflexivity).
    cbn [stdout]. rewrite list_rules_lines.
    rewrite (scan_skip_line fam tag _ "Chain") by reflexivity.
    rewrite (scan_skip_line fam tag _ "num") by reflexivity.
    pose proof (scan_numbered_keeps e (chain fam (kern w)) [] w1) as Hs.
    cbn [List.length] in Hs. rewrite K1 in Hs. specialize (Hs eq_refl).
    unfold bind.
    destruct (scan_and_delete fam tag
                (Kernel.numbered 1 (chain fam (kern w)) ++ [""]) e w1)
      as [[[|] | x |] w2]; cbn [snd] in *; auto.
    eapply foreign_kept_trans; [exact Hs | apply IH].
  - cbn [stdout scan_and_delete]. unfold bind.
    rewrite contains_tag_empty by exact Hg. apply foreign_kept_refl.
  - apply foreign_kept_refl.
Qed.

Lemma delete_tagged_foreign (fuel : nat) :
  footprint is_cleanup_event eq foreign_kept (delete_tagged fuel fam tag).
Proof.
  intros e w.
  destruct (delete_tagged_frame fuel fam tag e w) as (Hf & _ & Ht).
  split; [exact Hf |]. split; [apply delete_tagged_keeps | exact Ht].
Qed.

End CleanupKeeps.

Lemma footprint_for_each_in (P : event -> Prop) (F : files -> files -> Prop)
  (K : kernel -> kernel -> Prop) {A} (l : list A) (body : A -> M unit) :
  (forall f, F f f) -> (forall a b c, F a b -> F b c -> F a c) ->
  (forall k, K k k) -> (forall a b c, K a b -> K b c -> K a c) ->
  (forall x, In x l -> footprint P F K (body x)) ->
  footprint P F K (for_each l body).
Proof.
  intros Fr Ft Kr Kt Hb. induction l as [| x l IH]; simpl.
  - now apply footprint_ret.
  - apply footprint_bind; auto.
    + apply Hb. now left.
    + intros _. apply IH. intros y Hy. apply Hb. now right.
Qed.

Lemma destroy_keeps_foreign (name : string) (k : kernel) :
  is_geoip_set name = true ->
  foreign_kept k (snd (Kernel.exec (IpsetDestroy name) k)).
Proof.
  intros Hn. unfold Kernel.exec.
  destruct (Kernel.has_set name k); [| apply foreign_kept_refl].
  unfold foreign_kept. simpl. repeat split; auto using subseq_refl.
  rewrite filter_filter_name. apply filter_ext. intros s.
  destruct (set_name s =? name) eqn:E; simpl; [| reflexivity].
  apply String.eqb_eq in E. rewrite E, Hn. reflexivity.
Qed.

Lemma cleanup_existing_ipsets_foreign (fuel : nat) :
  footprint is_cleanup_event eq foreign_kept (cleanup_existing_ipsets fuel).
Proof.
  assert (Kt := foreign_kept_trans). assert (Kr := foreign_kept_refl).
  assert (Ft : forall a b c : files, a = b -> b = c -> a = c) by congruence.
  unfold cleanup_existing_ipsets.
  apply footprint_bind; auto; [| intros; now apply footprint_ret].
  apply footprint_try_except; auto;
    [| intros x k [= <-]; now apply footprint_ret].
  apply footprint_bind; auto.
  - apply footprint_for_each; auto. intros iptables_cmd.
    apply footprint_bind; auto.
    + apply (delete_tagged_foreign iptables_cmd "geoip-firewall-drop" eq_refl).
      exact tagged_drop.
    + intros _.
      apply (delete_tagged_foreign iptables_cmd "geoip-firewall" eq_refl).
      auto.
  - intros _. apply footprint_bind; auto.
    + apply footprint_subprocess_run; auto.
      * intros o. exact I.
    + intros result. apply footprint_for_each_in; auto.
      intros name Hin. apply filter_In in Hin. destruct Hin as [_ Hn].
      apply footprint_bind; auto; [| intros; now apply footprint_ret].
      apply footprint_subprocess_run; auto.
      * intros o. exact I.
      * intros k. now apply destroy_keeps_foreign.
Qed.

(** X9: cleanup never removes anything foreign.  In every environment,
    whatever fails and however far the function gets, each chain it leaves
    is the chain it found with some rules left out, its rules without the
    [geoip-firewall] tag are the same in the same order, the address sets
    whose names do not start with [country-] or [geoip-] are the same, and
    the files are untouched. *)
Theorem cleanup_never_removes_anything_foreign (fuel : nat) (e : env)
  (w : world) :
  let w' := snd (cleanup_existing_ipsets fuel e w) in
  fs w' = fs w /\
  Chain.subseq (INPUT4 (kern w')) (INPUT4 (kern w)) /\
  Chain.subseq (INPUT6 (kern w')) (INPUT6 (kern w)) /\
  foreign_rules (INPUT4 (kern w')) = foreign_rules (INPUT4 (kern w)) /\
  foreign_rules (INPUT6 (kern w')) = foreign_rules (INPUT6 (kern w)) /\
  filter (fun s => negb (is_geoip_set (set_name s))) (ipsets (kern w'))
  = filter (fun s => negb (is_geoip_set (set_name s))) (ipsets (kern w)).
Proof.
  destruct (cleanup_existing_ipsets_foreign fuel e w) as (Hf & Hk & _).
  split; [symmetry; exact Hf | exact Hk].
Qed.

(* ================================================================= *)
(** ** Address-set manager: the sets it leaves *)

Lemma has_set_app (name : string) (a b : list ipset) (k : kernel) :
  Kernel.has_set name (set_ipsets (a ++ b) k)
  = Kernel.has_set name (set_ipsets a k) || Kernel.has_set name (set_ipsets b k).
Proof. unfold Kernel.has_set. simpl. apply existsb_app. Qed.

Lemma flush_set_fresh (name : string) (fam : family) (sets : list ipset) :
  existsb (fun s => set_name s =? name) sets = false ->
  Kernel.flush_set name
    (sets ++ [{| set_name := name; set_family := fam; set_members := [] |}])
  = (sets ++ [{| set_name := name; set_family := fam; set_members := [] |}])%list.
Proof.
  induction sets as [| s sets IH]; simpl; intros H.
  - now rewrite String.eqb_refl.
  - apply orb_false_iff in H. destruct H as [-> H]. now rewrite IH.
Qed.

Lemma add_member_last (name ip : string) (fam : family) (ms : list string)
  (sets : list ipset) :
  existsb (fun s => set_name s =? name) sets = false ->
  Kernel.add_member name ip
    (sets ++ [{| set_name := name; set_family := fam; set_members := ms |}])
  = (sets ++ [{| set_name := name; set_family := fam;
                 set_members := ms ++ [ip] |}])%list.
Proof.
  induction sets as [| s sets IH]; simpl; intros H.
  - now rewrite String.eqb_refl.
  - apply orb_false_iff in H. destruct H as [-> H]. now rewrite IH.
Qed.

Lemma restore_last (name : string) (fam : family) (ranges ms : list string)
  (sets : list ipset) (k : kernel) :
  existsb (fun s => set_name s =? name) sets = false ->
  Kernel.restore (map (fun ip => (name, ip)) ranges)
    (set_ipsets
       (sets ++ [{| set_name := name; set_family := fam; set_members := ms |}]) k)
  = (true,
     set_ipsets
       (sets ++ [{| set_name := name; set_family := fam;
                    set_members := ms ++ ranges |}]) k).
Proof.
  intros H. revert ms. induction ranges as [| ip rest IH]; intros ms.
  - simpl. now rewrite app_nil_r.
  - cbn [map Kernel.restore].
    assert (Hs : Kernel.has_set name
                   (set_ipsets
                      (sets ++ [{| set_name := name; set_family := fam;
                                   set_members := ms |}]) k) = true).
    { unfold Kernel.has_set. simpl. rewrite existsb_app. simpl.
      rewrite String.eqb_refl. apply orb_true_iff. right. reflexivity. }
    rewrite Hs. specialize (IH (ms ++ [ip])%list).
    unfold set_ipsets in *. cbn [ipsets INPUT4 INPUT6] in *.
    rewrite add_member_last by exact H.
    rewrite IH, <- app_assoc. reflexivity.
Qed.

Section ApplyExact.

Variable e : env.
Hypothesis Hok : all_commands_ok e.

(** create, flush and load of a set that is not resident. *)
Lemma populate_exact (name : string) (fam : family) (ranges : list string)
  (w : world) :
  Kernel.has_set name (kern w) = false ->
  exists w',
    populate name fam ranges e w = (Ret tt, w') /\
    kern w'
    = set_ipsets
        (ipsets (kern w) ++ [{| set_name := name; set_family := fam;
                                set_members := ranges |}]) (kern w) /\
    fs w' = fs w /\ ALL_COUNTRIES w' = ALL_COUNTRIES w.
Proof.
  intros Hn. unfold populate, subprocess_run_check.
  unfold bind at 1 2. rewrite subprocess_run_ok by exact Hok.
  cbn [Kernel.exec]. rewrite Hn. cbn [returncode_ok ret].
  unfold bind at 1 2. rewrite subprocess_run_ok by exact Hok.
  cbn [Kernel.exec kern log_event set_kern].
  assert (H1 : Kernel.has_set name
                 (set_ipsets
                    (ipsets (kern w) ++
                     [{| set_name := name; set_family := fam;
                         set_members := [] |}]) (kern w)) = true).
  { unfold Kernel.has_set. simpl. rewrite existsb_app. simpl.
    rewrite String.eqb_refl. apply orb_true_iff. right. reflexivity. }
  rewrite H1. cbn [returncode_ok ret ipsets set_ipsets].
  rewrite flush_set_fresh by exact Hn.
  unfold bind. rewrite subprocess_run_ok by exact Hok.
  cbn [Kernel.exec kern log_event set_kern].
  pose proof (restore_last name fam ranges [] (ipsets (kern w))
                (set_ipsets
                   (ipsets (kern w) ++
                    [{| set_name := name; set_family := fam;
                        set_members := [] |}]) (kern w)) Hn) as Hr.
  cbn [set_ipsets ipsets INPUT4 INPUT6 app] in Hr.
  cbn [set_ipsets ipsets INPUT4 INPUT6]. rewrite Hr.
  cbn [returncode_ok ret]. eexists. split; [reflexivity |].
  destruct w; simpl. auto.
Qed.

Lemma apply_country_exact (c : string) (ranges : list string) (w : world) :
  (forall s, In s (country_sets (c, ranges)) ->
             Kernel.has_set (set_name s) (kern w) = false) ->
  exists w',
    apply_country c ranges e w = (Ret true, w') /\
    kern w' = set_ipsets (ipsets (kern w) ++ country_sets (c, ranges)) (kern w) /\
    fs w' = fs w /\ ALL_COUNTRIES w' = ALL_COUNTRIES w.
Proof.
  unfold apply_country, country_sets, when_nonempty. intros Hfresh.
  destruct (filter (fun ip => negb (has_colon ip)) ranges) as [| a v4] eqn:E4;
    destruct (filter has_colon ranges) as [| b v6] eqn:E6.
  - exists w. split; [reflexivity |]. simpl. rewrite app_nil_r.
    destruct w as [f [s i4 i6] ac t]; simpl. auto.
  - destruct (populate_exact (set_name_v6 c) Inet6 (b :: v6) w)
      as (w1 & E1 & K1 & F1 & A1).
    { apply (Hfresh {| set_name := set_name_v6 c; set_family := Inet6;
                       set_members := b :: v6 |}). now left. }
    exists w1. split; [| auto].
    unfold try_except, bind. cbn [ret]. now rewrite E1.
  - destruct (populate_exact (set_name_v4 c) Inet (a :: v4) w)
      as (w1 & E1 & K1 & F1 & A1).
    { apply (Hfresh {| set_name := set_name_v4 c; set_family := Inet;
                       set_members := a :: v4 |}). now left. }
    exists w1. split; [| auto].
    unfold try_except, bind. now rewrite E1.
  - destruct (populate_exact (set_name_v4 c) Inet (a :: v4) w)
      as (w1 & E1 & K1 & F1 & A1).
    { apply (Hfresh {| set_name := set_name_v4 c; set_family := Inet;
                       set_members := a :: v4 |}). now left. }
    destruct (populate_exact (set_name_v6 c) Inet6 (b :: v6) w1)
      as (w2 & E2 & K2 & F2 & A2).
    { rewrite K1. unfold Kernel.has_set. cbn [set_ipsets ipsets].
      rewrite existsb_app. cbn [existsb set_name].
      apply orb_false_iff. split.
      - apply (Hfresh {| set_name := set_name_v6 c; set_family := Inet6;
                         set_members := b :: v6 |}). right. now left.
      - rewrite orb_false_r. apply String.eqb_neq. apply set_names_distinct. }
    exists w2. split.
    + unfold try_except, bind. now rewrite E1, E2.
    + rewrite K2, K1. cbn [set_ipsets ipsets INPUT4 INPUT6].
      rewrite <- app_assoc. split; [reflexivity | split; congruence].
Qed.

Lemma has_set_false (name : string) (k : kernel) :
  Kernel.has_set name k = false <-> ~ In name (map set_name (ipsets k)).
Proof.
  unfold Kernel.has_set. split.
  - intros H Hin. apply in_map_iff in Hin. destruct Hin as (s & Hs & Hin).
    assert (Ht : existsb (fun s => set_name s =? name) (ipsets k) = true).
    { apply existsb_exists. exists s. split; [exact Hin |].
      now apply String.eqb_eq. }
    congruence.
  - intros H. destruct (existsb _ _) eqn:E; [| reflexivity].
    apply existsb_exists in E. destruct E as (s & Hin & Hs).
    apply String.eqb_eq in Hs. elim H. apply in_map_iff. eauto.
Qed.

Lemma NoDup_app_disjoint {A} (l1 l2 : list A) (a : A) :
  NoDup (l1 ++ l2) -> In a l1 -> In a l2 -> False.
Proof.
  induction l1 as [| x l1 IH]; simpl; intros H H1 H2; [contradiction |].
  inversion H as [| ? ? Hx Hr]; subst. destruct H1 as [-> | H1].
  - apply Hx. apply in_or_app. now right.
  - now apply IH.
Qed.

Lemma apply_countries_exact (m : CountryRangeMap) :
  forall w,
    NoDup (map set_name (installed_sets m)) ->
    (forall s, In s (installed_sets m) ->
               Kernel.has_set (set_name s) (kern w) = false) ->
    exists w',
      apply_countries m e w = (Ret true, w') /\
      kern w' = set_ipsets (ipsets (kern w) ++ installed_sets m) (kern w) /\
      fs w' = fs w /\ ALL_COUNTRIES w' = ALL_COUNTRIES w.
Proof.
  induction m as [| [c ranges] rest IH]; intros w Hnd Hfresh.
  - exists w. split; [reflexivity |]. simpl. rewrite app_nil_r.
    destruct w as [f [s i4 i6] ac t]; simpl. auto.
  - cbn [installed_sets flat_map] in Hnd, Hfresh.
    fold (installed_sets rest) in Hnd, Hfresh.
    rewrite map_app in Hnd.
    destruct (apply_country_exact c ranges w) as (w1 & E1 & K1 & F1 & A1).
    { intros s Hs. apply Hfresh. apply in_or_app. now left. }
    destruct (IH w1) as (w2 & E2 & K2 & F2 & A2).
    { exact (NoDup_app_remove_l _ _ Hnd). }
    { intros s Hs. apply has_set_false. rewrite K1. cbn [set_ipsets ipsets].
      rewrite map_app. intros Hin. apply in_app_or in Hin.
      destruct Hin as [Hin | Hin].
      - apply has_set_false in Hin; [exact Hin |].
        apply Hfresh. apply in_or_app. now right.
      - apply (NoDup_app_disjoint _ _ (set_name s) Hnd);
          [exact Hin | now apply in_map]. }
    exists w2. split.
    + cbn [apply_countries]. unfold bind. now rewrite E1.
    + rewrite K2, K1. cbn [installed_sets flat_map set_ipsets ipsets INPUT4 INPUT6].
      rewrite <- app_assoc. split; [reflexivity | split; congruence].
Qed.

Lemma apply_native_ipset_exact (m : CountryRangeMap) (w : world) :
  NoDup (map set_name (installed_sets m)) ->
  (forall s, In s (installed_sets m) ->
             Kernel.has_set (set_name s) (kern w) = false) ->
  exists w',
    apply_native_ipset m e w = (Ret true, w') /\
    kern w' = set_ipsets (ipsets (kern w) ++ installed_sets m) (kern w) /\
    fs w' = fs w /\ ALL_COUNTRIES w' = map fst m.
Proof.
  intros Hnd Hfresh. unfold apply_native_ipset, bind.
  destruct (apply_countries_exact m (set_ALL_COUNTRIES (map fst m) w) Hnd)
    as (w' & E & K & F & A); [exact Hfresh |].
  exists w'. split; [exact E |]. auto.
Qed.

End ApplyExact.

(* ================================================================= *)
(** ** Address-set manager: the family of each prefix *)






(** X10: what the address-set manager leaves in the kernel.  With every
    command succeeding, for a map whose set names are pairwise distinct and
    none of them resident, [apply_native_ipset] returns [True] and the
    kernel holds, after the sets it had, one set for each country and family
    that has a prefix, in the order of the map: the IPv4 set with exactly
    the prefixes without a colon, the IPv6 set with exactly those with one,
    each in the order of the list.  The chains and the files are untouched
    and [ALL_COUNTRIES] holds the keys of the map. *)
Theorem apply_native_ipset_installs_the_map (m : CountryRangeMap) (e : env)
  (w : world) :
  all_commands_ok e ->
  NoDup (map set_name (installed_sets m)) ->
  (forall s, In s (installed_sets m) ->
             Kernel.has_set (set_name s) (kern w) = false) ->
  exists w',
    apply_native_ipset m e w = (Ret true, w') /\
    kern w'
    = {| ipsets := (ipsets (kern w) ++ installed_sets m)%list;
         INPUT4 := INPUT4 (kern w);
         INPUT6 := INPUT6 (kern w) |} /\
    fs w' = fs w /\ ALL_COUNTRIES w' = map fst m.
Proof. intros Hok. now apply apply_native_ipset_exact. Qed.

Lemma apply_native_ipset_installs_the_map_witness :
  exists w',
    apply_native_ipset
      [("KR", ["1.0.0.0/24"; "2001:db8::/32"]); ("US", ["8.8.8.0/24"])]
      Scenario.quiet_march
      (boot Scenario.march_files Scenario.empty_kernel) = (Ret true, w') /\
    ipsets (kern w') = ipsets Scenario.march_kernel.
Proof.
  destruct (apply_native_ipset_installs_the_map
              [("KR", ["1.0.0.0/24"; "2001:db8::/32"]); ("US", ["8.8.8.0/24"])]
              Scenario.quiet_march
              (boot Scenario.march_files Scenario.empty_kernel))
    as (w' & E & K & _).
  - intros n c. reflexivity.
  - cbn. repeat constructor; simpl; intuition discriminate.
  - intros s _. reflexivity.
  - exists w'. split; [exact E |]. rewrite K. reflexivity.
Defined.

(* ================================================================= *)
(** ** Rule chain builder: the chains it leaves *)

Section SetupExact.

Variable e : env.
Hypothesis Hok : all_commands_ok e.
Variable sets : list ipset.
Variable ac : list string.

Local Abbreviation adds := (adds_rules e sets ac).

Lemma adds_ret {A} (a : A) (P : A -> Prop) : P a -> adds (ret a) P [] [].
Proof.
  intros HP w Hs Ha. exists a, w. split; [reflexivity |].
  rewrite !app_nil_r. destruct w as [f [s i4 i6] c t]; simpl in *. subst. auto.
Qed.

Lemma adds_bind {A B} (m : M A) (k : A -> M B) (P : A -> Prop) (Q : B -> Prop)
  (a4 a6 b4 b6 : list rule) :
  adds m P a4 a6 -> (forall a, P a -> adds (k a) Q b4 b6) ->
  adds (bind m k) Q (a4 ++ b4) (a6 ++ b6).
Proof.
  intros Hm Hk w Hs Ha.
  destruct (Hm w Hs Ha) as (x & w1 & E1 & Px & K1 & A1 & F1).
  destruct (Hk x Px w1) as (y & w2 & E2 & Qy & K2 & A2 & F2);
    [rewrite K1; reflexivity | exact A1 |].
  exists y, w2. split; [unfold bind; now rewrite E1 |].
  split; [exact Qy |]. rewrite K2, K1. cbn [INPUT4 INPUT6].
  rewrite !app_assoc. repeat split; congruence.
Qed.

Lemma adds_weaken {A} (m : M A) (P Q : A -> Prop) (a4 a6 b4 b6 : list rule) :
  (forall a, P a -> Q a) -> a4 = b4 -> a6 = b6 ->
  adds m P a4 a6 -> adds m Q b4 b6.
Proof.
  intros HPQ <- <- H w Hs Ha.
  destruct (H w Hs Ha) as (x & w' & E & Px & R). exists x, w'. auto.
Qed.

Lemma adds_append_rule (fam : family) (r : rule) :
  adds (append_rule fam r) (fun _ => True)
    (match fam with Inet => [r] | Inet6 => [] end)
    (match fam with Inet => [] | Inet6 => [r] end).
Proof.
  intros w Hs Ha. unfold append_rule, subprocess_run_check, bind.
  rewrite subprocess_run_ok by exact Hok. cbn [Kernel.exec returncode_ok ret].
  eexists tt, _. split; [reflexivity |]. split; [exact I |].
  destruct w as [f [s i4 i6] c t]; destruct fam; simpl in *; subst;
    rewrite ?app_nil_r; auto.
Qed.

Lemma adds_ipset_exists (name : string) :
  adds (ipset_exists name) (fun b => b = resident sets name) [] [].
Proof.
  intros w Hs Ha. unfold ipset_exists, bind.
  rewrite subprocess_run_ok by exact Hok.
  unfold Kernel.exec, Kernel.has_set. rewrite Hs. fold (resident sets name).
  rewrite !app_nil_r.
  destruct (resident sets name); eexists _, _; (split; [reflexivity |]);
    (split; [reflexivity |]);
    destruct w as [f [s i4 i6] c t]; simpl in *; subst; auto.
Qed.

Lemma adds_guarded (m : M unit) (a4 a6 : list rule) :
  adds m (fun _ => True) a4 a6 -> adds (guarded m) (fun ok => ok = true) a4 a6.
Proof.
  intros H w Hs Ha. destruct (H w Hs Ha) as ([] & w' & E & _ & R).
  exists true, w'. split; [| auto].
  unfold guarded, try_except, bind. now rewrite E.
Qed.

Lemma adds_and_then (a b : M bool) (a4 a6 b4 b6 : list rule) :
  adds a (fun ok => ok = true) a4 a6 -> adds b (fun ok => ok = true) b4 b6 ->
  adds (a >>? b) (fun ok => ok = true) (a4 ++ b4) (a6 ++ b6).
Proof.
  intros Ha Hb. unfold and_then.
  eapply adds_bind; [exact Ha |]. intros ok ->. exact Hb.
Qed.

Lemma adds_private4 (l : list string) :
  adds (for_each l (fun network => append_rule Inet (Rules.private network)))
    (fun _ => True) (map Rules.private l) [].
Proof.
  induction l as [| n l IH]; simpl; [now apply adds_ret |].
  eapply adds_weaken;
    [| | | eapply adds_bind; [apply (adds_append_rule Inet) | intros _ _; exact IH]];
    auto.
Qed.

Lemma adds_private6 (l : list string) :
  adds (for_each l (fun network => append_rule Inet6 (Rules.private network)))
    (fun _ => True) [] (map Rules.private l).
Proof.
  induction l as [| n l IH]; simpl; [now apply adds_ret |].
  eapply adds_weaken;
    [| | | eapply adds_bind; [apply (adds_append_rule Inet6) | intros _ _; exact IH]];
    auto.
Qed.

(** The body of either country loop: a pair of rules for each family whose
    set is resident. *)
Lemma adds_country (c : string) (log4 act4 log6 act6 : rule) :
  adds
    (ipv4_exists <- ipset_exists (set_name_v4 c) ;;
     (if ipv4_exists then append_rule Inet log4 ;;; append_rule Inet act4
      else ret tt) ;;;
     ipv6_exists <- ipset_exists (set_name_v6 c) ;;
     (if ipv6_exists then append_rule Inet6 log6 ;;; append_rule Inet6 act6
      else ret tt))
    (fun _ => True)
    (if resident sets (set_name_v4 c) then [log4; act4] else [])
    (if resident sets (set_name_v6 c) then [log6; act6] else []).
Proof.
  eapply adds_weaken; [intros a H; exact H | | |].
  3: { eapply adds_bind; [apply adds_ipset_exists |]. intros b4 ->.
       eapply adds_bind with (P := fun _ => True)
                             (a4 := if resident sets (set_name_v4 c)
                                    then [log4; act4] else [])
                             (a6 := []).
       - destruct (resident sets (set_name_v4 c)); [| now apply adds_ret].
         eapply adds_weaken;
           [| | | eapply adds_bind;
                  [apply (adds_append_rule Inet)
                  | intros _ _; apply (adds_append_rule Inet)]]; auto.
       - intros _ _. eapply adds_bind; [apply adds_ipset_exists |].
         intros b6 ->.
         instantiate (1 := if resident sets (set_name_v6 c)
                           then [log6; act6] else []).
         instantiate (1 := []).
         destruct (resident sets (set_name_v6 c)); [| now apply adds_ret].
         eapply adds_weaken;
           [| | | eapply adds_bind;
                  [apply (adds_append_rule Inet6)
                  | intros _ _; apply (adds_append_rule Inet6)]]; auto. }
  - simpl. now rewrite app_nil_r.
  - reflexivity.
Qed.

Lemma flat_map_resident (g : string -> list rule) (name : string -> string)
  (l : list string) :
  flat_map (fun c => if resident sets (name c) then g c else []) l
  = flat_map g (filter (fun c => resident sets (name c)) l).
Proof.
  induction l as [| c l IH]; simpl; [reflexivity |].
  destruct (resident sets (name c)); simpl; now rewrite IH.
Qed.

Lemma adds_for_each_guarded (l : list string) (body : string -> M unit)
  (g4 g6 : string -> list rule) :
  (forall c, adds (body c) (fun _ => True) (g4 c) (g6 c)) ->
  adds (for_each_guarded l body) (fun ok => ok = true)
    (flat_map g4 l) (flat_map g6 l).
Proof.
  intros H. induction l as [| c l IH]; simpl; [now apply adds_ret |].
  apply adds_and_then; [apply adds_guarded, H | exact IH].
Qed.

Lemma adds_setup_firewall_rules (allowed : list string) :
  adds (setup_firewall_rules allowed) (fun ok => ok = true)
    (Chain.ipv4
       (filter (fun c => resident sets (set_name_v4 c)) allowed)
       (filter (fun c => resident sets (set_name_v4 c))
          (Chain.blocked allowed ac)))
    (Chain.ipv6
       (filter (fun c => resident sets (set_name_v6 c)) allowed)
       (filter (fun c => resident sets (set_name_v6 c))
          (Chain.blocked allowed ac))).
Proof.
  unfold setup_firewall_rules, Chain.ipv4, Chain.ipv6.
  apply adds_and_then.
  { apply adds_guarded.
    apply (adds_bind _ _ (fun _ => True) _ [Rules.stateful] [] [] [Rules.stateful]);
      [apply (adds_append_rule Inet) | intros _ _; apply (adds_append_rule Inet6)]. }
  apply adds_and_then.
  { apply adds_guarded.
    apply (adds_bind _ _ (fun _ => True) _ [Rules.localhost] [] [] [Rules.localhost]);
      [apply (adds_append_rule Inet) | intros _ _; apply (adds_append_rule Inet6)]. }
  apply adds_and_then.
  { apply adds_guarded.
    eapply adds_weaken;
      [| | | eapply adds_bind;
             [apply adds_private4 | intros _ _; apply adds_private6]];
      auto using app_nil_r. }
  intros w Hs Ha. rewrite Ha.
  revert w Hs Ha.
  change (adds
            (for_each_guarded allowed allow_country >>?
             for_each_guarded (Chain.blocked allowed ac) block_country >>?
             guarded (append_rule Inet Rules.default_log ;;;
                      append_rule Inet Rules.default_drop ;;;
                      append_rule Inet6 Rules.default_log ;;;
                      append_rule Inet6 Rules.default_drop))
            (fun ok => ok = true)
            (flat_map Chain.allow4
               (filter (fun c => resident sets (set_name_v4 c)) allowed) ++
             flat_map Chain.block4
               (filter (fun c => resident sets (set_name_v4 c))
                  (Chain.blocked allowed ac)) ++
             [Rules.default_log; Rules.default_drop])
            (flat_map Chain.allow6
               (filter (fun c => resident sets (set_name_v6 c)) allowed) ++
             flat_map Chain.block6
               (filter (fun c => resident sets (set_name_v6 c))
                  (Chain.blocked allowed ac)) ++
             [Rules.default_log; Rules.default_drop])).
  rewrite <- !flat_map_resident.
  apply adds_and_then.
  { apply adds_for_each_guarded with
      (g4 := fun c => if resident sets (set_name_v4 c)
                      then Chain.allow4 c else [])
      (g6 := fun c => if resident sets (set_name_v6 c)
                      then Chain.allow6 c else []).
    intros c. apply adds_country. }
  apply adds_and_then.
  { apply adds_for_each_guarded with
      (g4 := fun c => if resident sets (set_name_v4 c)
                      then Chain.block4 c else [])
      (g6 := fun c => if resident sets (set_name_v6 c)
                      then Chain.block6 c else []).
    intros c. apply adds_country. }
  apply adds_guarded.
  apply (adds_bind _ _ (fun _ => True) _ [Rules.default_log] []
           [Rules.default_drop] [Rules.default_log; Rules.default_drop]);
    [apply (adds_append_rule Inet) | intros _ _].
  apply (adds_bind _ _ (fun _ => True) _ [Rules.default_drop] []
           [] [Rules.default_log; Rules.default_drop]);
    [apply (adds_append_rule Inet) | intros _ _].
  apply (adds_bind _ _ (fun _ => True) _ [] [Rules.default_log]
           [] [Rules.default_drop]);
    [apply (adds_append_rule Inet6) | intros _ _].
  apply (adds_append_rule Inet6).
Qed.

End SetupExact.

(* ================================================================= *)
(** ** Rule chain builder: the order of the rules *)

Lemma In_foreign_rules (c : list rule) (r : rule) :
  foreign_rules c = c -> In r c -> tagged "geoip-firewall" r = false.
Proof.
  intros Hf Hin. rewrite <- Hf in Hin. apply filter_In in Hin.
  destruct Hin as [_ H]. now apply negb_true_iff in H.
Qed.

Lemma nth_error_after_foreign (old a : list rule) (r : rule) (i : nat) :
  foreign_rules old = old -> tagged "geoip-firewall" r = true ->
  nth_error (old ++ a)%list i = Some r ->
  List.length old <= i /\ nth_error a (i - List.length old) = Some r.
Proof.
  intros Hf Ht Hn.
  destruct (Nat.lt_ge_cases i (List.length old)) as [Hlt | Hge].
  - rewrite nth_error_app1 in Hn by exact Hlt.
    apply nth_error_In in Hn.
    rewrite (In_foreign_rules old r Hf Hn) in Ht. discriminate.
  - rewrite nth_error_app2 in Hn by exact Hge. auto.
Qed.

Lemma order_after_foreign (old a : list rule) :
  foreign_rules old = old ->
  (forall i j, nth_error a i = Some Rules.stateful ->
               nth_error a j = Some Rules.default_drop -> i < j) ->
  forall i j, nth_error (old ++ a)%list i = Some Rules.stateful ->
              nth_error (old ++ a)%list j = Some Rules.default_drop -> i < j.
Proof.
  intros Hf Ha i j Hi Hj.
  apply (nth_error_after_foreign old a Rules.stateful i Hf eq_refl) in Hi.
  apply (nth_error_after_foreign old a Rules.default_drop j Hf eq_refl) in Hj.
  destruct Hi as [Li Hi], Hj as [Lj Hj].
  specialize (Ha _ _ Hi Hj). lia.
Qed.

(** C2 (as amended): [setup_firewall_rules] only appends.  Whatever the
    environment answers, the rules it appends to each chain, after the
    rules the chain already holds, are an initial stretch of the list
    (1) stateful accept, (2) loopback accept, (3) the private network
    accepts, (4) log then accept for allowed countries, (5) log then drop
    for blocked countries, (6) default log then drop, the countries being
    those whose set was found, in the order of the lists; they are the
    whole list when the function returns [True]; and among them the
    stateful accept comes before the default drop.  When every command
    succeeds the function returns [True] and the appended rules are that
    list for the countries whose set of the family is resident.  The chain
    as a whole has the order when it held no rule of this system before:
    then the stateful accept comes before the default drop in the chain. *)
Theorem C2_rules_appended_in_fixed_order (allowed : list string) (e : env)
  (w : world) :
  let r := setup_firewall_rules allowed e w in
  let has4 := fun c => Kernel.has_set (set_name_v4 c) (kern w) in
  let has6 := fun c => Kernel.has_set (set_name_v6 c) (kern w) in
  let blocked := Chain.blocked allowed (ALL_COUNTRIES w) in
  exists a4 a6 A4 A6 B4 B6,
    INPUT4 (kern (snd r)) = (INPUT4 (kern w) ++ a4)%list /\
    INPUT6 (kern (snd r)) = (INPUT6 (kern w) ++ a6)%list /\
    Chain.subseq A4 allowed /\ Chain.subseq A6 allowed /\
    Chain.subseq B4 blocked /\ Chain.subseq B6 blocked /\
    Chain.prefix_of a4 (Chain.ipv4 A4 B4) /\
    Chain.prefix_of a6 (Chain.ipv6 A6 B6) /\
    (fst r = Ret true -> a4 = Chain.ipv4 A4 B4 /\ a6 = Chain.ipv6 A6 B6) /\
    (forall i j, nth_error a4 i = Some Rules.stateful ->
                 nth_error a4 j = Some Rules.default_drop -> i < j) /\
    (forall i j, nth_error a6 i = Some Rules.stateful ->
                 nth_error a6 j = Some Rules.default_drop -> i < j) /\
    (all_commands_ok e ->
     fst r = Ret true /\
     a4 = Chain.ipv4 (filter has4 allowed) (filter has4 blocked) /\
     a6 = Chain.ipv6 (filter has6 allowed) (filter has6 blocked)) /\
    (foreign_rules (INPUT4 (kern w)) = INPUT4 (kern w) ->
     forall i j,
       nth_error (INPUT4 (kern (snd r))) i = Some Rules.stateful ->
       nth_error (INPUT4 (kern (snd r))) j = Some Rules.default_drop ->
       i < j) /\
    (foreign_rules (INPUT6 (kern w)) = INPUT6 (kern w) ->
     forall i j,
       nth_error (INPUT6 (kern (snd r))) i = Some Rules.stateful ->
       nth_error (INPUT6 (kern (snd r))) j = Some Rules.default_drop ->
       i < j).
Proof.
  intros r has4 has6 blocked. subst r blocked.
  destruct (ChainFacts.setup_firewall_rules_builds allowed e w)
    as (a4 & a6 & f4 & f6 & (E4 & E6 & _ & _) &
          (A4 & A6 & B4 & B6 & SA4 & SA6 & SB4 & SB6 & -> & ->) & P4 & P6 & Hc).
  assert (O4 : forall i j, nth_error a4 i = Some Rules.stateful ->
                           nth_error a4 j = Some Rules.default_drop -> i < j).
  { intros i j. now apply ChainFacts.ipv4_order with (A := A4) (B := B4). }
  assert (O6 : forall i j, nth_error a6 i = Some Rules.stateful ->
                           nth_error a6 j = Some Rules.default_drop -> i < j).
  { intros i j. now apply ChainFacts.ipv6_order with (A := A6) (B := B6). }
  exists a4, a6, A4, A6, B4, B6.
  repeat match goal with |- _ /\ _ => split end; auto.
  - intros Hr. apply Hc. rewrite Hr. reflexivity.
  - intros Hok.
    destruct (adds_setup_firewall_rules e Hok (ipsets (kern w))
                (ALL_COUNTRIES w) allowed w eq_refl eq_refl)
      as (ok & w' & E & -> & K & _).
    rewrite E in E4, E6 |- *. cbn [fst snd] in *. rewrite K in E4, E6.
    cbn [INPUT4 INPUT6] in E4, E6.
    apply app_inv_head in E4. apply app_inv_head in E6.
    split; [reflexivity |]. split; symmetry; assumption.
  - intros Hf. rewrite E4. now apply order_after_foreign.
  - intros Hf. rewrite E6. now apply order_after_foreign.
Qed.

Lemma C2_witness :
  let w := {| fs := Scenario.march_files;
              kern := {| ipsets := ipsets Scenario.march_kernel;
                         INPUT4 := []; INPUT6 := [] |};
              ALL_COUNTRIES := ["KR"; "US"]; trace := [] |} in
  let r := setup_firewall_rules ["KR"] Scenario.quiet_march w in
  fst r = Ret true /\
  INPUT4 (kern (snd r)) = INPUT4 Scenario.march_kernel /\
  INPUT6 (kern (snd r)) = INPUT6 Scenario.march_kernel /\
  forall i j,
    nth_error (INPUT4 (kern (snd r))) i = Some Rules.stateful ->
    nth_error (INPUT4 (kern (snd r))) j = Some Rules.default_drop -> i < j.
Proof.
  intros w r.
  destruct (C2_rules_appended_in_fixed_order ["KR"] Scenario.quiet_march w)
    as (a4 & a6 & A4 & A6 & B4 & B6 & E4 & E6 & _ & _ & _ & _ & _ & _ & _ & _
          & _ & Hok & H4 & _).
  destruct Hok as (Hr & -> & ->); [intros n c; reflexivity |].
  split; [exact Hr |]. split; [exact E4 |]. split; [exact E6 |].
  apply H4. reflexivity.
Defined.

(** C2, as first stated, fails for the chain as a whole when rules of an
    earlier synchronization are still in it.  On a synchronized host whose
    chain listing is refused while every other command succeeds, cleanup
    deletes no rule, the run returns [True], and the new rules stand behind
    the old ones: the old default drop at position 11 comes before the new
    stateful accept at position 12. *)
Lemma C2_counterexample_old_rules_stay_in_front :
  let r := smart_update 100 Faults.april_listing_refused
             (boot Scenario.march_files Scenario.march_kernel) in
  fst r = Ret true /\
  List.length (INPUT4 (kern (snd r))) = 24 /\
  nth_error (INPUT4 (kern (snd r))) 11 = Some Rules.default_drop /\
  nth_error (INPUT4 (kern (snd r))) 12 = Some Rules.stateful /\
  ~ (forall i j,
       nth_error (INPUT4 (kern (snd r))) i = Some Rules.stateful ->
       nth_error (INPUT4 (kern (snd r))) j = Some Rules.default_drop ->
       i < j).
Proof.
  vm_compute. repeat split.
  intros H. specialize (H 12 11 eq_refl eq_refl). lia.
Qed.

(** X11: the chains the rule builder leaves.  With every command
    succeeding, [setup_firewall_rules] returns [True] having appended to
    each chain, after the rules already there: the stateful accept, the
    loopback accept, the private networks, then log and accept for each
    allowed country whose set of that family is resident, log and drop for
    each country of [ALL_COUNTRIES] outside the allowed list whose set is
    resident, and the default log and drop.  A country without a resident
    set gets no rule; sets, files and [ALL_COUNTRIES] are untouched. *)
Theorem setup_firewall_rules_builds_the_chains (allowed : list string)
  (e : env) (w : world) :
  all_commands_ok e ->
  let has4 := fun c => Kernel.has_set (set_name_v4 c) (kern w) in
  let has6 := fun c => Kernel.has_set (set_name_v6 c) (kern w) in
  let blocked := Chain.blocked allowed (ALL_COUNTRIES w) in
  exists w',
    setup_firewall_rules allowed e w = (Ret true, w') /\
    kern w'
    = {| ipsets := ipsets (kern w);
         INPUT4 := (INPUT4 (kern w)
                    ++ Chain.ipv4 (filter has4 allowed) (filter has4 blocked))%list;
         INPUT6 := (INPUT6 (kern w)
                    ++ Chain.ipv6 (filter has6 allowed) (filter has6 blocked))%list
      |} /\
    fs w' = fs w /\ ALL_COUNTRIES w' = ALL_COUNTRIES w.
Proof.
  intros Hok has4 has6 blocked.
  destruct (adds_setup_firewall_rules e Hok (ipsets (kern w)) (ALL_COUNTRIES w)
              allowed w eq_refl eq_refl)
    as (ok & w' & E & -> & K & A & F).
  exists w'. split; [exact E |]. split; [exact K | auto].
Qed.

Lemma setup_firewall_rules_builds_the_chains_witness :
  exists w',
    setup_firewall_rules ["KR"] Scenario.quiet_march
      {| fs := Scenario.march_files;
         kern := {| ipsets := ipsets Scenario.march_kernel;
                    INPUT4 := []; INPUT6 := [] |};
         ALL_COUNTRIES := ["KR"; "US"]; trace := [] |} = (Ret true, w') /\
    kern w' = Scenario.march_kernel.
Proof.
  destruct (setup_firewall_rules_builds_the_chains ["KR"] Scenario.quiet_march
              {| fs := Scenario.march_files;
                 kern := {| ipsets := ipsets Scenario.march_kernel;
                            INPUT4 := []; INPUT6 := [] |};
                 ALL_COUNTRIES := ["KR"; "US"]; trace := [] |})
    as (w' & E & K & _).
  - intros n c. reflexivity.
  - exists w'. split; [exact E |]. rewrite K. reflexivity.
Defined.

(* ================================================================= *)
(** ** Rule chain builder: whom it drops *)









(* ================================================================= *)
(** ** The rebuild, end to end *)

Lemma installed_sets_named (m : CountryRangeMap) (s : ipset) :
  In s (installed_sets m) -> is_geoip_set (set_name s) = true.
Proof.
  unfold installed_sets. intros H. apply in_flat_map in H.
  destruct H as ([c ranges] & _ & H). unfold country_sets in H.
  apply in_app_or in H.
  destruct (geoip_set_names c) as [H4 H6].
  destruct H as [H | H].
  - destruct (filter _ ranges); [contradiction |].
    destruct H as [<- | []]. exact H4.
  - destruct (filter has_colon ranges); [contradiction |].
    destruct H as [<- | []]. exact H6.
Qed.

Lemma foreign_sets_fresh (sets : list ipset) (name : string) :
  is_geoip_set name = true ->
  existsb (fun s => set_name s =? name)
    (filter (fun s => negb (is_geoip_set (set_name s))) sets) = false.
Proof.
  intros Hn. induction sets as [| s sets IH]; simpl; [reflexivity |].
  destruct (is_geoip_set (set_name s)) eqn:E; simpl; [exact IH |].
  rewrite IH, orb_false_r. apply String.eqb_neq. congruence.
Qed.

Lemma resident_installed (sets : list ipset) (m : CountryRangeMap)
  (name : string) :
  is_geoip_set name = true ->
  resident (filter (fun s => negb (is_geoip_set (set_name s))) sets
            ++ installed_sets m) name
  = resident (installed_sets m) name.
Proof.
  intros Hn. unfold resident. rewrite existsb_app.
  now rewrite foreign_sets_fresh.
Qed.

(** Lines 906-929 when every command succeeds. *)
Lemma smart_update_rebuild_exact (fuel : nat) (e : env) (w : world) :
  all_commands_ok e ->
  parsed e (fs w) <> [] ->
  NoDup (map set_name (installed_sets (parsed e (fs w)))) ->
  List.length (INPUT4 (kern w)) < fuel ->
  List.length (INPUT6 (kern w)) < fuel ->
  exists w',
    smart_update_rebuild fuel e w = (Ret true, w') /\
    kern w' = rebuilt (kern w) (parsed e (fs w)) /\
    fs w' = fs w /\ ALL_COUNTRIES w' = map fst (parsed e (fs w)).
Proof.
  intros Hok Hne Hnd L4 L6. unfold rebuilt. cbv zeta.
  unfold smart_update_rebuild.
  destruct (parse_spec e w) as (tp & Ep & _).
  erewrite bind_eq by exact Ep.
  destruct (parsed e (fs w)) as [| item rest] eqn:Em; [congruence |].
  match type of Ep with
  | _ = (_, ?w1) =>
      destruct (cleanup_existing_ipsets_exact fuel e w1
                  (all_commands_ok_cleanup e Hok) L4 L6)
        as (w2 & Ec & K2 & F2 & A2)
  end.
  cbn [fs kern ALL_COUNTRIES] in K2, F2, A2.
  erewrite bind_eq by exact Ec.
  destruct (apply_native_ipset_exact e Hok (item :: rest) w2)
    as (w3 & Ea & K3 & F3 & A3).
  { exact Hnd. }
  { intros s Hs. rewrite K2. unfold Kernel.has_set. cbn [ipsets].
    apply foreign_sets_fresh.
    now apply installed_sets_named with (m := item :: rest). }
  erewrite bind_eq by exact Ea. cbn [negb].
  destruct (adds_setup_firewall_rules e Hok (ipsets (kern w3))
              (ALL_COUNTRIES w3) CONFIG.ALLOWED_COUNTRIES w3 eq_refl eq_refl)
    as (ok & w4 & Es & -> & K4 & A4 & F4).
  erewrite bind_eq by exact Es. cbn [negb].
  exists w4. split; [reflexivity |].
  rewrite K4, A4, A3, F4, F3, F2, K3, K2.
  cbn [set_ipsets ipsets INPUT4 INPUT6].
  rewrite !(filter_ext
              (fun c => resident
                          (filter (fun s => negb (is_geoip_set (set_name s)))
                             (ipsets (kern w)) ++ installed_sets (item :: rest))
                          (set_name_v4 c))
              (fun c => resident (installed_sets (item :: rest)) (set_name_v4 c)))
    by (intros c; apply resident_installed, geoip_set_names).
  rewrite !(filter_ext
              (fun c => resident
                          (filter (fun s => negb (is_geoip_set (set_name s)))
                             (ipsets (kern w)) ++ installed_sets (item :: rest))
                          (set_name_v6 c))
              (fun c => resident (installed_sets (item :: rest)) (set_name_v6 c)))
    by (intros c; apply resident_installed, geoip_set_names).
  auto.
Qed.

Lemma filter_idempotent {A} (p : A -> bool) (l : list A) :
  filter p (filter p l) = filter p l.
Proof.
  induction l as [| x l IH]; simpl; [reflexivity |].
  destruct (p x) eqn:E; simpl; [rewrite E, IH |]; auto.
Qed.

Lemma filter_installed_sets (m : CountryRangeMap) :
  filter (fun s => negb (is_geoip_set (set_name s))) (installed_sets m) = [].
Proof.
  assert (H : forall l : list ipset,
             (forall s, In s l -> is_geoip_set (set_name s) = true) ->
             filter (fun s => negb (is_geoip_set (set_name s))) l = []).
  { induction l as [| s l IH]; simpl; intros Hl; [reflexivity |].
    rewrite (Hl s) by now left. simpl. apply IH. intros s' Hs. apply Hl. now right. }
  apply H. intros s. apply installed_sets_named.
Qed.

(** A rebuilt kernel is a fixed point of the rebuild of the same map. *)
Lemma rebuilt_idempotent (k : kernel) (m : CountryRangeMap) :
  rebuilt (rebuilt k m) m = rebuilt k m.
Proof.
  unfold rebuilt. cbv zeta. cbn [ipsets INPUT4 INPUT6].
  rewrite !filter_app, !filter_idempotent, filter_installed_sets, app_nil_r.
  rewrite !foreign_rules_app.
  match goal with
  | |- context [foreign_rules (Chain.ipv4 ?A ?B)] =>
      destruct (chain_rules_tagged A B) as [T4 _];
      rewrite (foreign_rules_tagged _ T4)
  end.
  match goal with
  | |- context [foreign_rules (Chain.ipv6 ?A ?B)] =>
      destruct (chain_rules_tagged A B) as [_ T6];
      rewrite (foreign_rules_tagged _ T6)
  end.
  rewrite !app_nil_r. unfold foreign_rules. rewrite !filter_idempotent.
  reflexivity.
Qed.

(** X13: the kernel a successful rebuild leaves.  With every command
    succeeding, a database that yields at least one country and pairwise
    distinct set names, and fuel beyond the length of both chains, the
    rebuild returns [True] and the kernel holds: the address sets foreign to
    this system followed by the sets of the parsed map, and in each chain
    the foreign rules followed by the complete chain for the allowed
    countries and for the other countries of the map, a country having rules
    in a chain when one of the new sets has the name of its set of that
    family.  The files are
    untouched and [ALL_COUNTRIES] holds the countries of the map. *)
Theorem rebuild_replaces_sets_and_chains (fuel : nat) (e : env) (w : world) :
  all_commands_ok e ->
  parsed e (fs w) <> [] ->
  NoDup (map set_name (installed_sets (parsed e (fs w)))) ->
  List.length (INPUT4 (kern w)) < fuel ->
  List.length (INPUT6 (kern w)) < fuel ->
  let m := parsed e (fs w) in
  let blocked := Chain.blocked CONFIG.ALLOWED_COUNTRIES (map fst m) in
  let has4 := fun c => resident (installed_sets m) (set_name_v4 c) in
  let has6 := fun c => resident (installed_sets m) (set_name_v6 c) in
  exists w',
    smart_update_rebuild fuel e w = (Ret true, w') /\
    kern w'
    = {| ipsets := (filter (fun s => negb (is_geoip_set (set_name s)))
                      (ipsets (kern w)) ++ installed_sets m)%list;
         INPUT4 := (foreign_rules (INPUT4 (kern w))
                    ++ Chain.ipv4 (filter has4 CONFIG.ALLOWED_COUNTRIES)
                         (filter has4 blocked))%list;
         INPUT6 := (foreign_rules (INPUT6 (kern w))
                    ++ Chain.ipv6 (filter has6 CONFIG.ALLOWED_COUNTRIES)
                         (filter has6 blocked))%list |} /\
    fs w' = fs w /\ ALL_COUNTRIES w' = map fst m.
Proof.
  intros Hok Hne Hnd L4 L6. cbv zeta.
  destruct (smart_update_rebuild_exact fuel e w Hok Hne Hnd L4 L6)
    as (w' & E & K & F & A).
  exists w'. split; [exact E |]. split; [exact K | auto].
Qed.

Lemma rebuild_replaces_sets_and_chains_witness :
  exists w',
    smart_update_rebuild 20 Scenario.quiet_march
      (boot Scenario.march_files Scenario.march_kernel) = (Ret true, w') /\
    kern w' = Scenario.march_kernel.
Proof.
  destruct (rebuild_replaces_sets_and_chains 20 Scenario.quiet_march
              (boot Scenario.march_files Scenario.march_kernel))
    as (w' & E & K & _).
  - intros n c. reflexivity.
  - discriminate.
  - cbn. repeat constructor; simpl; intuition discriminate.
  - simpl. lia.
  - simpl. lia.
  - exists w'. split; [exact E |]. rewrite K. reflexivity.
Defined.

(** X14: rebuilding again changes nothing.  After a rebuild that
    succeeded, a second rebuild from the same database file, in a fresh
    process and with every command succeeding, returns [True] and leaves the
    kernel exactly as the first one left it: the same address sets with the
    same members, the same two chains. *)
Theorem rebuild_again_leaves_the_same_kernel (fuel1 fuel2 : nat) (e1 e2 : env)
  (w : world) :
  all_commands_ok e1 ->
  all_commands_ok e2 ->
  maxminddb_installed e2 = maxminddb_installed e1 ->
  parsed e1 (fs w) <> [] ->
  NoDup (map set_name (installed_sets (parsed e1 (fs w)))) ->
  List.length (INPUT4 (kern w)) < fuel1 ->
  List.length (INPUT6 (kern w)) < fuel1 ->
  let w1 := snd (smart_update_rebuild fuel1 e1 w) in
  List.length (INPUT4 (kern w1)) < fuel2 ->
  List.length (INPUT6 (kern w1)) < fuel2 ->
  fst (smart_update_rebuild fuel1 e1 w) = Ret true /\
  exists w2,
    smart_update_rebuild fuel2 e2 (boot (fs w1) (kern w1)) = (Ret true, w2) /\
    kern w2 = kern w1 /\ fs w2 = fs w1.
Proof.
  intros Hok1 Hok2 Hi Hne Hnd L4 L6 w1.
  destruct (smart_update_rebuild_exact fuel1 e1 w Hok1 Hne Hnd L4 L6)
    as (w1' & E1 & K1 & F1 & A1).
  assert (Hw : w1 = w1') by (unfold w1; now rewrite E1).
  rewrite Hw. clear Hw w1. intros M4 M6.
  split; [now rewrite E1 |].
  assert (Hp : parsed e2 (fs w1') = parsed e1 (fs w)).
  { unfold parsed. now rewrite Hi, F1. }
  destruct (smart_update_rebuild_exact fuel2 e2 (boot (fs w1') (kern w1')) Hok2)
    as (w2 & E2 & K2 & F2 & A2); cbn [boot fs kern]; try assumption.
  { now rewrite Hp. }
  { now rewrite Hp. }
  cbn [boot fs kern] in K2, F2. rewrite Hp in K2.
  exists w2. split; [exact E2 |]. split; [| exact F2].
  rewrite K2, K1. apply rebuilt_idempotent.
Qed.

Lemma rebuild_again_leaves_the_same_kernel_witness :
  exists w2,
    smart_update_rebuild 20 Scenario.quiet_march
      (boot (fs (snd (smart_update_rebuild 20 Scenario.quiet_march
                        (boot Scenario.march_files Scenario.empty_kernel))))
            (kern (snd (smart_update_rebuild 20 Scenario.quiet_march
                          (boot Scenario.march_files Scenario.empty_kernel)))))
    = (Ret true, w2) /\
    kern w2 = Scenario.march_kernel.
Proof.
  destruct (rebuild_again_leaves_the_same_kernel 20 20
              Scenario.quiet_march Scenario.quiet_march
              (boot Scenario.march_files Scenario.empty_kernel))
    as (_ & w2 & E & K & _).
  - intros n c. reflexivity.
  - intros n c. reflexivity.
  - reflexivity.
  - discriminate.
  - cbn. repeat constructor; simpl; intuition discriminate.
  - simpl. lia.
  - simpl. lia.
  - vm_compute. lia.
  - vm_compute. lia.
  - exists w2. split; [exact E |]. rewrite K. reflexivity.
Defined.

(* ================================================================= *)
(** ** Runs that end before the rebuild *)

(** Lines 885-898: what the run does once it has counted a country set and
    found the database file. *)
Lemma smart_update_acquire_steady_eq (e : env) (f : files) (k : kernel) :
  oracle e 0 IpsetListNames = Ok ->
  has_country_set k ->
  mmdb f <> None ->
  smart_update_acquire e (boot f k)
  = (changed <- check_remote_file_changed (url_of e) ;;
     if negb changed then ret (Some true)
     else
       ok <- download_dbip_database (url_of e) ;;
       if negb ok then ret (Some false)
       else
         changed <- check_file_hash_changed ;;
         if negb changed then ret (Some true) else ret None)
      e (log_event (Exec IpsetListNames Ok) (boot f k)).
Proof.
  intros Hlist Hsets Hdb.
  unfold smart_update_acquire, get_current_month_url, bind, ask, ret, get_fs,
    try_except, subprocess_run.
  simpl. rewrite Hlist. simpl.
  apply count_country_sets_pos in Hsets.
  destruct (count_country_sets _) as [| n]; [now elim Hsets |]. simpl.
  destruct (mmdb f) as [d |] eqn:Ed; [| now elim Hdb]. reflexivity.
Qed.

Lemma check_remote_file_changed_fails (url : string) (e : env) (w : world) :
  head_fails e ->
  exists x, check_remote_file_changed url e w
            = (Raise x, log_event (HttpHead url) w).
Proof.
  unfold head_fails, check_remote_file_changed, try_except, bind,
    urlopen_head, bind, emit, ask, get_fs, ret, raise.
  destruct (remote_head e) as [lm cl | code |]; simpl; intros H.
  - contradiction.
  - apply Nat.eqb_neq in H. rewrite H. eauto.
  - eauto.
Qed.

(** X15: when the HEAD request fails in the steady state (no response, or
    an HTTP error other than 404) the exception leaves [smart_update], and
    [main] exits with status 1; the run has listed the sets and sent the
    request, nothing else: files and kernel are as they were. *)
Theorem failed_metadata_check_ends_run_unchanged (fuel : nat) (e : env)
  (f : files) (k : kernel) :
  oracle e 0 IpsetListNames = Ok ->
  has_country_set k ->
  mmdb f <> None ->
  head_fails e ->
  let w' := log_event (HttpHead (url_of e))
              (log_event (Exec IpsetListNames Ok) (boot f k)) in
  (exists x, smart_update fuel e (boot f k) = (Raise x, w')) /\
  main fuel e (boot f k) = (Some 1, w') /\
  fs w' = f /\ kern w' = k.
Proof.
  intros Hlist Hsets Hdb Hfail w'.
  destruct (check_remote_file_changed_fails (url_of e) e
              (log_event (Exec IpsetListNames Ok) (boot f k)) Hfail)
    as (x & Ex).
  assert (E : smart_update fuel e (boot f k) = (Raise x, w')).
  { unfold smart_update. unfold bind at 1.
    rewrite smart_update_acquire_steady_eq by assumption.
    unfold bind at 1. now rewrite Ex. }
  split; [eauto |]. split; [| split; reflexivity].
  unfold main. now rewrite E.
Qed.

Lemma failed_metadata_check_ends_run_unchanged_witness :
  fst (main 20
         (Scenario.world_of 2026 4 (HeadHTTPError 503)
            (Downloaded Scenario.db_april) Scenario.all_ok)
         (boot Scenario.march_files Scenario.march_kernel)) = Some 1.
Proof.
  destruct (failed_metadata_check_ends_run_unchanged 20
              (Scenario.world_of 2026 4 (HeadHTTPError 503)
                 (Downloaded Scenario.db_april) Scenario.all_ok)
              Scenario.march_files Scenario.march_kernel)
    as (_ & E & _).
  - reflexivity.
  - exists {| set_name := "country-KR"; set_family := Inet;
              set_members := ["1.0.0.0/24"] |}.
    split; [now left | reflexivity].
  - discriminate.
  - simpl. discriminate.
  - now rewrite E.
Defined.

(** X16: new metadata, same content.  In the steady state, when the
    response differs from the record as [f.read().strip()] gives it but the
    file downloaded has the digest the hash file holds, read the same way,
    the run returns [True] after the listing, the request and the download:
    the record is replaced, the database file is the downloaded one, the
    hash file and the kernel are untouched. *)
Theorem same_content_skips_rebuild (fuel : nat) (e : env) (f : files)
  (k : kernel) (lm cl : option string) (d : mmdb_file) (saved : string) :
  oracle e 0 IpsetListNames = Ok ->
  has_country_set k ->
  mmdb f <> None ->
  remote_head e = HeadOk lm cl ->
  ~ remote_unchanged e f ->
  remote_download e = Downloaded d ->
  hash_file f = Some saved ->
  strip (read_text saved) = sha256 d ->
  smart_update fuel e (boot f k)
  = (Ret true,
     {| fs := {| mmdb := Some d; hash_file := Some saved;
                 last_check_file := Some (header lm ++ "|" ++ header cl) |};
        kern := k;
        ALL_COUNTRIES := [];
        trace := [Exec IpsetListNames Ok; HttpHead (url_of e);
                  HttpDownload (url_of e)] |}).
Proof.
  intros Hlist Hsets Hdb Hh Hch Hdl Hs Hsame.
  unfold smart_update. unfold bind at 1.
  rewrite smart_update_acquire_steady_eq by assumption.
  unfold remote_unchanged in Hch. rewrite Hh in Hch.
  unfold check_remote_file_changed, urlopen_head, download_dbip_database,
    check_file_hash_changed, calculate_file_hash, write_last_check, write_mmdb,
    try_except, bind, emit, ask, get_fs, put_fs, ret, raise.
  simpl. rewrite Hh. simpl.
  assert (Hne : match last_check_file f with
                | Some s => strip (read_text s) =? header lm ++ "|" ++ header cl
                | None => false
                end = false).
  { destruct (last_check_file f) as [s |] eqn:El; [| reflexivity].
    apply String.eqb_neq. intros E. apply Hch. eauto. }
  simpl in Hne. rewrite Hne. simpl. rewrite Hdl. simpl.
  rewrite Hs, Hsame, String.eqb_refl. reflexivity.
Qed.

Lemma same_content_skips_rebuild_witness :
  fst (smart_update 20
         (Scenario.world_of 2026 4 Scenario.april_head
            (Downloaded Scenario.db_march) Scenario.all_ok)
         (boot Scenario.march_files Scenario.march_kernel)) = Ret true.
Proof.
  rewrite (same_content_skips_rebuild 20
             (Scenario.world_of 2026 4 Scenario.april_head
                (Downloaded Scenario.db_march) Scenario.all_ok)
             Scenario.march_files Scenario.march_kernel
             (Some "Wed, 01 Apr 2026 03:00:00 GMT") (Some "4100317")
             Scenario.db_march (sha256 Scenario.db_march)).
  - reflexivity.
  - reflexivity.
  - exists {| set_name := "country-KR"; set_family := Inet;
              set_members := ["1.0.0.0/24"] |}.
    split; [now left | reflexivity].
  - discriminate.
  - reflexivity.
  - intros (s & [= <-] & Hs). vm_compute in Hs. discriminate.
  - reflexivity.
  - reflexivity.
  - reflexivity.
Defined.

Lemma smart_update_acquire_failed_download (e : env) (f : files) (k : kernel)
  (u : string) :
  download_fails e ->
  let r := smart_update_acquire e (boot f k) in
  In (HttpDownload u) (trace (snd r)) ->
  fst r = Ret (Some false) /\
  mmdb (fs (snd r))
  = match remote_download e with
    | GunzipFailed partial => Some partial
    | _ => mmdb f
    end.
Proof.
  unfold download_fails. intros Hd.
  unfold_acquire. unfold boot. cbn beta iota zeta. world_simpl.
  repeat (case_step; world_simpl; cbn beta iota zeta).
  all: try match goal with
           | H : remote_download _ = _ |- _ => rewrite H in Hd
           end; try contradiction.
  all: try congruence.
  all: cbn [app In]; intros H; try (split; reflexivity).
  all: exfalso; repeat (destruct H as [H | H]; try discriminate H); auto.
Qed.

(** X17: a download that fails ends the run with [False] (exit status 1)
    whichever branch asked for it, before any command that changes the
    kernel.  If the archive could not be fetched the database file is as it
    was; if it could not be unpacked the database file holds what was
    written before the failure. *)
Theorem failed_download_fails_run_without_mutation (fuel : nat) (e : env)
  (f : files) (k : kernel) (u : string) :
  download_fails e ->
  let r := smart_update fuel e (boot f k) in
  In (HttpDownload u) (trace (snd r)) ->
  fst r = Ret false /\
  fst (main fuel e (boot f k)) = Some 1 /\
  kern (snd r) = k /\
  Forall (fun ev => ~ is_mutation ev) (trace (snd r)) /\
  mmdb (fs (snd r))
  = match remote_download e with
    | GunzipFailed partial => Some partial
    | _ => mmdb f
    end.
Proof.
  intros Hd r Hin. subst r.
  pose proof (smart_update_acquire_failed_download e f k u Hd) as Ha.
  destruct (smart_update_acquire_frame e (boot f k)) as (_ & Hk & t & Ht & Pt).
  cbn [boot kern trace app] in Hk, Ht.
  assert (Hrun : smart_update fuel e (boot f k)
                 = (Ret false, snd (smart_update_acquire e (boot f k)))).
  { unfold smart_update, bind in Hin |- *.
    destruct (smart_update_acquire e (boot f k)) as [[[b |] | x |] w1];
      cbn [fst snd] in *.
    - destruct (Ha Hin) as [[= ->] _]. reflexivity.
    - destruct (smart_update_rebuild_frame fuel e w1) as (_ & _ & t' & Ht' & Pt').
      rewrite Ht' in Hin. apply in_app_or in Hin. destruct Hin as [Hin | Hin].
      + destruct (Ha Hin) as [[=] _].
      + rewrite Forall_forall in Pt'. apply Pt' in Hin.
        unfold is_rebuild_event in Hin. simpl in Hin. tauto.
    - destruct (Ha Hin) as [[=] _].
    - destruct (Ha Hin) as [[=] _]. }
  rewrite Hrun in Hin |- *. cbn [fst snd] in *.
  destruct (Ha Hin) as [_ Hm].
  repeat match goal with |- _ /\ _ => split end; auto.
  - unfold main. now rewrite Hrun.
  - rewrite Ht. eapply Forall_impl; [| exact Pt].
    intros [[] o | | | |]; simpl; tauto.
Qed.

Lemma failed_download_fails_run_without_mutation_witness :
  fst (smart_update 20 Scenario.april_fetch_fails
         (boot Scenario.march_files Scenario.march_kernel)) = Ret false.
Proof.
  refine (proj1 (failed_download_fails_run_without_mutation 20
                   Scenario.april_fetch_fails Scenario.march_files
                   Scenario.march_kernel (url_of Scenario.april_fetch_fails)
                   I _)).
  vm_compute. right. right. left. reflexivity.
Defined.

Lemma count_country_sets_has (k : kernel) :
  count_country_sets (map set_name (ipsets k) ++ [""]) <> 0 ->
  has_country_set k.
Proof.
  unfold count_country_sets. intros H.
  destruct (filter _ _) as [| x l] eqn:E; [now elim H |].
  assert (Hx : In x (x :: l)) by now left.
  rewrite <- E in Hx. apply filter_In in Hx. destruct Hx as [Hin Hp].
  apply in_app_or in Hin. destruct Hin as [Hin | [<- | []]]; [| discriminate].
  apply in_map_iff in Hin. destruct Hin as (s & <- & Hs).
  exists s. auto.
Qed.

Lemma smart_update_acquire_missing_database (e : env) (f : files) (k : kernel) :
  mmdb f = None ->
  let r := smart_update_acquire e (boot f k) in
  (exists o, trace (snd r) = [Exec IpsetListNames o; HttpDownload (url_of e)]) /\
  ((hash_file (fs (snd r)) = None /\ last_check_file (fs (snd r)) = None) \/
   (has_country_set k /\
    hash_file (fs (snd r)) = hash_file f /\
    last_check_file (fs (snd r)) = last_check_file f)).
Proof.
  intros Hd.
  unfold smart_update_acquire, get_current_month_url, download_dbip_database,
    unlink_baselines, write_mmdb, try_except, except_Exception, bind, ret,
    raise, ask, get_fs, put_fs, emit, subprocess_run, url_of.
  unfold boot. cbn beta iota zeta. world_simpl. rewrite Hd. world_simpl.
  cbn [List.length].
  destruct (oracle e 0 IpsetListNames); world_simpl; cbn beta iota zeta.
  - cbn [Kernel.exec stdout].
    destruct (count_country_sets (map set_name (ipsets k) ++ [""])) as [| n] eqn:Ec;
      cbn [Nat.eqb]; world_simpl.
    + simpl. destruct (remote_download e); simpl;
        (split; [eexists; reflexivity | left; split; reflexivity]).
    + assert (Hs : has_country_set k)
        by (apply count_country_sets_has; rewrite Ec; discriminate).
      simpl. destruct (remote_download e); simpl;
        (split; [eexists; reflexivity | right; repeat split; auto]).
  - simpl. destruct (remote_download e); simpl;
      (split; [eexists; reflexivity | left; split; reflexivity]).
  - simpl. destruct (remote_download e); simpl;
      (split; [eexists; reflexivity | left; split; reflexivity]).
Qed.

(** X18: without the database file the run downloads at once: after the
    listing of the sets comes the download of the month's URL, no metadata
    request is ever sent and no second download follows.  No baseline is
    written on this path: the two baseline files end removed (when no
    country set was counted, always so on a host without such a set), or as
    they were. *)
Theorem missing_database_downloads_without_check (fuel : nat) (e : env)
  (f : files) (k : kernel) :
  mmdb f = None ->
  let r := smart_update fuel e (boot f k) in
  (exists o t,
     trace (snd r) = Exec IpsetListNames o :: HttpDownload (url_of e) :: t /\
     Forall (fun ev => ~ is_network ev) t) /\
  ((hash_file (fs (snd r)) = None /\ last_check_file (fs (snd r)) = None) \/
   (has_country_set k /\
    hash_file (fs (snd r)) = hash_file f /\
    last_check_file (fs (snd r)) = last_check_file f)) /\
  (~ has_country_set k ->
   hash_file (fs (snd r)) = None /\ last_check_file (fs (snd r)) = None).
Proof.
  intros Hd r.
  assert (H : (exists o t,
                 trace (snd r)
                 = Exec IpsetListNames o :: HttpDownload (url_of e) :: t /\
                 Forall (fun ev => ~ is_network ev) t) /\
              ((hash_file (fs (snd r)) = None /\
                last_check_file (fs (snd r)) = None) \/
               (has_country_set k /\
                hash_file (fs (snd r)) = hash_file f /\
                last_check_file (fs (snd r)) = last_check_file f))).
  { subst r.
    destruct (smart_update_acquire_missing_database e f k Hd) as ((o & Ht) & Hb).
    unfold smart_update, bind.
    destruct (smart_update_acquire e (boot f k)) as [[[b |] | x |] w1];
      cbn [fst snd] in *.
    - split; [exists o, []; split; [exact Ht | constructor] | exact Hb].
    - destruct (smart_update_rebuild_frame fuel e w1) as (Hf & _ & t & Ht' & Pt).
      rewrite <- Hf. split; [| exact Hb].
      exists o, t. rewrite Ht', Ht. split; [reflexivity |].
      now apply Forall_not_network_rebuild.
    - split; [exists o, []; split; [exact Ht | constructor] | exact Hb].
    - split; [exists o, []; split; [exact Ht | constructor] | exact Hb]. }
  destruct H as [H1 H2]. split; [exact H1 |]. split; [exact H2 |].
  intros Hn. destruct H2 as [H2 | [Hs _]]; [exact H2 | contradiction].
Qed.

Lemma missing_database_downloads_without_check_witness :
  hash_file (fs (snd (smart_update 20 Scenario.quiet_march
                        (boot Scenario.no_files Scenario.empty_kernel)))) = None /\
  last_check_file (fs (snd (smart_update 20 Scenario.quiet_march
                        (boot Scenario.no_files Scenario.empty_kernel)))) = None.
Proof.
  refine (proj2 (proj2 (missing_database_downloads_without_check 20
                          Scenario.quiet_march Scenario.no_files
                          Scenario.empty_kernel eq_refl)) _).
  intros (s & [] & _).
Defined.

(* ================================================================= *)
(** ** A new database, end to end *)

(** Lines 885-898 when the metadata changed and the file downloaded is new. *)
Lemma smart_update_acquire_update (e : env) (f : files) (k : kernel)
  (lm cl : option string) (d : mmdb_file) :
  oracle e 0 IpsetListNames = Ok ->
  has_country_set k ->
  mmdb f <> None ->
  remote_head e = HeadOk lm cl ->
  ~ remote_unchanged e f ->
  remote_download e = Downloaded d ->
  (forall saved, hash_file f = Some saved -> strip (read_text saved) <> sha256 d) ->
  smart_update_acquire e (boot f k)
  = (Ret None,
     {| fs := {| mmdb := Some d; hash_file := Some (sha256 d);
                 last_check_file := Some (header lm ++ "|" ++ header cl) |};
        kern := k;
        ALL_COUNTRIES := [];
        trace := [Exec IpsetListNames Ok; HttpHead (url_of e);
                  HttpDownload (url_of e)] |}).
Proof.
  intros Hlist Hsets Hdb Hh Hch Hdl Hnew.
  rewrite smart_update_acquire_steady_eq by assumption.
  unfold remote_unchanged in Hch. rewrite Hh in Hch.
  unfold check_remote_file_changed, urlopen_head, download_dbip_database,
    check_file_hash_changed, calculate_file_hash, write_last_check, write_mmdb,
    write_hash, try_except, bind, emit, ask, get_fs, put_fs, ret, raise.
  simpl. rewrite Hh. simpl.
  assert (Hne : match last_check_file f with
                | Some s => strip (read_text s) =? header lm ++ "|" ++ header cl
                | None => false
                end = false).
  { destruct (last_check_file f) as [s |] eqn:El; [| reflexivity].
    apply String.eqb_neq. intros E. apply Hch. eauto. }
  simpl in Hne. rewrite Hne. simpl. rewrite Hdl. simpl.
  destruct (hash_file f) as [saved |] eqn:Es; simpl.
  - assert (Hs : (strip (read_text saved) =? sha256 d) = false)
      by (apply String.eqb_neq; now apply Hnew).
    rewrite Hs. reflexivity.
  - reflexivity.
Qed.

(** X19: a new database, end to end.  In the steady state, when the
    metadata differs from the record, the download succeeds and the file is
    not the one whose hash is recorded (record and hash as
    [f.read().strip()] gives them), a run in which every command succeeds
    returns [True]; afterwards the three files hold the new
    database, its digest and the new metadata record, and the kernel is the
    rebuilt one: the address sets are the foreign ones followed by those of
    the new database, and each chain is its foreign rules followed by the
    complete chain for the new map. *)
Theorem update_installs_the_new_database (fuel : nat) (e : env) (f : files)
  (k : kernel) (lm cl : option string) (h : string)
  (recs : list (string * record_data)) :
  all_commands_ok e ->
  maxminddb_installed e = true ->
  has_country_set k ->
  mmdb f <> None ->
  remote_head e = HeadOk lm cl ->
  ~ remote_unchanged e f ->
  remote_download e = Downloaded {| sha256 := h; networks := Some recs |} ->
  (forall saved, hash_file f = Some saved -> strip (read_text saved) <> h) ->
  let m := fold_left add_record recs [] in
  m <> [] ->
  NoDup (map set_name (installed_sets m)) ->
  List.length (INPUT4 k) < fuel ->
  List.length (INPUT6 k) < fuel ->
  exists w',
    smart_update fuel e (boot f k) = (Ret true, w') /\
    fs w' = {| mmdb := Some {| sha256 := h; networks := Some recs |};
               hash_file := Some h;
               last_check_file := Some (header lm ++ "|" ++ header cl) |} /\
    kern w' = rebuilt k m /\
    ALL_COUNTRIES w' = map fst m.
Proof.
  intros Hok Hi Hsets Hdb Hh Hch Hdl Hnew m Hne Hnd L4 L6. cbv zeta.
  pose proof (smart_update_acquire_update e f k lm cl
                {| sha256 := h; networks := Some recs |}
                (Hok 0 IpsetListNames) Hsets Hdb Hh Hch Hdl Hnew) as Ea.
  unfold smart_update. erewrite bind_eq by exact Ea.
  match type of Ea with
  | _ = (_, ?w1) =>
      assert (Hp : parsed e (fs w1) = m)
        by (unfold parsed; cbn [fs mmdb]; now rewrite Hi);
      destruct (smart_update_rebuild_exact fuel e w1 Hok)
        as (w' & E & K & F & A); try (rewrite Hp); try assumption
  end.
  rewrite Hp in K, A. cbn [fs kern] in K, F.
  exists w'. split; [exact E |]. split; [exact F |]. split; [exact K | exact A].
Qed.

Lemma update_installs_the_new_database_witness :
  exists w',
    smart_update 20 Scenario.april_update
      (boot Scenario.march_files Scenario.march_kernel) = (Ret true, w') /\
    mmdb (fs w') = Some Scenario.db_april /\
    map set_name (ipsets (kern w')) = ["country-KR"; "country-US"].
Proof.
  destruct (update_installs_the_new_database 20 Scenario.april_update
              Scenario.march_files Scenario.march_kernel
              (Some "Wed, 01 Apr 2026 03:00:00 GMT") (Some "4100317")
              (sha256 Scenario.db_april)
              [("1.0.0.0/24", IsoCode "KR"); ("8.8.4.0/24", IsoCode "US")])
    as (w' & E & F & K & _).
  - intros n c. reflexivity.
  - reflexivity.
  - exists {| set_name := "country-KR"; set_family := Inet;
              set_members := ["1.0.0.0/24"] |}.
    split; [now left | reflexivity].
  - discriminate.
  - reflexivity.
  - intros (s & [= <-] & Hs). vm_compute in Hs. discriminate.
  - reflexivity.
  - intros saved [= <-]. vm_compute. discriminate.
  - discriminate.
  - cbn. repeat constructor; simpl; intuition discriminate.
  - simpl. lia.
  - simpl. lia.
  - exists w'. split; [exact E |]. rewrite F, K. split; reflexivity.
Defined.

(* ================================================================= *)
(** ** First install, and the run after it *)

(** Lines 857-884 on a host without the database file and without a
    country set, when the download succeeds. *)
Lemma smart_update_acquire_first_install (e : env) (f : files) (k : kernel)
  (d : mmdb_file) :
  oracle e 0 IpsetListNames = Ok ->
  ~ has_country_set k ->
  mmdb f = None ->
  remote_download e = Downloaded d ->
  smart_update_acquire e (boot f k)
  = (Ret None,
     {| fs := {| mmdb := Some d; hash_file := None; last_check_file := None |};
        kern := k;
        ALL_COUNTRIES := [];
        trace := [Exec IpsetListNames Ok; HttpDownload (url_of e)] |}).
Proof.
  intros Hlist Hno Hd Hdl.
  pose proof (count_country_sets_zero k Hno) as Hz.
  unfold smart_update_acquire, get_current_month_url, download_dbip_database,
    unlink_baselines, write_mmdb, try_except, except_Exception, bind, ret,
    raise, ask, get_fs, put_fs, emit, subprocess_run, url_of.
  unfold boot. cbn beta iota zeta. world_simpl. rewrite Hd. world_simpl.
  cbn [List.length]. rewrite Hlist. world_simpl.
  cbn [Kernel.exec stdout]. rewrite Hz. simpl. rewrite Hdl. reflexivity.
Qed.

Lemma smart_update_first_install_exact (fuel : nat) (e : env) (f : files)
  (k : kernel) (h : string) (recs : list (string * record_data)) :
  all_commands_ok e ->
  maxminddb_installed e = true ->
  ~ has_country_set k ->
  mmdb f = None ->
  remote_download e = Downloaded {| sha256 := h; networks := Some recs |} ->
  fold_left add_record recs [] <> [] ->
  NoDup (map set_name (installed_sets (fold_left add_record recs []))) ->
  List.length (INPUT4 k) < fuel ->
  List.length (INPUT6 k) < fuel ->
  exists w',
    smart_update fuel e (boot f k) = (Ret true, w') /\
    fs w' = {| mmdb := Some {| sha256 := h; networks := Some recs |};
               hash_file := None; last_check_file := None |} /\
    kern w' = rebuilt k (fold_left add_record recs []) /\
    ALL_COUNTRIES w' = map fst (fold_left add_record recs []) /\
    has_country_set (kern w').
Proof.
  intros Hok Hi Hno Hd Hdl Hne Hnd L4 L6.
  pose proof (smart_update_acquire_first_install e f k
                {| sha256 := h; networks := Some recs |}
                (Hok 0 IpsetListNames) Hno Hd Hdl) as Ea.
  unfold smart_update. erewrite bind_eq by exact Ea.
  match type of Ea with
  | _ = (_, ?w1) =>
      assert (Hp : parsed e (fs w1) = fold_left add_record recs [])
        by (unfold parsed; cbn [fs mmdb]; now rewrite Hi);
      destruct (smart_update_rebuild_exact fuel e w1 Hok)
        as (w' & E & K & F & A); try (rewrite Hp); try assumption;
      destruct (smart_update_rebuild_success fuel e w1 w' E)
        as (_ & _ & Hc & _)
  end.
  rewrite Hp in K, A. cbn [fs kern] in K, F.
  exists w'. split; [exact E |]. auto.
Qed.

(** X20: first install, end to end.  On a host without the database file
    and without a country set, when the download succeeds and every command
    succeeds, the run returns [True]; afterwards the database file is the
    downloaded one, neither baseline file exists, and the kernel is the
    rebuilt one: the address sets are the foreign ones followed by those of
    the database, and each chain is its foreign rules followed by the
    complete chain. *)
Theorem first_install_installs_the_database (fuel : nat) (e : env) (f : files)
  (k : kernel) (h : string) (recs : list (string * record_data)) :
  all_commands_ok e ->
  maxminddb_installed e = true ->
  ~ has_country_set k ->
  mmdb f = None ->
  remote_download e = Downloaded {| sha256 := h; networks := Some recs |} ->
  let m := fold_left add_record recs [] in
  m <> [] ->
  NoDup (map set_name (installed_sets m)) ->
  List.length (INPUT4 k) < fuel ->
  List.length (INPUT6 k) < fuel ->
  exists w',
    smart_update fuel e (boot f k) = (Ret true, w') /\
    fs w' = {| mmdb := Some {| sha256 := h; networks := Some recs |};
               hash_file := None; last_check_file := None |} /\
    kern w' = rebuilt k m /\
    ALL_COUNTRIES w' = map fst m.
Proof.
  intros Hok Hi Hno Hd Hdl m Hne Hnd L4 L6.
  destruct (smart_update_first_install_exact fuel e f k h recs)
    as (w' & E & F & K & A & _); auto.
  exists w'. auto.
Qed.

Lemma first_install_installs_the_database_witness :
  exists w',
    smart_update 20 Scenario.quiet_march
      (boot Scenario.no_files Scenario.empty_kernel) = (Ret true, w') /\
    kern w' = Scenario.march_kernel /\
    hash_file (fs w') = None.
Proof.
  destruct (first_install_installs_the_database 20 Scenario.quiet_march
              Scenario.no_files Scenario.empty_kernel
              (sha256 Scenario.db_march)
              [("1.0.0.0/24", IsoCode "KR"); ("2001:db8::/32", IsoCode "KR");
               ("8.8.8.0/24", IsoCode "US"); ("9.9.9.0/24", NoCountry)])
    as (w' & E & F & K & _).
  - intros n c. reflexivity.
  - reflexivity.
  - intros (s & [] & _).
  - reflexivity.
  - reflexivity.
  - discriminate.
  - cbn. repeat constructor; simpl; intuition discriminate.
  - simpl. lia.
  - simpl. lia.
  - exists w'. split; [exact E |]. rewrite K, F. split; reflexivity.
Defined.

(** X21: the run after a first install.  The first install records no
    baseline, so the next run, finding the sets and the database file, asks
    for the metadata, downloads the file again and rebuilds; when the file
    is the same and every command succeeds it returns [True] with the
    kernel exactly as the first install left it, and it has now written both
    baselines: the digest of the file and the metadata record. *)
Theorem run_after_first_install_rebuilds_the_same_kernel (fuel1 fuel2 : nat)
  (e1 e2 : env) (f : files) (k : kernel) (lm cl : option string) (h : string)
  (recs : list (string * record_data)) :
  all_commands_ok e1 ->
  all_commands_ok e2 ->
  maxminddb_installed e1 = true ->
  maxminddb_installed e2 = true ->
  ~ has_country_set k ->
  mmdb f = None ->
  remote_download e1 = Downloaded {| sha256 := h; networks := Some recs |} ->
  remote_download e2 = Downloaded {| sha256 := h; networks := Some recs |} ->
  remote_head e2 = HeadOk lm cl ->
  let m := fold_left add_record recs [] in
  m <> [] ->
  NoDup (map set_name (installed_sets m)) ->
  List.length (INPUT4 k) < fuel1 ->
  List.length (INPUT6 k) < fuel1 ->
  List.length (INPUT4 (rebuilt k m)) < fuel2 ->
  List.length (INPUT6 (rebuilt k m)) < fuel2 ->
  exists w1 w2,
    smart_update fuel1 e1 (boot f k) = (Ret true, w1) /\
    smart_update fuel2 e2 (boot (fs w1) (kern w1)) = (Ret true, w2) /\
    In (HttpDownload (url_of e2)) (trace w2) /\
    kern w2 = kern w1 /\
    fs w2 = {| mmdb := Some {| sha256 := h; networks := Some recs |};
               hash_file := Some h;
               last_check_file := Some (header lm ++ "|" ++ header cl) |}.
Proof.
  intros Hok1 Hok2 Hi1 Hi2 Hno Hd Hdl1 Hdl2 Hh m Hne Hnd L4 L6 M4 M6.
  destruct (smart_update_first_install_exact fuel1 e1 f k h recs)
    as (w1 & E1 & F1 & K1 & A1 & Hc); auto.
  exists w1.
  assert (Ea : smart_update_acquire e2 (boot (fs w1) (kern w1))
               = (Ret None,
                  {| fs := {| mmdb := Some {| sha256 := h; networks := Some recs |};
                              hash_file := Some h;
                              last_check_file :=
                                Some (header lm ++ "|" ++ header cl) |};
                     kern := kern w1;
                     ALL_COUNTRIES := [];
                     trace := [Exec IpsetListNames Ok; HttpHead (url_of e2);
                               HttpDownload (url_of e2)] |})).
  { apply (smart_update_acquire_update e2 (fs w1) (kern w1) lm cl
             {| sha256 := h; networks := Some recs |}); auto.
    - rewrite F1. discriminate.
    - unfold remote_unchanged. rewrite Hh, F1. intros (s & [=] & _).
    - rewrite F1. intros s [=]. }
  set (w1a := {| fs := {| mmdb := Some {| sha256 := h; networks := Some recs |};
                          hash_file := Some h;
                          last_check_file :=
                            Some (header lm ++ "|" ++ header cl) |};
                 kern := kern w1;
                 ALL_COUNTRIES := [];
                 trace := [Exec IpsetListNames Ok; HttpHead (url_of e2);
                           HttpDownload (url_of e2)] |}) in *.
  assert (Hp : parsed e2 (fs w1a) = m)
    by (unfold parsed; cbn [w1a fs mmdb]; now rewrite Hi2).
  assert (Hk : kern w1a = rebuilt k m) by exact K1.
  destruct (smart_update_rebuild_exact fuel2 e2 w1a Hok2)
    as (w2 & E2 & K2 & F2 & A2).
  { now rewrite Hp. }
  { now rewrite Hp. }
  { now rewrite Hk. }
  { now rewrite Hk. }
  destruct (smart_update_rebuild_frame fuel2 e2 w1a) as (_ & _ & t & T & _).
  exists w2. split; [exact E1 |].
  rewrite E2 in T. cbn [snd trace] in T.
  split; [| split; [| split]].
  - unfold smart_update. erewrite bind_eq by exact Ea. exact E2.
  - rewrite T. apply in_or_app. left. right. right. now left.
  - rewrite K2, Hp, Hk, K1. apply rebuilt_idempotent.
  - rewrite F2. reflexivity.
Qed.

Lemma run_after_first_install_rebuilds_the_same_kernel_witness :
  exists w1 w2,
    smart_update 20 Scenario.quiet_march
      (boot Scenario.no_files Scenario.empty_kernel) = (Ret true, w1) /\
    smart_update 20 Scenario.quiet_march (boot (fs w1) (kern w1))
    = (Ret true, w2) /\
    kern w2 = kern w1 /\
    hash_file (fs w2) = Some (sha256 Scenario.db_march).
Proof.
  destruct (run_after_first_install_rebuilds_the_same_kernel 20 20
              Scenario.quiet_march Scenario.quiet_march
              Scenario.no_files Scenario.empty_kernel
              (Some "Sun, 01 Mar 2026 03:00:00 GMT") (Some "4100200")
              (sha256 Scenario.db_march)
              [("1.0.0.0/24", IsoCode "KR"); ("2001:db8::/32", IsoCode "KR");
               ("8.8.8.0/24", IsoCode "US"); ("9.9.9.0/24", NoCountry)])
    as (w1 & w2 & E1 & E2 & _ & K & F).
  - intros n c. reflexivity.
  - intros n c. reflexivity.
  - reflexivity.
  - reflexivity.
  - intros (s & [] & _).
  - reflexivity.
  - reflexivity.
  - reflexivity.
  - reflexivity.
  - discriminate.
  - cbn. repeat constructor; simpl; intuition discriminate.
  - simpl. lia.
  - simpl. lia.
  - vm_compute. lia.
  - vm_compute. lia.
  - exists w1, w2. rewrite F. auto.
Defined.

(* ================================================================= *)
(** ** A listing that fails *)

(** Lines 857-875 when the listing of the sets fails and the database file
    is there. *)
Lemma smart_update_acquire_listing_fails (e : env) (f : files) (k : kernel)
  (d : mmdb_file) :
  oracle e 0 IpsetListNames <> Ok -> mmdb f = Some d ->
  smart_update_acquire e (boot f k)
  = (Ret None,
     {| fs := {| mmdb := Some d;
                 hash_file := Some (match hash_file f with
                                    | Some h => h
                                    | None => sha256 d
                                    end);
                 last_check_file := last_check_file f |};
        kern := k;
        ALL_COUNTRIES := [];
        trace := [Exec IpsetListNames (oracle e 0 IpsetListNames)] |}).
Proof.
  intros Ho Hd. destruct f as [fm fh fl]. simpl in Hd. subst fm.
  unfold_acquire. unfold boot. cbn beta iota zeta. world_simpl.
  cbn [List.length].
  destruct (oracle e 0 IpsetListNames) eqn:Eo; [now elim Ho | |]; world_simpl.
  all: cbn [stdout Nat.eqb count_country_sets filter startswith String.prefix
              List.length].
  all: destruct fh as [h |]; world_simpl; reflexivity.
Qed.

(** X22: a listing that fails is read as "no sets".  When [ipset list -n]
    exits with an error or cannot be started, the run counts no country set
    whatever the kernel holds: with the database file present it takes the
    reboot path, that is, it sends no request and downloads nothing, leaves
    the database file and the metadata record as they are, records the hash
    if none was recorded, and is from there on the rebuild of lines
    906-929. *)
Theorem failed_listing_is_read_as_no_sets (fuel : nat) (e : env) (f : files)
  (k : kernel) (d : mmdb_file) :
  oracle e 0 IpsetListNames <> Ok ->
  mmdb f = Some d ->
  smart_update fuel e (boot f k)
  = smart_update_rebuild fuel e
      {| fs := {| mmdb := Some d;
                  hash_file := Some (match hash_file f with
                                     | Some h => h
                                     | None => sha256 d
                                     end);
                  last_check_file := last_check_file f |};
         kern := k;
         ALL_COUNTRIES := [];
         trace := [Exec IpsetListNames (oracle e 0 IpsetListNames)] |} /\
  Forall (fun ev => ~ is_network ev)
    (trace (snd (smart_update fuel e (boot f k)))).
Proof.
  intros Ho Hd.
  pose proof (smart_update_acquire_listing_fails e f k d Ho Hd) as Ea.
  assert (E : smart_update fuel e (boot f k)
              = smart_update_rebuild fuel e
                  {| fs := {| mmdb := Some d;
                              hash_file := Some (match hash_file f with
                                                 | Some h => h
                                                 | None => sha256 d
                                                 end);
                              last_check_file := last_check_file f |};
                     kern := k;
                     ALL_COUNTRIES := [];
                     trace := [Exec IpsetListNames
                                 (oracle e 0 IpsetListNames)] |}).
  { unfold smart_update. erewrite bind_eq by exact Ea. reflexivity. }
  split; [exact E |]. rewrite E.
  match goal with
  | |- context [smart_update_rebuild fuel e ?w1] =>
      destruct (smart_update_rebuild_frame fuel e w1) as (_ & _ & t & T & P)
  end.
  rewrite T. cbn [trace app].
  constructor; [simpl; tauto |]. now apply Forall_not_network_rebuild.
Qed.

Lemma failed_listing_is_read_as_no_sets_witness :
  Forall (fun ev => ~ is_network ev)
    (trace (snd (smart_update 20
                   (Scenario.world_of 2026 4 Scenario.april_head
                      (Downloaded Scenario.db_april)
                      (fun _ c => match c with
                                  | IpsetListNames => Rejected
                                  | _ => Ok
                                  end))
                   (boot Scenario.march_files Scenario.march_kernel)))).
Proof.
  apply (failed_listing_is_read_as_no_sets 20
           (Scenario.world_of 2026 4 Scenario.april_head
              (Downloaded Scenario.db_april)
              (fun _ c => match c with
                          | IpsetListNames => Rejected
                          | _ => Ok
                          end))
           Scenario.march_files Scenario.march_kernel Scenario.db_march).
  - discriminate.
  - reflexivity.
Defined.

(* ================================================================= *)
(** ** A set step that fails, after cleanup *)

Lemma not_set_step_acquire (t : list event) (c : cmd) (o : outcome) :
  Forall is_acquire_event t -> is_set_step (Exec c o) -> ~ In (Exec c o) t.
Proof.
  intros H Hs Hin. rewrite Forall_forall in H. apply H in Hin.
  destruct c; simpl in *; contradiction.
Qed.

Lemma not_set_step_other (t : list event) (c : cmd) (o : outcome) :
  Forall (fun ev => is_parse_event ev \/ is_cleanup_event ev \/ is_setup_event ev) t ->
  is_set_step (Exec c o) -> ~ In (Exec c o) t.
Proof.
  intros H Hs Hin. rewrite Forall_forall in H. apply H in Hin.
  destruct c; simpl in *; tauto.
Qed.

(** Lines 906-929 when cleanup succeeds and a set step then fails. *)
Lemma smart_update_rebuild_failed_set_step (fuel : nat) (e : env) (w : world)
  (c : cmd) (o : outcome) :
  cleanup_commands_ok e ->
  List.length (INPUT4 (kern w)) < fuel ->
  List.length (INPUT6 (kern w)) < fuel ->
  ~ In (Exec c o) (trace w) ->
  let r := smart_update_rebuild fuel e w in
  In (Exec c o) (trace (snd r)) ->
  is_set_step (Exec c o) -> o <> Ok ->
  INPUT4 (kern (snd r)) = foreign_rules (INPUT4 (kern w)) /\
  INPUT6 (kern (snd r)) = foreign_rules (INPUT6 (kern w)) /\
  fst r <> Ret true /\ fst r <> OutOfFuel.
Proof.
  intros Hok L4 L6 Hold r Hin Hs Ho. subst r. revert Hin.
  unfold smart_update_rebuild.
  destruct (parse_spec e w) as (tp & Ep & Pp).
  erewrite bind_eq by exact Ep.
  destruct (parsed e (fs w)) as [| item rest].
  { cbn [ret snd trace]. intros Hin. exfalso.
    apply in_app_or in Hin. destruct Hin as [Hin | Hin]; [contradiction |].
    rewrite Forall_forall in Pp. apply Pp in Hin.
    destruct c; simpl in *; contradiction. }
  match type of Ep with
  | _ = (_, ?w1) =>
      destruct (cleanup_existing_ipsets_exact fuel e w1 Hok L4 L6)
        as (w2 & Ec & K2 & _);
      destruct (cleanup_existing_ipsets_frame fuel e w1) as (_ & _ & tc & Tc & Pc)
  end.
  rewrite Ec in Tc. cbn [snd trace kern] in Tc, K2.
  erewrite bind_eq by exact Ec.
  destruct (apply_native_ipset_frame (item :: rest) e w2)
    as (_ & (C4 & C6) & ta & Ta & Pa).
  destruct (apply_native_ipset_runs (item :: rest) e w2) as (ta' & Ta' & Ra).
  rewrite Ta in Ta'. apply app_inv_head in Ta'. subst ta'.
  destruct (apply_native_ipset (item :: rest) e w2) as [[[|] | x |] w3] eqn:Ea;
    cbn [fst snd] in *.
  - (* every set step succeeded *)
    erewrite bind_eq by exact Ea. cbn [negb].
    destruct (setup_firewall_rules_frame CONFIG.ALLOWED_COUNTRIES e w3)
      as (_ & _ & ts & Ts & Ps).
    intros Hin. exfalso.
    assert (Hend : trace (snd ((ok <- setup_firewall_rules CONFIG.ALLOWED_COUNTRIES ;;
                               (if negb ok then ret false else ret true)) e w3))
                   = trace (snd (setup_firewall_rules CONFIG.ALLOWED_COUNTRIES e w3))).
    { unfold bind.
      destruct (setup_firewall_rules CONFIG.ALLOWED_COUNTRIES e w3)
        as [[[|] | y |] w4]; reflexivity. }
    rewrite Hend, Ts, Ta, Tc in Hin.
    repeat (apply in_app_or in Hin; destruct Hin as [Hin | Hin]).
    + contradiction.
    + rewrite Forall_forall in Pp. apply Pp in Hin.
      destruct c; simpl in *; contradiction.
    + rewrite Forall_forall in Pc. apply Pc in Hin.
      destruct c; simpl in *; contradiction.
    + rewrite Ra in Hin. apply in_ok_events in Hin. destruct Hin. contradiction.
    + rewrite Forall_forall in Ps. apply Ps in Hin.
      destruct c; simpl in *; contradiction.
  - erewrite bind_eq by exact Ea. cbn [negb ret fst snd].
    intros _. rewrite C4, C6, K2. cbn [INPUT4 INPUT6].
    repeat split; discriminate.
  - unfold bind. rewrite Ea. cbn [fst snd].
    intros _. rewrite C4, C6, K2. cbn [INPUT4 INPUT6].
    repeat split; discriminate.
  - contradiction.
Qed.

(** X23: a set step that fails leaves the host without this system's
    rules.  Cleanup runs before the sets are made; when its commands
    succeed and a create, flush or bulk load then fails, the run ends with
    exit status 1 and each chain holds its foreign rules only: the rules of
    the earlier synchronization are gone, the default drop included, and
    none has been built in their place. *)
Theorem failed_set_step_leaves_only_foreign_rules (fuel : nat) (e : env)
  (f : files) (k : kernel) (c : cmd) (o : outcome) :
  cleanup_commands_ok e ->
  List.length (INPUT4 k) < fuel ->
  List.length (INPUT6 k) < fuel ->
  let r := smart_update fuel e (boot f k) in
  In (Exec c o) (trace (snd r)) ->
  is_set_step (Exec c o) -> o <> Ok ->
  INPUT4 (kern (snd r)) = foreign_rules (INPUT4 k) /\
  INPUT6 (kern (snd r)) = foreign_rules (INPUT6 k) /\
  fst (main fuel e (boot f k)) = Some 1.
Proof.
  intros Hok L4 L6 r Hin Hs Ho. subst r. revert Hin.
  unfold main, smart_update, bind.
  destruct (smart_update_acquire_frame e (boot f k)) as (_ & Hk & ta & Ta & Pa).
  cbn [boot kern trace app] in Hk, Ta.
  destruct (smart_update_acquire e (boot f k)) as [[[b |] | x |] w1];
    cbn [fst snd ret] in *;
    try (intros Hin; exfalso; rewrite Ta in Hin;
         now apply (not_set_step_acquire ta c o)).
  intros Hin.
  destruct (smart_update_rebuild_failed_set_step fuel e w1 c o Hok)
    as (H4 & H6 & Hr & Hf); auto; try (rewrite <- Hk; assumption).
  { rewrite Ta. now apply not_set_step_acquire. }
  rewrite H4, H6, <- Hk. split; [reflexivity |]. split; [reflexivity |].
  destruct (smart_update_rebuild fuel e w1) as [[[|] | x |] w2];
    cbn [fst] in *; try reflexivity; congruence.
Qed.

Lemma failed_set_step_leaves_only_foreign_rules_witness :
  INPUT4 (kern (snd (smart_update 20 Faults.april_flush_rejected
                       (boot Scenario.march_files Scenario.march_kernel)))) = [] /\
  INPUT6 (kern (snd (smart_update 20 Faults.april_flush_rejected
                       (boot Scenario.march_files Scenario.march_kernel)))) = [] /\
  fst (main 20 Faults.april_flush_rejected
         (boot Scenario.march_files Scenario.march_kernel)) = Some 1.
Proof.
  apply (failed_set_step_leaves_only_foreign_rules 20
           Faults.april_flush_rejected Scenario.march_files
           Scenario.march_kernel (IpsetFlush "country-KR") Rejected).
  - intros n c Hc. destruct c; try contradiction; reflexivity.
  - simpl. lia.
  - simpl. lia.
  - vm_compute. repeat (first [left; reflexivity | right]).
  - exact I.
  - discriminate.
Defined.

(* ================================================================= *)
(** ** Which exceptions leave the run *)

Section Raises.

Variable e : env.

Lemma raises_ret {A} (E : exn -> Prop) (a : A) : raises_within E e (ret a).
Proof. intros w x H. discriminate. Qed.

Lemma raises_bind {A B} (E : exn -> Prop) (m : M A) (k : A -> M B) :
  raises_within E e m -> (forall a, raises_within E e (k a)) ->
  raises_within E e (bind m k).
Proof.
  intros Hm Hk w x. unfold bind. specialize (Hm w).
  destruct (m e w) as [[a | y |] w1]; cbn [fst] in *.
  - apply Hk.
  - intros [= ->]. now apply Hm.
  - discriminate.
Qed.

Lemma raises_weaken {A} (E E' : exn -> Prop) (m : M A) :
  (forall x, E x -> E' x) -> raises_within E e m -> raises_within E' e m.
Proof. intros HE H w x Hr. destruct (H w x Hr); auto. Qed.

Lemma raises_for_each {A} (E : exn -> Prop) (l : list A) (body : A -> M unit) :
  (forall a, raises_within E e (body a)) -> raises_within E e (for_each l body).
Proof.
  intros H. induction l as [| a rest IH]; simpl.
  - apply raises_ret.
  - apply raises_bind; auto.
Qed.

Lemma raises_subprocess_run (c : cmd) :
  raises_within no_exception e (subprocess_run c).
Proof.
  intros w x. unfold subprocess_run.
  destruct (oracle e (List.length (trace w)) c) eqn:Eo.
  - destruct (Kernel.exec c (kern w)) as [[ok out] k']. discriminate.
  - discriminate.
  - intros _. right. eauto.
Qed.

Lemma raises_subprocess_run_check (c : cmd) :
  raises_within (eq CalledProcessError) e (subprocess_run_check c).
Proof.
  unfold subprocess_run_check. apply raises_bind.
  - eapply raises_weaken; [| apply raises_subprocess_run]. intros x [].
  - intros p. destruct (returncode_ok p); [apply raises_ret |].
    intros w x [= <-]. now left.
Qed.

(** [except CalledProcessError: return False] around a checked block. *)
Lemma raises_caught {A} (m : M A) (a : A) :
  raises_within (eq CalledProcessError) e m ->
  raises_within no_exception e
    (try_except m (except_CalledProcessError (ret a))).
Proof.
  intros Hm w x. unfold try_except. specialize (Hm w).
  destruct (m e w) as [[b | y |] w1]; cbn [fst] in *; try discriminate.
  destruct (Hm y eq_refl) as [<- | Hc]; [discriminate | auto].
Qed.

Lemma raises_populate (name : string) (fam : family) (ranges : list string) :
  raises_within (eq CalledProcessError) e (populate name fam ranges).
Proof.
  unfold populate.
  repeat (apply raises_bind; [apply raises_subprocess_run_check | intros _]).
  apply raises_subprocess_run_check.
Qed.

Lemma raises_apply_native_ipset (m : CountryRangeMap) :
  raises_within no_exception e (apply_native_ipset m).
Proof.
  unfold apply_native_ipset. apply raises_bind; [intros w x; discriminate |].
  intros _. induction m as [| [c ranges] rest IH]; simpl.
  - apply raises_ret.
  - apply raises_bind.
    + unfold apply_country. apply raises_caught.
      apply raises_bind;
        [unfold when_nonempty; destruct (filter _ ranges);
         [apply raises_ret | apply raises_populate] |].
      intros _. apply raises_bind;
        [unfold when_nonempty; destruct (filter _ ranges);
         [apply raises_ret | apply raises_populate] |].
      intros _. apply raises_ret.
    + intros [|]; [exact IH | apply raises_ret].
Qed.

Lemma raises_guarded (m : M unit) :
  raises_within (eq CalledProcessError) e m ->
  raises_within no_exception e (guarded m).
Proof.
  intros H. unfold guarded. apply raises_caught.
  apply raises_bind; [exact H | intros _; apply raises_ret].
Qed.

Lemma raises_and_then (a b : M bool) :
  raises_within no_exception e a -> raises_within no_exception e b ->
  raises_within no_exception e (a >>? b).
Proof.
  intros Ha Hb. unfold and_then. apply raises_bind; [exact Ha |].
  intros [|]; [exact Hb | apply raises_ret].
Qed.

Lemma raises_append_rule (fam : family) (r : rule) :
  raises_within (eq CalledProcessError) e (append_rule fam r).
Proof. apply raises_subprocess_run_check. Qed.

Lemma raises_ipset_exists (name : string) :
  raises_within (eq CalledProcessError) e (ipset_exists name).
Proof.
  unfold ipset_exists. apply raises_bind.
  - eapply raises_weaken; [| apply raises_subprocess_run]. intros x [].
  - intros p. apply raises_ret.
Qed.

Lemma raises_country (c : string) (log4 act4 log6 act6 : rule) :
  raises_within (eq CalledProcessError) e
    (ipv4_exists <- ipset_exists (set_name_v4 c) ;;
     (if ipv4_exists then append_rule Inet log4 ;;; append_rule Inet act4
      else ret tt) ;;;
     ipv6_exists <- ipset_exists (set_name_v6 c) ;;
     (if ipv6_exists then append_rule Inet6 log6 ;;; append_rule Inet6 act6
      else ret tt)).
Proof.
  apply raises_bind; [apply raises_ipset_exists | intros b4].
  apply raises_bind.
  { destruct b4; [| apply raises_ret].
    apply raises_bind; [apply raises_append_rule | intros _].
    apply raises_append_rule. }
  intros _. apply raises_bind; [apply raises_ipset_exists | intros b6].
  destruct b6; [| apply raises_ret].
  apply raises_bind; [apply raises_append_rule | intros _].
  apply raises_append_rule.
Qed.

Lemma raises_for_each_guarded (l : list string) (body : string -> M unit) :
  (forall c, raises_within (eq CalledProcessError) e (body c)) ->
  raises_within no_exception e (for_each_guarded l body).
Proof.
  intros H. induction l as [| c rest IH]; simpl.
  - apply raises_ret.
  - apply raises_and_then; [apply raises_guarded, H | exact IH].
Qed.

Lemma raises_two (m1 m2 : M unit) :
  raises_within (eq CalledProcessError) e m1 ->
  raises_within (eq CalledProcessError) e m2 ->
  raises_within (eq CalledProcessError) e (m1 ;;; m2).
Proof. intros H1 H2. apply raises_bind; auto. Qed.

Lemma raises_setup_firewall_rules (allowed : list string) :
  raises_within no_exception e (setup_firewall_rules allowed).
Proof.
  unfold setup_firewall_rules.
  repeat (apply raises_and_then;
          [apply raises_guarded;
           repeat first [ apply raises_append_rule
                        | apply raises_for_each; intros ?
                        | apply raises_two ] |]).
  intros w. revert w.
  change (raises_within no_exception e
            (fun e0 w =>
               (for_each_guarded allowed allow_country >>?
                for_each_guarded
                  (filter (fun c => negb (mem c allowed)) (ALL_COUNTRIES w))
                  block_country >>?
                guarded (append_rule Inet Rules.default_log ;;;
                         append_rule Inet Rules.default_drop ;;;
                         append_rule Inet6 Rules.default_log ;;;
                         append_rule Inet6 Rules.default_drop)) e0 w)).
  intros w.
  apply (raises_and_then
           (for_each_guarded allowed allow_country)
           (for_each_guarded
              (filter (fun c => negb (mem c allowed)) (ALL_COUNTRIES w))
              block_country >>?
            guarded (append_rule Inet Rules.default_log ;;;
                     append_rule Inet Rules.default_drop ;;;
                     append_rule Inet6 Rules.default_log ;;;
                     append_rule Inet6 Rules.default_drop))).
  - apply raises_for_each_guarded. intros c. apply raises_country.
  - apply raises_and_then.
    + apply raises_for_each_guarded. intros c. apply raises_country.
    + apply raises_guarded.
      repeat first [ apply raises_append_rule | apply raises_two ].
Qed.

Lemma raises_smart_update_rebuild (fuel : nat) :
  raises_within no_exception e (smart_update_rebuild fuel).
Proof.
  unfold smart_update_rebuild. apply raises_bind.
  { intros w x H. destruct (parse_spec e w) as (t & E & _).
    rewrite E in H. discriminate. }
  intros [| item rest]; [apply raises_ret |].
  apply raises_bind.
  { intros w x H.
    destruct (cleanup_existing_ipsets_result fuel e w) as [E | E];
      rewrite E in H; discriminate. }
  intros _. apply raises_bind; [apply raises_apply_native_ipset |].
  intros ok. destruct ok; cbn [negb]; [| apply raises_ret].
  apply raises_bind; [apply raises_setup_firewall_rules |].
  intros ok. destruct ok; apply raises_ret.
Qed.

End Raises.

Lemma raises_smart_update_acquire (e : env) (w : world) (x : exn) :
  fst (smart_update_acquire e w) = Raise x -> head_fails e.
Proof.
  unfold head_fails.
  unfold_acquire. cbn beta iota zeta.
  repeat (case_step; world_simpl; cbn beta iota zeta).
  all: try discriminate.
  all: try match goal with
           | H : mmdb ?f = None, H' : exists_file (mmdb ?f) = true |- _ =>
               rewrite H in H'; discriminate H'
           end.
  all: intros _;
    try match goal with
        | H : (_ =? 404)%nat = false |- _ => apply Nat.eqb_neq in H
        end;
    repeat match goal with
           | H : remote_head _ = _ |- _ => rewrite H in *; clear H
           end;
    auto; try congruence.
Qed.

(** X24: the only exceptions that leave [smart_update] come from an
    outage: the HEAD request failed (no response, or an HTTP error other
    than 404), or a command could not be started.  A command that exits
    with an error, a failed download, an unreadable database and a missing
    hash file never raise; with neither kind of outage the run ends by
    returning or is still inside the cleanup loops. *)
Theorem smart_update_raises_only_on_outage (fuel : nat) (e : env) (w : world)
  (x : exn) :
  fst (smart_update fuel e w) = Raise x ->
  head_fails e \/ exists n c, oracle e n c = Crash.
Proof.
  unfold smart_update, bind.
  pose proof (raises_smart_update_acquire e w) as Ha.
  destruct (smart_update_acquire e w) as [[[b |] | y |] w1]; cbn [fst] in *.
  - discriminate.
  - intros H. destruct (raises_smart_update_rebuild e fuel w1 x H) as [[] | Hc].
    now right.
  - intros _. left. now apply (Ha y).
  - discriminate.
Qed.

Lemma smart_update_raises_only_on_outage_witness :
  head_fails (Scenario.world_of 2026 4 (HeadHTTPError 503)
                (Downloaded Scenario.db_april) Scenario.all_ok) \/
  exists n c,
    oracle (Scenario.world_of 2026 4 (HeadHTTPError 503)
              (Downloaded Scenario.db_april) Scenario.all_ok) n c = Crash.
Proof.
  apply (smart_update_raises_only_on_outage 20
           (Scenario.world_of 2026 4 (HeadHTTPError 503)
              (Downloaded Scenario.db_april) Scenario.all_ok)
           (boot Scenario.march_files Scenario.march_kernel)
           (HTTPError 503)).
  reflexivity.
Defined.

(* ================================================================= *)
(** ** What exit status 0 stands for *)

(** X25: exit status 0 is never reported for a half-built firewall.  In
    every environment, when [main] exits with status 0 the run either left
    the kernel as it found it, having issued no command that changes a set
    or a rule, or it went through the whole rebuild: a country set is
    resident and each chain ends with a complete chain, from the stateful
    accept to the default drop. *)
Theorem exit_status_0_means_untouched_or_complete (fuel : nat) (e : env)
  (f : files) (k : kernel) :
  fst (main fuel e (boot f k)) = Some 0 ->
  let w' := snd (main fuel e (boot f k)) in
  (kern w' = k /\ Forall (fun ev => ~ is_mutation ev) (trace w')) \/
  (has_country_set (kern w') /\
   exists c4 c6 A4 A6 B4 B6,
     INPUT4 (kern w') = (c4 ++ Chain.ipv4 A4 B4)%list /\
     INPUT6 (kern w') = (c6 ++ Chain.ipv6 A6 B6)%list /\
     Chain.subseq A4 CONFIG.ALLOWED_COUNTRIES /\
     Chain.subseq A6 CONFIG.ALLOWED_COUNTRIES /\
     Chain.subseq B4 (Chain.blocked CONFIG.ALLOWED_COUNTRIES (ALL_COUNTRIES w')) /\
     Chain.subseq B6 (Chain.blocked CONFIG.ALLOWED_COUNTRIES (ALL_COUNTRIES w'))).
Proof.
  unfold main, smart_update, bind.
  destruct (smart_update_acquire_frame e (boot f k)) as (_ & Hk & ta & Ta & Pa).
  cbn [boot kern trace app] in Hk, Ta.
  destruct (smart_update_acquire e (boot f k)) as [[[[|] |] | x |] w1];
    cbn [fst snd ret] in *; try discriminate.
  - intros _. left. split; [now symmetry |].
    rewrite Ta. eapply Forall_impl; [| exact Pa].
    intros [[] o | | | |]; simpl; tauto.
  - destruct (smart_update_rebuild fuel e w1) as [[[|] | x |] w2] eqn:E;
      cbn [fst snd]; try discriminate.
    intros _. right.
    destruct (smart_update_rebuild_success fuel e w1 w2 E)
      as (_ & _ & Hc & Hac & _ & Hch).
    split; [exact Hc |]. rewrite Hac. exact Hch.
Qed.

Lemma exit_status_0_means_untouched_or_complete_witness :
  (kern (snd (main 20 Scenario.quiet_march
                (boot Scenario.march_files Scenario.march_kernel)))
   = Scenario.march_kernel /\
   Forall (fun ev => ~ is_mutation ev)
     (trace (snd (main 20 Scenario.quiet_march
                    (boot Scenario.march_files Scenario.march_kernel))))) \/
  (has_country_set
     (kern (snd (main 20 Scenario.quiet_march
                   (boot Scenario.march_files Scenario.march_kernel)))) /\
   exists c4 c6 A4 A6 B4 B6,
     INPUT4 (kern (snd (main 20 Scenario.quiet_march
                          (boot Scenario.march_files Scenario.march_kernel))))
     = (c4 ++ Chain.ipv4 A4 B4)%list /\
     INPUT6 (kern (snd (main 20 Scenario.quiet_march
                          (boot Scenario.march_files Scenario.march_kernel))))
     = (c6 ++ Chain.ipv6 A6 B6)%list /\
     Chain.subseq A4 CONFIG.ALLOWED_COUNTRIES /\
     Chain.subseq A6 CONFIG.ALLOWED_COUNTRIES /\
     Chain.subseq B4
       (Chain.blocked CONFIG.ALLOWED_COUNTRIES
          (ALL_COUNTRIES
             (snd (main 20 Scenario.quiet_march
                     (boot Scenario.march_files Scenario.march_kernel))))) /\
     Chain.subseq B6
       (Chain.blocked CONFIG.ALLOWED_COUNTRIES
          (ALL_COUNTRIES
             (snd (main 20 Scenario.quiet_march
                     (boot Scenario.march_files Scenario.march_kernel)))))).
Proof.
  apply (exit_status_0_means_untouched_or_complete 20 Scenario.quiet_march
           Scenario.march_files Scenario.march_kernel).
  reflexivity.
Defined.
